(** * A contact book with validated fields: bott.py

    Shallow embedding of [src/bott.py] (fields, [Record], [AddressBook],
    persistence and the [add] command) together with the parts of the
    Python runtime the program relies on: [str] methods, the [re] patterns
    it compiles, [datetime] arithmetic, [datetime.strptime] and [pickle]. *)

From Stdlib Require Import List ZArith NArith Lia Bool String Ascii.
From Stdlib Require Import DecimalString.
Import ListNotations.

Set Implicit Arguments.

(** ** Python strings

    A Python [str] is a sequence of Unicode code points; [len], slicing,
    [==], [strip] and the [re] module all work code point by code point. *)

Definition str := list N.

Fixpoint lit (s : string) : str :=
  match s with
  | EmptyString => []
  | String a s' => N_of_ascii a :: lit s'
  end.

Fixpoint str_eqb (a b : str) : bool :=
  match a, b with
  | [], [] => true
  | x :: a', y :: b' => N.eqb x y && str_eqb a' b'
  | _, _ => false
  end.

Definition is_ascii (s : str) : Prop := Forall (fun c => (c < 128)%N) s.

(** [Py_UNICODE_ISSPACE]: the characters [str.strip()] removes. *)
Definition Py_UNICODE_ISSPACE (c : N) : bool :=
  ((0x09 <=? c) && (c <=? 0x0D) || (0x1C <=? c) && (c <=? 0x20)
   || (c =? 0x85) || (c =? 0xA0) || (c =? 0x1680)
   || (0x2000 <=? c) && (c <=? 0x200A)
   || (c =? 0x2028) || (c =? 0x2029) || (c =? 0x202F) || (c =? 0x205F)
   || (c =? 0x3000))%N.

(** The runs of characters of general category Nd (Unicode 14.0, the table
    of CPython 3.11), as (first code point, length).  Inside a run the
    decimal value of a character is its offset modulo ten. *)
Definition decimal_runs : list (N * N) :=
  [ (0x30, 10); (0x660, 10); (0x6F0, 10); (0x7C0, 10); (0x966, 10);
    (0x9E6, 10); (0xA66, 10); (0xAE6, 10); (0xB66, 10); (0xBE6, 10);
    (0xC66, 10); (0xCE6, 10); (0xD66, 10); (0xDE6, 10); (0xE50, 10);
    (0xED0, 10); (0xF20, 10); (0x1040, 10); (0x1090, 10); (0x17E0, 10);
    (0x1810, 10); (0x1946, 10); (0x19D0, 10); (0x1A80, 10); (0x1A90, 10);
    (0x1B50, 10); (0x1BB0, 10); (0x1C40, 10); (0x1C50, 10); (0xA620, 10);
    (0xA8D0, 10); (0xA900, 10); (0xA9D0, 10); (0xA9F0, 10); (0xAA50, 10);
    (0xABF0, 10); (0xFF10, 10); (0x104A0, 10); (0x10D30, 10); (0x11066, 10);
    (0x110F0, 10); (0x11136, 10); (0x111D0, 10); (0x112F0, 10);
    (0x11450, 10); (0x114D0, 10); (0x11650, 10); (0x116C0, 10);
    (0x11730, 10); (0x118E0, 10); (0x11950, 10); (0x11C50, 10);
    (0x11D50, 10); (0x11DA0, 10); (0x16A60, 10); (0x16AC0, 10);
    (0x16B50, 10); (0x1D7CE, 50); (0x1E140, 10); (0x1E2F0, 10);
    (0x1E950, 10); (0x1FBF0, 10) ]%N.

Definition in_run (c : N) (r : N * N) : bool :=
  ((fst r <=? c) && (c <? fst r + snd r))%N.

(** [Py_UNICODE_TODECIMAL]: the decimal value of a character, if it has one. *)
Definition Py_UNICODE_TODECIMAL (c : N) : option N :=
  match find (in_run c) decimal_runs with
  | Some r => Some ((c - fst r) mod 10)%N
  | None => None
  end.

(** [Py_UNICODE_ISDECIMAL]: what [\d] matches in a [str] pattern. *)
Definition Py_UNICODE_ISDECIMAL (c : N) : bool :=
  match Py_UNICODE_TODECIMAL c with Some _ => true | None => false end.

Definition is_ascii_digit (c : N) : bool := ((0x30 <=? c) && (c <=? 0x39))%N.

(** [str.strip()] with no argument. *)
Fixpoint lstrip (s : str) : str :=
  match s with
  | c :: s' => if Py_UNICODE_ISSPACE c then lstrip s' else s
  | [] => []
  end.

Definition rstrip (s : str) : str := rev (lstrip (rev s)).

Definition strip (s : str) : str := rstrip (lstrip s).

(** Truth value of a [str]: the empty string is false. *)
Definition str_bool (s : str) : bool :=
  match s with [] => false | _ :: _ => true end.

(** ** Exceptions and results

    An exception is its class and its argument.  Two messages of the
    standard library are formatted with [%r]; the escaping rules of [repr]
    are not modelled, so those exceptions keep their arguments unrendered. *)

Inductive exn :=
| ValueError (msg : str)
| ValueError_fmt (template : string) (args : list str)
    (* ValueError(template % args), for a template with %r *)
| KeyError (arg : str)
| IndexError (msg : str)
| UnpicklingError.

Definition is_ValueError (e : exn) : bool :=
  match e with
  | ValueError _ | ValueError_fmt _ _ => true
  | KeyError _ | IndexError _ | UnpicklingError => false
  end.

Inductive res (A : Type) :=
| Ok (a : A)
| Raise (e : exn).
Arguments Ok {A} a.
Arguments Raise {A} e.

Definition rbind {A B} (r : res A) (f : A -> res B) : res B :=
  match r with
  | Ok a => f a
  | Raise e => Raise e
  end.

(** Code that mutates an object of type [S] and may raise: the state comes
    back in both cases, as it is at the moment of the return or the raise. *)
Definition M (S A : Type) : Type := S -> res A * S.

Definition ret {S A} (a : A) : M S A := fun s => (Ok a, s).
Definition raise {S A} (e : exn) : M S A := fun s => (Raise e, s).
Definition bind {S A B} (m : M S A) (f : A -> M S B) : M S B :=
  fun s => match m s with
           | (Ok a, s') => f a s'
           | (Raise e, s') => (Raise e, s')
           end.
Definition get {S} : M S S := fun s => (Ok s, s).
Definition put {S} (s : S) : M S unit := fun _ => (Ok tt, s).
(** An expression that may raise but touches no state. *)
Definition eval {S A} (r : res A) : M S A := fun s => (r, s).

Declare Scope py_scope.
Delimit Scope py_scope with py.
Notation "x <- m ;; k" := (bind m (fun x => k))
  (at level 61, m at next level, right associativity) : py_scope.
Notation "m ;;; k" := (bind m (fun _ => k))
  (at level 61, right associativity) : py_scope.
Notation "x <~ r ;; k" := (rbind r (fun x => k))
  (at level 61, r at next level, right associativity) : py_scope.
Open Scope py_scope.

(** ** Regular expressions

    The fragment of [re] the program uses, with the matcher of [sre]: a
    backtracking search that tries the alternatives of [|] from left to
    right and keeps the first way through the whole pattern. *)

Inductive re :=
| Eps
| Chr (c : N)                  (* a literal character *)
| Rng (lo hi : N)              (* [lo-hi] *)
| Dig                          (* \d *)
| Cat (r1 r2 : re)
| Alt (r1 r2 : re)             (* r1|r2 *)
| Grp (name : string) (r : re) (* (?P<name>r) *).

Definition groups := list (string * str).

Definition consumed (s rest : str) : str :=
  firstn (List.length s - List.length rest) s.

Definition step_if {A} (p : N -> bool) (s : str) (k : str -> option A)
  : option A :=
  match s with
  | c :: s' => if p c then k s' else None
  | [] => None
  end.

Fixpoint exec {A} (r : re) (s : str) (g : groups)
         (k : str -> groups -> option A) : option A :=
  match r with
  | Eps => k s g
  | Chr c => step_if (N.eqb c) s (fun s' => k s' g)
  | Rng lo hi => step_if (fun c => (lo <=? c) && (c <=? hi))%N s
                         (fun s' => k s' g)
  | Dig => step_if Py_UNICODE_ISDECIMAL s (fun s' => k s' g)
  | Cat r1 r2 => exec r1 s g (fun s1 g1 => exec r2 s1 g1 k)
  | Alt r1 r2 =>
      match exec r1 s g k with
      | Some a => Some a
      | None => exec r2 s g k
      end
  | Grp name r1 =>
      exec r1 s g (fun s1 g1 => k s1 ((name, consumed s s1) :: g1))
  end.

(** [pattern.match(s)]: the first match from the start of [s]; the result
    is what is left of [s] after the match, and the groups. *)
Definition re_match (r : re) (s : str) : option (str * groups) :=
  exec r s [] (fun rest g => Some (rest, g)).

(** [re.fullmatch(pattern, s)]: the match has to reach the end of [s]. *)
Definition re_fullmatch (r : re) (s : str) : option groups :=
  exec r s [] (fun rest g => match rest with [] => Some g | _ => None end).

Fixpoint times (n : nat) (r : re) : re :=
  match n with
  | O => Eps
  | S n' => Cat r (times n' r)
  end.

Fixpoint group (name : string) (g : groups) : option str :=
  match g with
  | [] => None
  | (n, v) :: g' => if String.eqb n name then Some v else group name g'
  end.

(** ** Fields *)

Record Name := mkName { name_value : str }.
Record Phone := mkPhone { phone_value : str }.
Record Birthday := mkBirthday { birthday_value : str }.

(** [Name.__init__] *)
Definition Name_init (value : str) : res Name :=
  if negb (str_bool (strip value))
  then Raise (ValueError (lit "Name cannot be empty."))
  else Ok (mkName (strip value)).

(** [Phone._validate]: [bool(re.fullmatch(r"\d{10}", value))] *)
Definition Phone__validate (value : str) : bool :=
  match re_fullmatch (times 10 Dig) value with
  | Some _ => true
  | None => false
  end.

(** [Phone.__init__] *)
Definition Phone_init (value : str) : res Phone :=
  if negb (Phone__validate value)
  then Raise (ValueError (lit "Phone number must be exactly 10 digits."))
  else Ok (mkPhone value).

(** ** [datetime]

    The date arithmetic of the [datetime] module, for naive values. *)

Open Scope Z_scope.

Record datetime := mkdatetime {
  dt_year : Z; dt_month : Z; dt_day : Z;
  dt_hour : Z; dt_minute : Z; dt_second : Z; dt_microsecond : Z }.

Record timedelta := mktimedelta {
  td_days : Z; td_seconds : Z; td_microseconds : Z }.

Definition MINYEAR : Z := 1.
Definition MAXYEAR : Z := 9999.

Definition _is_leap (year : Z) : bool :=
  (year mod 4 =? 0) && (negb (year mod 100 =? 0) || (year mod 400 =? 0)).

Definition _days_before_year (year : Z) : Z :=
  let y := year - 1 in y * 365 + y / 4 - y / 100 + y / 400.

Definition _DAYS_IN_MONTH : list Z :=
  [-1; 31; 28; 31; 30; 31; 30; 31; 31; 30; 31; 30; 31].

Definition _DAYS_BEFORE_MONTH : list Z :=
  [-1; 0; 31; 59; 90; 120; 151; 181; 212; 243; 273; 304; 334].

Definition _days_in_month (year month : Z) : Z :=
  if (month =? 2) && _is_leap year then 29
  else nth (Z.to_nat month) _DAYS_IN_MONTH 0.

Definition _days_before_month (year month : Z) : Z :=
  nth (Z.to_nat month) _DAYS_BEFORE_MONTH 0
  + (if (2 <? month) && _is_leap year then 1 else 0).

Definition _ymd2ord (year month day : Z) : Z :=
  _days_before_year year + _days_before_month year month + day.

(** Decimal rendering of an integer ([%i]). *)
Definition str_of_Z (z : Z) : str :=
  lit (DecimalString.NilZero.string_of_int (Z.to_int z)).

(** The checks of the [date] constructor. *)
Definition check_date_args (year month day : Z) : res unit :=
  if negb ((MINYEAR <=? year) && (year <=? MAXYEAR))
  then Raise (ValueError (lit "year " ++ str_of_Z year
                                      ++ lit " is out of range"))
  else if negb ((1 <=? month) && (month <=? 12))
  then Raise (ValueError (lit "month must be in 1..12"))
  else if negb ((1 <=? day) && (day <=? _days_in_month year month))
  then Raise (ValueError (lit "day is out of range for month"))
  else Ok tt.

(** [dt.replace(year=year)] *)
Definition replace_year (dt : datetime) (year : Z) : res datetime :=
  _ <~ check_date_args year (dt_month dt) (dt_day dt) ;;
  Ok (mkdatetime year (dt_month dt) (dt_day dt) (dt_hour dt) (dt_minute dt)
                 (dt_second dt) (dt_microsecond dt)).

Definition toordinal (dt : datetime) : Z :=
  _ymd2ord (dt_year dt) (dt_month dt) (dt_day dt).

Definition time_of_day (dt : datetime) : Z :=
  dt_second dt + dt_minute dt * 60 + dt_hour dt * 3600.

(** [timedelta(days, seconds, microseconds)]: the normalised triple, with
    [0 <= seconds < 86400] and [0 <= microseconds < 1000000]. *)
Definition timedelta_new (days seconds microseconds : Z) : timedelta :=
  let total := (days * 86400 + seconds) * 1000000 + microseconds in
  mktimedelta (total / 86400000000)
              (total mod 86400000000 / 1000000)
              (total mod 1000000).

(** [a - b] on two naive datetimes. *)
Definition datetime_sub (a b : datetime) : timedelta :=
  timedelta_new (toordinal a - toordinal b)
                (time_of_day a - time_of_day b)
                (dt_microsecond a - dt_microsecond b).

Definition datetime_fields (dt : datetime) : list Z :=
  [dt_year dt; dt_month dt; dt_day dt; dt_hour dt; dt_minute dt;
   dt_second dt; dt_microsecond dt].

Fixpoint tuple_lt (a b : list Z) : bool :=
  match a, b with
  | x :: a', y :: b' => (x <? y) || ((x =? y) && tuple_lt a' b')
  | [], _ :: _ => true
  | _, [] => false
  end.

(** [a < b] on two naive datetimes. *)
Definition datetime_lt (a b : datetime) : bool :=
  tuple_lt (datetime_fields a) (datetime_fields b).

(** *** [datetime.strptime(data, '%d.%m.%Y')] *)

Definition ch (a : ascii) : N := N_of_ascii a.

(** [int(s)] for the strings the format captures: decimal digits, after
    white space that [int] strips. *)
Definition int_of_digits (s : str) : option Z :=
  fold_left (fun acc c =>
               match acc, Py_UNICODE_TODECIMAL c with
               | Some n, Some d => Some (n * 10 + Z.of_N d)
               | _, _ => None
               end) s (Some 0).

Definition py_int (s : str) : res Z :=
  match strip s with
  | [] => Raise (ValueError_fmt "invalid literal for int() with base 10: %r"
                                [s])
  | c :: t =>
      match int_of_digits (c :: t) with
      | Some n => Ok n
      | None =>
          Raise (ValueError_fmt "invalid literal for int() with base 10: %r"
                                [s])
      end
  end.

(** [(?P<d>3[0-1]|[1-2]\d|0[1-9]|[1-9]| [1-9])] *)
Definition re_d : re :=
  Grp "d" (Alt (Cat (Chr (ch "3")) (Rng (ch "0") (ch "1")))
          (Alt (Cat (Rng (ch "1") (ch "2")) Dig)
          (Alt (Cat (Chr (ch "0")) (Rng (ch "1") (ch "9")))
          (Alt (Rng (ch "1") (ch "9"))
               (Cat (Chr (ch " ")) (Rng (ch "1") (ch "9"))))))).

(** [(?P<m>1[0-2]|0[1-9]|[1-9])] *)
Definition re_m : re :=
  Grp "m" (Alt (Cat (Chr (ch "1")) (Rng (ch "0") (ch "2")))
          (Alt (Cat (Chr (ch "0")) (Rng (ch "1") (ch "9")))
               (Rng (ch "1") (ch "9")))).

(** [(?P<Y>\d\d\d\d)] *)
Definition re_Y : re := Grp "Y" (Cat Dig (Cat Dig (Cat Dig Dig))).

(** The pattern [_strptime] compiles for ['%d.%m.%Y']: each directive is
    replaced by its group and the dots are escaped.  It is compiled with
    [IGNORECASE], which changes nothing for digits, dots and spaces. *)
Definition format_regex : re :=
  Cat re_d (Cat (Chr (ch ".")) (Cat re_m (Cat (Chr (ch ".")) re_Y))).

Definition found_dict (name : string) (g : groups) : res str :=
  match group name g with
  | Some v => Ok v
  | None => Raise (KeyError (lit name))
  end.

Definition strptime (data_string : str) : res datetime :=
  match re_match format_regex data_string with
  | None =>
      Raise (ValueError_fmt "time data %r does not match format %r"
                            [data_string; lit "%d.%m.%Y"])
  | Some (rest, found) =>
      if str_bool rest
      then Raise (ValueError (lit "unconverted data remains: " ++ rest))
      else
        sd <~ found_dict "d" found ;; day <~ py_int sd ;;
        sm <~ found_dict "m" found ;; month <~ py_int sm ;;
        sY <~ found_dict "Y" found ;; year <~ py_int sY ;;
        _ <~ check_date_args year month day ;;
        Ok (mkdatetime year month day 0 0 0 0)
  end.

(** What [strptime] returns once the three numbers are read. *)
Definition date_checked (y m d : Z) : res datetime :=
  _ <~ check_date_args y m d ;; Ok (mkdatetime y m d 0 0 0 0).

(** [Birthday.validate_birthday]: only a [ValueError] is caught. *)
Definition Birthday_validate_birthday (value : str) : res bool :=
  match strptime value with
  | Ok _ => Ok true
  | Raise e => if is_ValueError e then Ok false else Raise e
  end.

(** [Birthday.__init__] *)
Definition Birthday_init (value : str) : res Birthday :=
  valid <~ Birthday_validate_birthday value ;;
  if negb valid
  then Raise (ValueError (lit "Date must be in format DD.MM.YYYY."))
  else Ok (mkBirthday value).

(** ** Python containers *)

(** [l[idx] = v] *)
Fixpoint list_setitem {A} (idx : nat) (v : A) (l : list A) : res (list A) :=
  match l, idx with
  | [], _ => Raise (IndexError (lit "list assignment index out of range"))
  | _ :: l', O => Ok (v :: l')
  | x :: l', S i => l'' <~ list_setitem i v l' ;; Ok (x :: l'')
  end.

(** A [dict] with [str] keys, as the list of its items in insertion order.
    A Python dict holds a key once: [dict_wf]. *)
Definition dict (V : Type) := list (str * V).

Definition dict_keys {V} (d : dict V) : list str := map fst d.
Definition dict_values {V} (d : dict V) : list V := map snd d.
Definition dict_wf {V} (d : dict V) : Prop := NoDup (dict_keys d).

(** [d.get(key)] *)
Fixpoint dict_get {V} (key : str) (d : dict V) : option V :=
  match d with
  | [] => None
  | (k, v) :: d' => if str_eqb k key then Some v else dict_get key d'
  end.

(** [key in d] *)
Definition dict_contains {V} (key : str) (d : dict V) : bool :=
  match dict_get key d with Some _ => true | None => false end.

(** [d[key] = value]: an existing key keeps its place, a new one goes last. *)
Fixpoint dict_setitem {V} (key : str) (value : V) (d : dict V) : dict V :=
  match d with
  | [] => [(key, value)]
  | (k, v) :: d' =>
      if str_eqb k key then (k, value) :: d'
      else (k, v) :: dict_setitem key value d'
  end.

(** [del d[key]], for a key that is in [d]. *)
Definition dict_delitem {V} (key : str) (d : dict V) : dict V :=
  filter (fun kv => negb (str_eqb (fst kv) key)) d.

(** ** Record *)

Record Record_ := mkRecord {
  rec_name : Name;
  rec_phones : list Phone;
  rec_birthday : option Birthday }.

Definition set_phones (self : Record_) (phones : list Phone) : Record_ :=
  mkRecord (rec_name self) phones (rec_birthday self).

Definition set_birthday (self : Record_) (b : option Birthday) : Record_ :=
  mkRecord (rec_name self) (rec_phones self) b.

(** [Record.__init__(name, phone=None, birthday=None)] *)
Definition Record_init (name : Name) (phone : option Phone)
           (birthday : option Birthday) : Record_ :=
  mkRecord name
           (match phone with Some p => [p] | None => [] end)
           birthday.

(** [Record.add_phone] *)
Definition add_phone (phone : str) : M Record_ unit :=
  p <- eval (Phone_init phone) ;;
  self <- get ;;
  put (set_phones self (rec_phones self ++ [p])).

(** [Record.remove_phone] *)
Definition remove_phone (phone : str) : M Record_ unit :=
  self <- get ;;
  put (set_phones self
         (filter (fun p => negb (str_eqb (phone_value p) phone))
                 (rec_phones self))).

(** The loop of [Record.edit_phone], from index [idx] on. *)
Fixpoint edit_phone_loop (old_phone new_phone : str) (idx : nat)
         (rest : list Phone) : M Record_ unit :=
  match rest with
  | [] => raise (ValueError (lit "Phone number " ++ old_phone
                                                 ++ lit " not found."))
  | phone :: rest' =>
      if str_eqb (phone_value phone) old_phone
      then
        p <- eval (Phone_init new_phone) ;;
        self <- get ;;
        l <- eval (list_setitem idx p (rec_phones self)) ;;
        put (set_phones self l)
      else edit_phone_loop old_phone new_phone (S idx) rest'
  end.

(** [Record.edit_phone] *)
Definition edit_phone (old_phone new_phone : str) : M Record_ unit :=
  self <- get ;;
  edit_phone_loop old_phone new_phone 0 (rec_phones self).

(** [Record.add_birthday] *)
Definition add_birthday (birthday : str) : M Record_ unit :=
  b <- eval (Birthday_init birthday) ;;
  self <- get ;;
  put (set_birthday self (Some b)).

(** The date of the next birthday as both methods compute it: the birthday
    moved to this year, and to the next one when that is before [today]. *)
Definition next_bday (value : str) (today : datetime) : res datetime :=
  parsed <~ strptime value ;;
  bday <~ replace_year parsed (dt_year today) ;;
  if datetime_lt bday today
  then replace_year bday (dt_year today + 1)
  else Ok bday.

(** [Record.days_to_birthday]; [now] is what [datetime.now()] returns. *)
Definition days_to_birthday (now : datetime) (self : Record_)
  : res (option Z) :=
  match rec_birthday self with
  | None => Ok None
  | Some b =>
      let today := now in
      bday <~ next_bday (birthday_value b) today ;;
      Ok (Some (td_days (datetime_sub bday today)))
  end.

(** ** AddressBook

    A [UserDict]: the mapping is the attribute [data]. *)

Record AddressBook := mkAddressBook { data : dict Record_ }.

(** [AddressBook()] *)
Definition AddressBook_init : AddressBook := mkAddressBook [].

(** [AddressBook.add_record] *)
Definition add_record (record : Record_) : M AddressBook unit :=
  self <- get ;;
  put (mkAddressBook
         (dict_setitem (name_value (rec_name record)) record (data self))).

(** [AddressBook.find] *)
Definition find (name : str) : M AddressBook (option Record_) :=
  self <- get ;;
  ret (dict_get (strip name) (data self)).

(** [AddressBook.delete] *)
Definition delete (name : str) : M AddressBook unit :=
  self <- get ;;
  if dict_contains name (data self)
  then put (mkAddressBook (dict_delitem name (data self)))
  else raise (KeyError (lit "Contact " ++ name ++ lit " not found.")).

(** The loop of [AddressBook.upcoming_birthdays]. *)
Fixpoint upcoming_loop (today : datetime) (days : Z)
         (records upcoming : list Record_) : res (list Record_) :=
  match records with
  | [] => Ok upcoming
  | record :: rest =>
      match rec_birthday record with
      | Some b =>
          bday <~ next_bday (birthday_value b) today ;;
          let n := td_days (datetime_sub bday today) in
          if (0 <=? n) && (n <? days)
          then upcoming_loop today days rest (upcoming ++ [record])
          else upcoming_loop today days rest upcoming
      | None => upcoming_loop today days rest upcoming
      end
  end.

(** [AddressBook.upcoming_birthdays(days=7)]; [days] is [None] when the
    caller leaves the argument out, [now] is what [datetime.now()] returns. *)
Definition upcoming_birthdays (days : option Z) (now : datetime)
           (self : AddressBook) : res (list Record_) :=
  let days := match days with Some d => d | None => 7 end in
  let today := now in
  upcoming_loop today days (dict_values (data self)) [].

(** ** The [add] command *)

(** The text a command returns.  [input_error] formats an exception with
    [str(e)], which is the message for a [ValueError] built from one; for
    the other exceptions the text stays symbolic. *)
Inductive reply :=
| Text (s : str)
| Error_str (e : exn) (* "Error: " + str(e) *).

Definition input_error {S} (func : M S str) : M S reply :=
  fun s =>
    match func s with
    | (Ok text, s') => (Ok (Text text), s')
    | (Raise (ValueError msg), s') => (Ok (Text (lit "Error: " ++ msg)), s')
    | (Raise e, s') => (Ok (Error_str e), s')
    end.

(** A method call on a Record that the book holds.  Records are objects and
    the book maps names to references: the Record that [find] returned, or
    that [add_record] has just stored, is the one under [key], and what the
    method does to it is seen through the book. *)
Definition on_record {A} (key : str) (method : M Record_ A)
  : M AddressBook A :=
  fun book =>
    match dict_get key (data book) with
    | Some record =>
        let (r, record') := method record in
        (r, mkAddressBook (dict_setitem key record' (data book)))
    | None => (Raise (KeyError key), book)
    end.

Definition add_contact_func (args : list str) : M AddressBook str :=
  if (List.length args <? 2)%nat
  then ret (lit "Error: Provide both name and phone number.")
  else
    let name := nth 0 args [] in
    let phone := nth 1 args [] in
    record <- find name ;;
    key <- match record with
           | Some r => ret (strip name)
           | None =>
               n <- eval (Name_init name) ;;
               let record := Record_init n None None in
               add_record record ;;;
               ret (name_value (rec_name record))
           end ;;
    on_record key (add_phone phone) ;;;
    ret (lit "Contact '" ++ name ++ lit "' added or updated.").

(** [add_contact], decorated with [input_error]. *)
Definition add_contact (args : list str) : M AddressBook reply :=
  input_error (add_contact_func args).

(** ** [pickle]

    What [pickle.dump] writes for the objects of this program, at the level
    of the opcodes of protocol 4, and the virtual machine of [pickle.load]
    that rebuilds the objects.  The pickler's memo is left out: it replaces
    a second reference to an object by a back-reference and leaves what is
    rebuilt the same.  The byte encoding of the opcodes and the frame
    headers are not modelled either. *)

Unset Elimination Schemes.
Inductive pyobj :=
| PNone
| PStr (s : str)
| PList (items : list pyobj)
| PDict (items : list (str * pyobj))
| PTuple0
| PGlobal (module name : str)                    (* a class *)
| PInst (module name : str) (attrs : list (str * pyobj))
    (* an instance of a class, with its __dict__ *).
Set Elimination Schemes.

Inductive opcode :=
| PROTO (version : N)
| NONE
| BINUNICODE (s : str)
| EMPTY_LIST | APPEND | APPENDS
| EMPTY_DICT | SETITEM | SETITEMS
| EMPTY_TUPLE | MARK
| STACK_GLOBAL | NEWOBJ | BUILD
| STOP.

Definition _BATCHSIZE : nat := 1000.

(** The successive [islice(it, n)] of the batching loops: [l] cut into
    runs of [n] items, the last one shorter. *)
Fixpoint batches_fuel {A} (fuel n : nat) (l : list A) : list (list A) :=
  match fuel, l with
  | S fuel', _ :: _ => firstn n l :: batches_fuel fuel' n (skipn n l)
  | _, _ => []
  end.

Definition batches {A} (n : nat) (l : list A) : list (list A) :=
  batches_fuel (List.length l) n l.

(** [_batch_appends] and [_batch_setitems], on the pickled items: a batch
    of one item ends in the single-item opcode, a longer one is put between
    [MARK] and the many-item opcode. *)
Definition write_batch (one many : opcode) (tmp : list (list opcode))
  : list opcode :=
  match tmp with
  | [] => []
  | [x] => x ++ [one]
  | _ => MARK :: List.concat tmp ++ [many]
  end.

Definition _batch_appends (items : list (list opcode)) : list opcode :=
  flat_map (write_batch APPEND APPENDS) (batches _BATCHSIZE items).

Definition _batch_setitems (items : list (list opcode)) : list opcode :=
  flat_map (write_batch SETITEM SETITEMS) (batches _BATCHSIZE items).

(** [Pickler.save] *)
Fixpoint save (obj : pyobj) : list opcode :=
  match obj with
  | PNone => [NONE]
  | PStr s => [BINUNICODE s]
  | PList items => EMPTY_LIST :: _batch_appends (map save items)
  | PDict items =>
      EMPTY_DICT
        :: _batch_setitems
             (map (fun kv => BINUNICODE (fst kv) :: save (snd kv)) items)
  | PTuple0 => [EMPTY_TUPLE]
  | PGlobal module name => [BINUNICODE module; BINUNICODE name; STACK_GLOBAL]
  | PInst module name attrs =>
      (* save_reduce(copyreg.__newobj__, (cls,), state) *)
      [BINUNICODE module; BINUNICODE name; STACK_GLOBAL; EMPTY_TUPLE; NEWOBJ]
        ++ (EMPTY_DICT
              :: _batch_setitems
                   (map (fun kv => BINUNICODE (fst kv) :: save (snd kv))
                        attrs))
        ++ [BUILD]
  end.

(** [pickle.dumps(obj)] *)
Definition dumps (obj : pyobj) : list opcode :=
  PROTO 4 :: save obj ++ [STOP].

(** The stack of the unpickler: objects and marks. *)
Inductive slot :=
| Obj (o : pyobj)
| Mark.

(** [pop_mark]: the objects above the topmost mark, oldest first. *)
Fixpoint pop_mark (st : list slot) (acc : list pyobj)
  : option (list pyobj * list slot) :=
  match st with
  | [] => None
  | Mark :: st' => Some (acc, st')
  | Obj o :: st' => pop_mark st' (o :: acc)
  end.

(** [dict[k] = v] for the flat list [k1; v1; k2; v2; ...]. *)
Fixpoint setitems (items : list pyobj) (d : list (str * pyobj))
  : option (list (str * pyobj)) :=
  match items with
  | [] => Some d
  | PStr k :: v :: items' => setitems items' (dict_setitem k v d)
  | _ => None
  end.

(** One opcode of the unpickler; [None] when the stack does not have what
    the opcode needs.  The machine covers the opcodes that the pickler
    writes for the objects above; on any other stream [load] raises, and
    which exception Python raises there is not modelled. *)
Definition load_op (op : opcode) (st : list slot) : option (list slot) :=
  match op, st with
  | PROTO _, _ => Some st
  | NONE, _ => Some (Obj PNone :: st)
  | BINUNICODE s, _ => Some (Obj (PStr s) :: st)
  | EMPTY_LIST, _ => Some (Obj (PList []) :: st)
  | EMPTY_DICT, _ => Some (Obj (PDict []) :: st)
  | EMPTY_TUPLE, _ => Some (Obj PTuple0 :: st)
  | MARK, _ => Some (Mark :: st)
  | APPEND, Obj v :: Obj (PList l) :: st' =>
      Some (Obj (PList (l ++ [v])) :: st')
  | APPENDS, _ =>
      match pop_mark st [] with
      | Some (items, Obj (PList l) :: st') =>
          Some (Obj (PList (l ++ items)) :: st')
      | _ => None
      end
  | SETITEM, Obj v :: Obj (PStr k) :: Obj (PDict d) :: st' =>
      Some (Obj (PDict (dict_setitem k v d)) :: st')
  | SETITEMS, _ =>
      match pop_mark st [] with
      | Some (items, Obj (PDict d) :: st') =>
          match setitems items d with
          | Some d' => Some (Obj (PDict d') :: st')
          | None => None
          end
      | _ => None
      end
  | STACK_GLOBAL, Obj (PStr name) :: Obj (PStr module) :: st' =>
      Some (Obj (PGlobal module name) :: st')
  | NEWOBJ, Obj PTuple0 :: Obj (PGlobal module name) :: st' =>
      (* cls.__new__(cls) *)
      Some (Obj (PInst module name []) :: st')
  | BUILD, Obj (PDict state) :: Obj (PInst module name attrs) :: st' =>
      (* inst.__dict__[k] = v for k, v in state.items() *)
      Some (Obj (PInst module name
                       (fold_left (fun d kv => dict_setitem (fst kv) (snd kv) d)
                                  state attrs)) :: st')
  | _, _ => None
  end.

(** [Unpickler.load]: run the opcodes up to [STOP]. *)
Fixpoint load (ops : list opcode) (st : list slot) : res pyobj :=
  match ops with
  | [] => Raise UnpicklingError
  | STOP :: _ =>
      match st with
      | Obj o :: _ => Ok o
      | _ => Raise UnpicklingError
      end
  | op :: ops' =>
      match load_op op st with
      | Some st' => load ops' st'
      | None => Raise UnpicklingError
      end
  end.

(** [pickle.loads(data)] *)
Definition loads (ops : list opcode) : res pyobj := load ops [].

(** *** The objects of the program, as the pickler sees them

    An instance is pickled as its class and its [__dict__]; the attributes
    are in the order [__init__] assigned them. *)

Definition __main__ : str := lit "__main__".

Definition Field_to_py (cls : string) (value : str) : pyobj :=
  PInst __main__ (lit cls) [(lit "value", PStr value)].

Definition Record_to_py (r : Record_) : pyobj :=
  PInst __main__ (lit "Record")
    [ (lit "name", Field_to_py "Name" (name_value (rec_name r)));
      (lit "phones",
       PList (map (fun p => Field_to_py "Phone" (phone_value p))
                  (rec_phones r)));
      (lit "birthday",
       match rec_birthday r with
       | Some b => Field_to_py "Birthday" (birthday_value b)
       | None => PNone
       end) ].

Definition AddressBook_to_py (book : AddressBook) : pyobj :=
  PInst __main__ (lit "AddressBook")
    [ (lit "data",
       PDict (map (fun kv => (fst kv, Record_to_py (snd kv))) (data book))) ].

(** The way back: the object that [pickle.load] returns, read as the typed
    value it is.  An object of another shape is not an AddressBook. *)

Definition is_class (cls : string) (module name : str) : bool :=
  str_eqb module __main__ && str_eqb name (lit cls).

Definition Field_of_py (cls : string) (o : pyobj) : option str :=
  match o with
  | PInst module name [(k, PStr value)] =>
      if is_class cls module name && str_eqb k (lit "value")
      then Some value else None
  | _ => None
  end.

Fixpoint all_some {A} (l : list (option A)) : option (list A) :=
  match l with
  | [] => Some []
  | Some a :: l' =>
      match all_some l' with Some t => Some (a :: t) | None => None end
  | None :: _ => None
  end.

Definition Record_of_py (o : pyobj) : option Record_ :=
  match o with
  | PInst module name [(k1, n); (k2, PList ps); (k3, b)] =>
      if is_class "Record" module name && str_eqb k1 (lit "name")
         && str_eqb k2 (lit "phones") && str_eqb k3 (lit "birthday")
      then
        match Field_of_py "Name" n,
              all_some (map (Field_of_py "Phone") ps),
              match b with
              | PNone => Some None
              | _ => option_map Some (Field_of_py "Birthday" b)
              end
        with
        | Some n', Some ps', Some b' =>
            Some (mkRecord (mkName n') (map mkPhone ps')
                           (option_map mkBirthday b'))
        | _, _, _ => None
        end
      else None
  | _ => None
  end.

Definition AddressBook_of_py (o : pyobj) : option AddressBook :=
  match o with
  | PInst module name [(k, PDict items)] =>
      if is_class "AddressBook" module name && str_eqb k (lit "data")
      then
        option_map
          (fun rs => mkAddressBook (combine (map fst items) rs))
          (all_some (map (fun kv => Record_of_py (snd kv)) items))
      else None
  | _ => None
  end.

(** ** Persistence

    The files of the working directory: a name is mapped to what was
    written under it. *)

Definition files := dict (list opcode).

Definition default_filename (filename : option str) : str :=
  match filename with
  | Some f => f
  | None => lit "addressbook.pkl"
  end.

(** [save_data(book, filename="addressbook.pkl")]: [open(filename, "wb")]
    creates or truncates the file. *)
Definition save_data (book : AddressBook) (filename : option str)
  : M files unit :=
  let filename := default_filename filename in
  fs <- get ;;
  put (dict_setitem filename (dumps (AddressBook_to_py book)) fs).

(** [load_data(filename="addressbook.pkl")]: a missing file is the
    [FileNotFoundError] that the function turns into an empty book. *)
Definition load_data (filename : option str) : M files AddressBook :=
  let filename := default_filename filename in
  fs <- get ;;
  match dict_get filename fs with
  | None => ret AddressBook_init
  | Some f =>
      o <- eval (loads f) ;;
      match AddressBook_of_py o with
      | Some book => ret book
      | None => raise UnpicklingError
      end
  end.

(** ** Text *)

(** [sep.join(l)] *)
Fixpoint join (sep : str) (l : list str) : str :=
  match l with
  | [] => []
  | [x] => x
  | x :: l' => x ++ sep ++ join sep l'
  end.

Definition newline : str := [10%N].

(** [Record.__str__] *)
Definition Record_str (self : Record_) : str :=
  let phones := join (lit "; ") (map phone_value (rec_phones self)) in
  let birthday := match rec_birthday self with
                  | Some b => birthday_value b
                  | None => lit "N/A"
                  end in
  lit "Contact name: " ++ name_value (rec_name self)
      ++ lit ", phones: " ++ phones ++ lit ", birthday: " ++ birthday.

(** [AddressBook.__str__] *)
Definition AddressBook_str (self : AddressBook) : str :=
  join newline (map Record_str (dict_values (data self))).

(** ** The other commands *)

Definition change_contact_func (args : list str) : M AddressBook str :=
  if (List.length args <? 3)%nat
  then ret (lit "Error: Provide name, old phone, and new phone.")
  else
    match args with
    | [name; old_phone; new_phone] =>
        record <- find name ;;
        match record with
        | Some _ =>
            on_record (strip name) (edit_phone old_phone new_phone) ;;;
            ret (lit "Phone for '" ++ name ++ lit "' updated.")
        | None => ret (lit "Contact '" ++ name ++ lit "' not found.")
        end
    | _ =>
        (* name, old_phone, new_phone = args *)
        raise (ValueError (lit "too many values to unpack (expected 3)"))
    end.

(** [change_contact], decorated with [input_error]. *)
Definition change_contact (args : list str) : M AddressBook reply :=
  input_error (change_contact_func args).

Definition show_phone_func (args : list str) : M AddressBook str :=
  if (List.length args <? 1)%nat
  then ret (lit "Error: Provide a contact name.")
  else
    let name := nth 0 args [] in
    record <- find name ;;
    match record with
    | Some r =>
        let phones := join (lit ", ") (map phone_value (rec_phones r)) in
        ret (name ++ lit ": " ++ phones)
    | None => ret (lit "Contact '" ++ name ++ lit "' not found.")
    end.

(** [show_phone], decorated with [input_error]. *)
Definition show_phone (args : list str) : M AddressBook reply :=
  input_error (show_phone_func args).

(** [show_all] *)
Definition show_all : M AddressBook str :=
  book <- get ;;
  match data book with
  | [] => ret (lit "No contacts found.")
  | _ :: _ => ret (join newline (map Record_str (dict_values (data book))))
  end.

(** The function [add_birthday] of the module (the command; the method of
    Record is [add_birthday] above). *)
Definition cmd_add_birthday_func (args : list str) : M AddressBook str :=
  if (List.length args <? 2)%nat
  then ret (lit "Error: Provide a name and birthday in DD.MM.YYYY format.")
  else
    let name := nth 0 args [] in
    let birthday := nth 1 args [] in
    record <- find name ;;
    match record with
    | Some _ =>
        on_record (strip name) (add_birthday birthday) ;;;
        ret (lit "Birthday for '" ++ name ++ lit "' added.")
    | None => ret (lit "Contact '" ++ name ++ lit "' not found.")
    end.

Definition cmd_add_birthday (args : list str) : M AddressBook reply :=
  input_error (cmd_add_birthday_func args).

(** One line of [show_birthdays] for a record; [None] stands for the
    AttributeError of [record.birthday.value] on a record without a
    birthday. *)
Definition birthday_line (record : Record_) : option str :=
  match rec_birthday record with
  | Some b => Some (name_value (rec_name record) ++ lit ": "
                               ++ birthday_value b)
  | None => None
  end.

(** [show_birthdays(book, days=7)], decorated with [input_error]: the
    AttributeError above is caught at once, and printed as its message. *)
Definition show_birthdays (days : option Z) (now : datetime)
  : M AddressBook reply :=
  fun book =>
    match upcoming_birthdays days now book with
    | Ok [] => (Ok (Text (lit "No upcoming birthdays.")), book)
    | Ok upcoming =>
        match all_some (map birthday_line upcoming) with
        | Some lines => (Ok (Text (join newline lines)), book)
        | None =>
            (Ok (Text (lit "Error: 'NoneType' object has no attribute 'value'")),
             book)
        end
    | Raise (ValueError msg) => (Ok (Text (lit "Error: " ++ msg)), book)
    | Raise e => (Ok (Error_str e), book)
    end.

(** ** Reading a line *)

(** [s.split(" ", 1)]: the text before the first space and, when there is
    a space, the text after it. *)
Fixpoint split_space_once (s : str) : str * option str :=
  match s with
  | [] => ([], None)
  | c :: s' =>
      if (c =? 32)%N then ([], Some s')
      else let (before, after) := split_space_once s' in (c :: before, after)
  end.

(** [s.split()]: the runs of characters that are not white space; [word]
    is the run being read, last character first. *)
Fixpoint split_words (s : str) (word : str) : list str :=
  match s with
  | [] => match word with [] => [] | _ :: _ => [rev word] end
  | c :: s' =>
      if Py_UNICODE_ISSPACE c
      then match word with
           | [] => split_words s' []
           | _ :: _ => rev word :: split_words s' []
           end
      else split_words s' (c :: word)
  end.

Definition split_whitespace (s : str) : list str := split_words s [].

Section Lower.
(** [str.lower], whose table of the Unicode case mappings is not in the
    program. *)
Variable lower : str -> str.

(** [parse_input] *)
Definition parse_input (user_input : str) : str * list str :=
  let parts := split_space_once (strip user_input) in
  let cmd := lower (fst parts) in
  let args := match snd parts with
              | Some rest => split_whitespace rest
              | None => []
              end in
  (cmd, args).

End Lower.

(** [str.lower] on ASCII letters. *)
Definition ascii_lower (c : N) : N :=
  if ((65 <=? c) && (c <=? 90))%N then (c + 32)%N else c.

(** ** The session

    [main] talks to the terminal and to the files.  The input is the lines
    the user types, each with what [datetime.now()] returns while its
    command runs; the output is what [input] and [print] write. *)

Inductive output :=
| Prompt (s : str)      (* the prompt that input(prompt) writes *)
| Printed (r : reply)   (* print(r): the text and a newline *).

(** How [main] ends. *)
Inductive outcome :=
| Returned
| EOFError              (* input() when there is no line left *)
| Uncaught (e : exn).

Record world := mkworld { w_fs : files; w_stdout : list output }.

Definition FILENAME : str := lit "addressbook.pkl".

Definition write (o : output) (w : world) : world :=
  mkworld (w_fs w) (w_stdout w ++ [o]).

Definition print (s : str) : world -> world := write (Printed (Text s)).

(** [x in l] for a list of strings. *)
Definition str_in (x : str) (l : list str) : bool := existsb (str_eqb x) l.

Section Main.
Variable lower : str -> str.

(** What a command of the loop does to the book, and what is printed. *)
Definition dispatch (command : str) (args : list str) (now : datetime)
  : M AddressBook reply :=
  if str_eqb command (lit "hello") then ret (Text (lit "How can I help you?"))
  else if str_eqb command (lit "add") then add_contact args
  else if str_eqb command (lit "change") then change_contact args
  else if str_eqb command (lit "phone") then show_phone args
  else if str_eqb command (lit "all")
       then (text <- show_all ;; ret (Text text))
  else if str_eqb command (lit "add-birthday") then cmd_add_birthday args
  else if str_eqb command (lit "birthdays") then show_birthdays None now
  else ret (Text (lit "Invalid command.")).

(** The [while True] loop of [main]: the outcome, the book as the loop
    leaves it, and the world. *)
Fixpoint main_loop (stdin : list (str * datetime)) (book : AddressBook)
         (w : world) : outcome * AddressBook * world :=
  match stdin with
  | [] => (EOFError, book, write (Prompt (lit "Enter a command: ")) w)
  | (user_input, now) :: rest =>
      let w := write (Prompt (lit "Enter a command: ")) w in
      let (command, args) := parse_input lower user_input in
      if str_in command [lit "close"; lit "exit"]
      then
        match save_data book (Some FILENAME) (w_fs w) with
        | (Ok _, fs') =>
            (Returned, book,
             print (lit "Data saved. Good bye!") (mkworld fs' (w_stdout w)))
        | (Raise e, fs') => (Uncaught e, book, mkworld fs' (w_stdout w))
        end
      else
        match dispatch command args now book with
        | (Ok r, book') => main_loop rest book' (write (Printed r) w)
        | (Raise e, book') => (Uncaught e, book', w)
        end
  end.

(** [main] *)
Definition main (stdin : list (str * datetime)) (w : world)
  : outcome * world :=
  match load_data (Some FILENAME) (w_fs w) with
  | (Raise e, fs) => (Uncaught e, mkworld fs (w_stdout w))
  | (Ok book, fs) =>
      let w := print (lit "Welcome to the assistant bot!")
                     (mkworld fs (w_stdout w)) in
      match main_loop stdin book w with
      | (Returned, book', w') =>
          match save_data book' None (w_fs w') with
          | (Ok _, fs') => (Returned, mkworld fs' (w_stdout w'))
          | (Raise e, fs') => (Uncaught e, mkworld fs' (w_stdout w'))
          end
      | (o, _, w') => (o, w')
      end
  end.

End Main.

(** ** Specification vocabulary *)

(** *** White space *)

(** A text made of white space only. *)
Definition blank (s : str) : Prop :=
  Forall (fun c => Py_UNICODE_ISSPACE c = true) s.

(** A word: a text that is not empty and has no white space in it. *)
Definition word (a : str) : Prop :=
  a <> [] /\ Forall (fun c => Py_UNICODE_ISSPACE c = false) a.

(** *** Sessions *)

(** The line is a [close] or an [exit] command. *)
Definition is_exit (lower : str -> str) (user_input : str) : bool :=
  str_in (fst (parse_input lower user_input)) [lit "close"; lit "exit"].

(** The book after the commands of the lines, none of them ending the
    session. *)
Fixpoint run_commands (lower : str -> str) (stdin : list (str * datetime))
         (book : AddressBook) : AddressBook :=
  match stdin with
  | [] => book
  | (user_input, now) :: rest =>
      let (command, args) := parse_input lower user_input in
      run_commands lower rest (snd (dispatch command args now book))
  end.

(** *** What a pattern matches

    [rmatch r w g g']: the pattern [r] matches exactly the text [w], and
    the groups go from [g] to [g']. *)
Inductive rmatch : re -> str -> groups -> groups -> Prop :=
| rm_eps g : rmatch Eps [] g g
| rm_chr c g : rmatch (Chr c) [c] g g
| rm_rng lo hi c g :
    (lo <= c)%N -> (c <= hi)%N -> rmatch (Rng lo hi) [c] g g
| rm_dig c g : Py_UNICODE_ISDECIMAL c = true -> rmatch Dig [c] g g
| rm_cat r1 r2 w1 w2 g g1 g2 :
    rmatch r1 w1 g g1 -> rmatch r2 w2 g1 g2 ->
    rmatch (Cat r1 r2) (w1 ++ w2) g g2
| rm_alt_l r1 r2 w g g' : rmatch r1 w g g' -> rmatch (Alt r1 r2) w g g'
| rm_alt_r r1 r2 w g g' : rmatch r2 w g g' -> rmatch (Alt r1 r2) w g g'
| rm_grp name r w g g' :
    rmatch r w g g' -> rmatch (Grp name r) w g ((name, w) :: g').

(** *** The dates [Birthday] accepts

    The value of an ASCII digit, and the three parts of a date as
    ['%d.%m.%Y'] reads them: the text and the number it stands for. *)
Definition digit (c : N) : Z := Z.of_N (c - ch "0").

Inductive day_text : str -> Z -> Prop :=
| day_30 b :
    (ch "0" <= b <= ch "1")%N -> day_text [ch "3"; b] (30 + digit b)
| day_10 a b v :
    (ch "1" <= a <= ch "2")%N -> Py_UNICODE_TODECIMAL b = Some v ->
    day_text [a; b] (10 * digit a + Z.of_N v)
| day_padded b :
    (ch "1" <= b <= ch "9")%N -> day_text [ch "0"; b] (digit b)
| day_single b :
    (ch "1" <= b <= ch "9")%N -> day_text [b] (digit b)
| day_spaced b :
    (ch "1" <= b <= ch "9")%N -> day_text [ch " "; b] (digit b).

Inductive month_text : str -> Z -> Prop :=
| month_10 b :
    (ch "0" <= b <= ch "2")%N -> month_text [ch "1"; b] (10 + digit b)
| month_padded b :
    (ch "1" <= b <= ch "9")%N -> month_text [ch "0"; b] (digit b)
| month_single b :
    (ch "1" <= b <= ch "9")%N -> month_text [b] (digit b).

Inductive year_text : str -> Z -> Prop :=
| year_4 a b c d va vb vc vd :
    Py_UNICODE_TODECIMAL a = Some va -> Py_UNICODE_TODECIMAL b = Some vb ->
    Py_UNICODE_TODECIMAL c = Some vc -> Py_UNICODE_TODECIMAL d = Some vd ->
    year_text [a; b; c; d]
              (Z.of_N va * 1000 + Z.of_N vb * 100 + Z.of_N vc * 10
               + Z.of_N vd).

(** A text of the right form: day, dot, month, dot, year. *)
Definition date_form (w ds ms ys : str) (d m y : Z) : Prop :=
  w = ds ++ [ch "."] ++ ms ++ [ch "."] ++ ys
  /\ day_text ds d /\ month_text ms m /\ year_text ys y.

(** A text that [Birthday] accepts: day, dot, month, dot, year, for a day
    that the month of that year has; the year 0000 does not exist. *)
Definition accepted_date (raw : str) : Prop :=
  exists ds ms ys d m y,
    date_form raw ds ms ys d m y /\ 1 <= y /\ d <= _days_in_month y m.

(** The strict reading of the format: two ASCII digits, a dot, two ASCII
    digits, a dot and four ASCII digits that denote a calendar date. *)
Definition strict_DD_MM_YYYY (raw : str) : Prop :=
  exists d1 d2 m1 m2 y1 y2 y3 y4,
    raw = [d1; d2; ch "."; m1; m2; ch "."; y1; y2; y3; y4]
    /\ Forall (fun c => is_ascii_digit c = true)
              [d1; d2; m1; m2; y1; y2; y3; y4]
    /\ let day := 10 * digit d1 + digit d2 in
       let month := 10 * digit m1 + digit m2 in
       let year := 1000 * digit y1 + 100 * digit y2 + 10 * digit y3
                   + digit y4 in
       1 <= year /\ 1 <= month <= 12
       /\ 1 <= day <= _days_in_month year month.

(** *** The shape of a phone number *)

(** Ten decimal digits, as [\d] understands a digit. *)
Definition ten_digits (s : str) : Prop :=
  List.length s = 10%nat /\ Forall (fun c => Py_UNICODE_ISDECIMAL c = true) s.

(** Ten ASCII digits. *)
Definition ten_ascii_digits (s : str) : Prop :=
  List.length s = 10%nat /\ Forall (fun c => is_ascii_digit c = true) s.

(** *** The birthday window *)

(** The record has a birthday and its day count lies in [0, days). *)
Definition in_window (today : datetime) (days : Z) (r : Record_) : bool :=
  match days_to_birthday today r with
  | Ok (Some n) => (0 <=? n) && (n <? days)
  | _ => false
  end.

(** The time of the day of [now], in microseconds. *)
Definition since_midnight (now : datetime) : Z :=
  time_of_day now * 1000000 + dt_microsecond now.

(** A value that [datetime.now()] can return. *)
Definition valid_datetime (dt : datetime) : Prop :=
  MINYEAR <= dt_year dt <= MAXYEAR
  /\ 1 <= dt_month dt <= 12
  /\ 1 <= dt_day dt <= _days_in_month (dt_year dt) (dt_month dt)
  /\ 0 <= dt_hour dt < 24 /\ 0 <= dt_minute dt < 60
  /\ 0 <= dt_second dt < 60 /\ 0 <= dt_microsecond dt < 1000000.

(** *** Books and records built through the public operations *)

(** The keys of a book are names as [Name] stores them: trimmed. *)
Definition keys_trimmed (book : AddressBook) : Prop :=
  Forall (fun key => strip key = key) (dict_keys (data book)).

(** The mutating methods of a Record. *)
Inductive method :=
| Add_phone (phone : str)
| Remove_phone (phone : str)
| Edit_phone (old_phone new_phone : str)
| Add_birthday (birthday : str).

Definition call (m : method) : M Record_ unit :=
  match m with
  | Add_phone phone => add_phone phone
  | Remove_phone phone => remove_phone phone
  | Edit_phone old_phone new_phone => edit_phone old_phone new_phone
  | Add_birthday birthday => add_birthday birthday
  end.

(** A Record as the constructor makes it, from a name, possibly a Phone
    that [Phone] built, and possibly a birthday; then any sequence of
    method calls, whether they return or raise. *)
Inductive reachable : Record_ -> Prop :=
| reach_new name birthday : reachable (Record_init name None birthday)
| reach_new_phone name value phone birthday :
    Phone_init value = Ok phone ->
    reachable (Record_init name (Some phone) birthday)
| reach_call self m :
    reachable self -> reachable (snd (call m self)).

(** Every phone of the record is one the validator accepts. *)
Definition phones_valid (self : Record_) : Prop :=
  Forall (fun p => Phone__validate (phone_value p) = true) (rec_phones self).

(** *** The book of a session *)

(** A record as the commands keep it under [key]: its name is the key, the
    key is trimmed and not empty, each phone is one that [Phone] accepts
    and the birthday, if any, one that [Birthday] accepts. *)
Definition record_ok (key : str) (r : Record_) : Prop :=
  name_value (rec_name r) = key
  /\ strip key = key /\ key <> []
  /\ phones_valid r
  /\ match rec_birthday r with
     | Some b => accepted_date (birthday_value b)
     | None => True
     end.

Definition records_ok (book : AddressBook) : Prop :=
  Forall (fun kr => record_ok (fst kr) (snd kr)) (data book).

(** [book'] has the names of [book], in their order, and then perhaps new
    ones. *)
Definition keeps_names (book book' : AddressBook) : Prop :=
  exists more, dict_keys (data book') = dict_keys (data book) ++ more.

(** What every command keeps of the book. *)
Definition evolves (book book' : AddressBook) : Prop :=
  (dict_wf (data book) -> dict_wf (data book'))
  /\ (records_ok book -> records_ok book')
  /\ keeps_names book book'.

(** *** Pickles *)

(** Running [code] leaves the objects [objs] on the stack, the first one
    deepest, and goes on with what follows. *)
Definition loads_to (code : list opcode) (objs : list pyobj) : Prop :=
  forall ops st,
    load (code ++ ops) st = load ops (rev (map Obj objs) ++ st).

(** The opcodes of one item of a dict, and what they leave on the stack. *)
Definition save_item (kv : str * pyobj) : list opcode :=
  BINUNICODE (fst kv) :: save (snd kv).

Definition item_objs (kv : str * pyobj) : list pyobj :=
  [PStr (fst kv); snd kv].

(** [d[k] = v] for every item, in order. *)
Definition update {V} (d items : dict V) : dict V :=
  fold_left (fun d kv => dict_setitem (fst kv) (snd kv) d) items d.

(** All the dicts inside an object hold a key once. *)
Fixpoint pyobj_wf (o : pyobj) : Prop :=
  match o with
  | PList items => fold_right (fun x acc => pyobj_wf x /\ acc) True items
  | PDict items | PInst _ _ items =>
      NoDup (map fst items)
      /\ fold_right (fun kv acc => pyobj_wf (snd kv) /\ acc) True items
  | _ => True
  end.

(** * Properties *)

Unset Implicit Arguments.

(** ** Strings and the monad *)

Lemma str_eqb_eq (a b : str) : str_eqb a b = true <-> a = b.
Proof.
  revert b; induction a as [|x a IH]; intros [|y b]; simpl;
    try (split; (discriminate || reflexivity)).
  rewrite andb_true_iff, N.eqb_eq, IH.
  split; [intros [-> ->]; reflexivity | intros E; inversion E; auto].
Qed.

Lemma str_eqb_refl (a : str) : str_eqb a a = true.
Proof. apply str_eqb_eq; reflexivity. Qed.

Lemma str_eqb_neq (a b : str) : str_eqb a b = false <-> a <> b.
Proof.
  rewrite <- str_eqb_eq. destruct (str_eqb a b); split; congruence.
Qed.

Lemma str_eqb_sym (a b : str) : str_eqb a b = str_eqb b a.
Proof.
  destruct (str_eqb a b) eqn:E; symmetry.
  - apply str_eqb_eq in E; subst; apply str_eqb_refl.
  - apply str_eqb_neq; apply str_eqb_neq in E; congruence.
Qed.

(** ** Phone *)

Section Digits.
Context {A : Type}.

Lemma exec_times_Dig (n : nat) :
  forall (s : str) (g : groups) (k : str -> groups -> option A),
    exec (times n Dig) s g k =
    if (n <=? List.length s)%nat
       && forallb Py_UNICODE_ISDECIMAL (firstn n s)
    then k (skipn n s) g else None.
Proof.
  induction n as [|n IH]; intros s g k; simpl.
  - reflexivity.
  - destruct s as [|c s]; simpl; [reflexivity|].
    destruct (Py_UNICODE_ISDECIMAL c); simpl.
    + rewrite IH; reflexivity.
    + destruct (n <=? List.length s)%nat; reflexivity.
Qed.

End Digits.

Lemma Phone__validate_true (s : str) :
  Phone__validate s = true <-> ten_digits s.
Proof.
  unfold Phone__validate, re_fullmatch, ten_digits.
  rewrite exec_times_Dig.
  destruct (10 <=? List.length s)%nat eqn:L; cbn [andb].
  - apply Nat.leb_le in L.
    destruct (forallb Py_UNICODE_ISDECIMAL (firstn 10 s)) eqn:F.
    + destruct (skipn 10 s) eqn:K.
      * assert (List.length (skipn 10 s) = 0%nat) as K0 by (rewrite K; auto).
        rewrite length_skipn in K0.
        assert (List.length s = 10%nat) as L10 by lia.
        rewrite firstn_all2 in F by lia.
        split; [intros _|reflexivity].
        split; [exact L10|]. apply Forall_forall.
        rewrite forallb_forall in F. exact F.
      * split; [discriminate|]. intros [L10 _].
        rewrite skipn_all2 in K by lia. discriminate.
    + split; [discriminate|]. intros [L10 F'].
      rewrite firstn_all2 in F by lia.
      rewrite Forall_forall in F'. rewrite <- forallb_forall in F'.
      congruence.
  - apply Nat.leb_gt in L. split; [discriminate|]. intros [L10 _]. lia.
Qed.

Lemma find_run_far (c : N) (runs : list (N * N)) :
  Forall (fun r => (c < fst r)%N) runs -> List.find (in_run c) runs = None.
Proof.
  induction 1 as [|r runs Hr _ IH]; simpl; [reflexivity|].
  unfold in_run at 1.
  replace (fst r <=? c)%N with false by (symmetry; apply N.leb_gt; exact Hr).
  exact IH.
Qed.

Lemma decimal_runs_beyond_ascii :
  Forall (fun r => (128 <= fst r)%N) (tl decimal_runs).
Proof.
  apply Forall_forall. intros r Hr. apply N.leb_le.
  revert r Hr. apply forallb_forall. vm_compute. reflexivity.
Qed.

Lemma ascii_decimal (c : N) :
  (c < 128)%N -> Py_UNICODE_ISDECIMAL c = is_ascii_digit c.
Proof.
  intros Hc. unfold Py_UNICODE_ISDECIMAL, Py_UNICODE_TODECIMAL.
  change (List.find (in_run c) decimal_runs)
    with (if in_run c (48, 10)%N then Some (48, 10)%N
          else List.find (in_run c) (tl decimal_runs)).
  unfold in_run at 1, is_ascii_digit. cbn [fst snd].
  replace (c <? 48 + 10)%N with (c <=? 57)%N
    by (destruct (N.leb_spec c 57), (N.ltb_spec c (48 + 10)); lia).
  destruct ((48 <=? c)%N && (c <=? 57)%N); [reflexivity|].
  rewrite find_run_far; [reflexivity|].
  eapply Forall_impl; [|apply decimal_runs_beyond_ascii].
  cbn beta. intros r Hr. lia.
Qed.

Lemma ten_digits_ascii (s : str) :
  is_ascii s -> (ten_digits s <-> ten_ascii_digits s).
Proof.
  unfold ten_digits, ten_ascii_digits, is_ascii. intros Ha.
  split; intros [L F]; (split; [exact L|]);
    rewrite Forall_forall in *; intros c Hc;
    specialize (Ha c Hc); specialize (F c Hc);
    rewrite ascii_decimal in * by assumption; assumption.
Qed.

(** ** Claim C4, as the code has it.

    [Phone(s)] succeeds exactly when [s] is ten characters that [\d]
    matches, that is ten Unicode decimal digits; the value stored is [s]
    itself, and any other string raises the ValueError of the class.  On
    ASCII strings the ten characters are the digits 0 to 9. *)
Theorem Phone_init_spec (s : str) :
  (ten_digits s -> Phone_init s = Ok (mkPhone s))
  /\ (~ ten_digits s ->
      Phone_init s =
      Raise (ValueError (lit "Phone number must be exactly 10 digits.")))
  /\ (is_ascii s -> (ten_digits s <-> ten_ascii_digits s)).
Proof.
  unfold Phone_init. split; [|split].
  - intros H. apply Phone__validate_true in H. rewrite H. reflexivity.
  - intros H. destruct (Phone__validate s) eqn:V; [|reflexivity].
    apply Phone__validate_true in V. contradiction.
  - apply ten_digits_ascii.
Qed.

Lemma Phone_init_spec_witness :
  Phone_init (lit "0671234567") = Ok (mkPhone (lit "0671234567"))
  /\ Phone_init (lit "+380671234567")
     = Raise (ValueError (lit "Phone number must be exactly 10 digits."))
  /\ (ten_digits (lit "0671234567") <-> ten_ascii_digits (lit "0671234567")).
Proof.
  pose proof (Phone_init_spec (lit "0671234567")) as (Hok & _ & Hascii).
  pose proof (Phone_init_spec (lit "+380671234567")) as (_ & Hbad & _).
  split; [|split].
  - apply Hok. split; [reflexivity|]. repeat constructor.
  - apply Hbad. intros [L _]. discriminate L.
  - apply Hascii. repeat constructor.
Defined.

(** The claim C4 as the specification words it fails on ten Arabic-Indic
    digits: [Phone] takes them, and they are not ASCII digits. *)
Lemma Phone_init_not_ascii_only :
  let s := repeat 0x660%N 10 in
  Phone_init s = Ok (mkPhone s) /\ ~ ten_ascii_digits s.
Proof.
  split; [reflexivity|].
  intros [_ F]. inversion F as [|c l Hc _]. discriminate Hc.
Qed.

(** ** Record: phones *)

Lemma Phone_init_ok (s : str) (p : Phone) :
  Phone_init s = Ok p -> p = mkPhone s /\ Phone__validate s = true.
Proof.
  unfold Phone_init. destruct (Phone__validate s); simpl; [|discriminate].
  intros E; inversion E; auto.
Qed.

Lemma Phone_init_valid (s : str) :
  Phone__validate s = true -> Phone_init s = Ok (mkPhone s).
Proof. unfold Phone_init. intros ->. reflexivity. Qed.

Lemma Phone_init_invalid (s : str) :
  Phone__validate s = false ->
  Phone_init s =
  Raise (ValueError (lit "Phone number must be exactly 10 digits.")).
Proof. unfold Phone_init. intros ->. reflexivity. Qed.

Lemma list_setitem_middle {A} (before : list A) (x v : A) (after : list A) :
  list_setitem (List.length before) v (before ++ x :: after)
  = Ok (before ++ v :: after).
Proof.
  induction before as [|b before IH]; simpl; [reflexivity|].
  rewrite IH. reflexivity.
Qed.

(** The loop of [edit_phone], started after the phones [before] that are
    not [old_phone]. *)
Lemma edit_phone_loop_found (old_phone new_phone : str) (self : Record_)
      (before : list Phone) (p : Phone) (after : list Phone) :
  rec_phones self = before ++ p :: after ->
  phone_value p = old_phone ->
  edit_phone_loop old_phone new_phone (List.length before) (p :: after) self
  = match Phone_init new_phone with
    | Ok q => (Ok tt, set_phones self (before ++ q :: after))
    | Raise e => (Raise e, self)
    end.
Proof.
  intros Hs Hp. simpl. rewrite Hp, str_eqb_refl.
  unfold bind, eval, get, put.
  destruct (Phone_init new_phone) as [q|e]; [|reflexivity].
  rewrite Hs, list_setitem_middle. reflexivity.
Qed.

Lemma edit_phone_loop_skip (old_phone new_phone : str) (self : Record_)
      (skipped : list Phone) :
  Forall (fun q => phone_value q <> old_phone) skipped ->
  forall (idx : nat) (rest : list Phone),
    edit_phone_loop old_phone new_phone idx (skipped ++ rest) self
    = edit_phone_loop old_phone new_phone (idx + List.length skipped)%nat
                      rest self.
Proof.
  induction 1 as [|q skipped Hq _ IH]; intros idx rest; simpl.
  - rewrite Nat.add_0_r. reflexivity.
  - apply str_eqb_neq in Hq. rewrite Hq, IH.
    f_equal. lia.
Qed.

(** The first phone equal to [old]: the list splits around it. *)
Lemma first_occurrence (old : str) (l : list Phone) :
  In old (map phone_value l) ->
  exists before p after,
    l = before ++ p :: after /\ phone_value p = old
    /\ Forall (fun q => phone_value q <> old) before.
Proof.
  induction l as [|x l IH]; simpl; [contradiction|].
  intros Hin. destruct (str_eqb (phone_value x) old) eqn:E.
  - apply str_eqb_eq in E. exists [], x, l. auto.
  - apply str_eqb_neq in E. destruct Hin as [Hx|Hin]; [contradiction|].
    destruct (IH Hin) as (before & p & after & -> & Hp & Hb).
    exists (x :: before), p, after. auto.
Qed.

Lemma not_in_Forall (old : str) (l : list Phone) :
  ~ In old (map phone_value l) ->
  Forall (fun q => phone_value q <> old) l.
Proof.
  intros H. apply Forall_forall. intros q Hq E. apply H.
  rewrite <- E. apply in_map. exact Hq.
Qed.

(** ** Claim C5.

    [edit_phone(old, new)] on a record whose phones contain [old] and for a
    valid [new] replaces the first phone equal to [old], in place: the
    phones before it (none of them equal to [old]) and all the phones after
    it stay as they are.  When no phone equals [old] it raises the
    "not found" ValueError; when [old] is there and [new] is not a valid
    phone it raises the validation ValueError; in both cases the record,
    and so its phone list, is unchanged. *)
Theorem edit_phone_spec (self : Record_) (old new : str) :
  (In old (map phone_value (rec_phones self)) ->
   Phone__validate new = true ->
   exists before p after,
     rec_phones self = before ++ p :: after
     /\ phone_value p = old
     /\ Forall (fun q => phone_value q <> old) before
     /\ edit_phone old new self
        = (Ok tt, set_phones self (before ++ mkPhone new :: after)))
  /\ (~ In old (map phone_value (rec_phones self)) ->
      edit_phone old new self
      = (Raise (ValueError (lit "Phone number " ++ old ++ lit " not found.")),
         self))
  /\ (In old (map phone_value (rec_phones self)) ->
      Phone__validate new = false ->
      edit_phone old new self
      = (Raise (ValueError (lit "Phone number must be exactly 10 digits.")),
         self)).
Proof.
  unfold edit_phone, bind, get. split; [|split].
  - intros Hin Hv.
    destruct (first_occurrence _ _ Hin) as (before & p & after & Hs & Hp & Hb).
    exists before, p, after. repeat split; auto.
    rewrite Hs at 1. rewrite edit_phone_loop_skip by exact Hb.
    cbn [Nat.add].
    rewrite (edit_phone_loop_found old new self before p after Hs Hp).
    rewrite Phone_init_valid by exact Hv. reflexivity.
  - intros Hn. apply not_in_Forall in Hn.
    rewrite <- (app_nil_r (rec_phones self)).
    rewrite edit_phone_loop_skip by exact Hn. reflexivity.
  - intros Hin Hv.
    destruct (first_occurrence _ _ Hin) as (before & p & after & Hs & Hp & Hb).
    rewrite Hs at 1. rewrite edit_phone_loop_skip by exact Hb.
    cbn [Nat.add].
    rewrite (edit_phone_loop_found old new self before p after Hs Hp).
    rewrite Phone_init_invalid by exact Hv. reflexivity.
Qed.

(** The example of the specification: editing the first of two phones, and
    editing a phone that is not there. *)
Lemma edit_phone_spec_witness :
  let self := mkRecord (mkName (lit "Bob"))
                       [mkPhone (lit "1111111111"); mkPhone (lit "2222222222")]
                       None in
  (exists before p after,
      rec_phones self = before ++ p :: after
      /\ phone_value p = lit "1111111111"
      /\ Forall (fun q => phone_value q <> lit "1111111111") before
      /\ edit_phone (lit "1111111111") (lit "3333333333") self
         = (Ok tt, set_phones self (before ++ mkPhone (lit "3333333333")
                                           :: after)))
  /\ edit_phone (lit "9999999999") (lit "anything") self
     = (Raise (ValueError (lit "Phone number " ++ lit "9999999999"
                               ++ lit " not found.")), self)
  /\ edit_phone (lit "2222222222") (lit "anything") self
     = (Raise (ValueError (lit "Phone number must be exactly 10 digits.")),
        self).
Proof.
  intros self.
  pose proof (edit_phone_spec self (lit "1111111111") (lit "3333333333"))
    as (H1 & _ & _).
  pose proof (edit_phone_spec self (lit "9999999999") (lit "anything"))
    as (_ & H2 & _).
  pose proof (edit_phone_spec self (lit "2222222222") (lit "anything"))
    as (_ & _ & H3).
  split; [|split].
  - apply H1; [left; reflexivity | reflexivity].
  - apply H2. simpl. intros [H|[H|[]]]; discriminate H.
  - apply H3; [right; left; reflexivity | reflexivity].
Defined.

(** ** The phones of a record stay valid *)

Lemma add_phone_valid (phone : str) (self : Record_) :
  phones_valid self -> phones_valid (snd (add_phone phone self)).
Proof.
  unfold add_phone, bind, eval, get, put, phones_valid. intros H.
  destruct (Phone_init phone) as [p|e] eqn:E; simpl; [|exact H].
  apply Phone_init_ok in E. destruct E as [-> V].
  apply Forall_app. split; [exact H|]. constructor; [exact V|constructor].
Qed.

Lemma remove_phone_valid (phone : str) (self : Record_) :
  phones_valid self -> phones_valid (snd (remove_phone phone self)).
Proof.
  unfold remove_phone, bind, get, put, phones_valid. simpl. intros H.
  rewrite Forall_forall in *. intros p Hp.
  apply filter_In in Hp. apply H, Hp.
Qed.

Lemma edit_phone_valid (old new : str) (self : Record_) :
  phones_valid self -> phones_valid (snd (edit_phone old new self)).
Proof.
  intros H. unfold edit_phone, bind, get.
  destruct (in_dec (list_eq_dec N.eq_dec) old
                   (map phone_value (rec_phones self))) as [Hin|Hout].
  - destruct (first_occurrence _ _ Hin) as (before & p & after & Hs & Hp & Hb).
    rewrite Hs at 1. rewrite edit_phone_loop_skip by exact Hb.
    cbn [Nat.add].
    rewrite (edit_phone_loop_found old new self before p after Hs Hp).
    destruct (Phone_init new) as [q|e] eqn:E; [|exact H].
    apply Phone_init_ok in E. destruct E as [-> V].
    unfold phones_valid in *. cbn [snd set_phones rec_phones].
    rewrite Hs in H. apply Forall_app in H. destruct H as [Hbefore Hafter].
    apply Forall_app. split; [exact Hbefore|].
    inversion Hafter; subst. constructor; assumption.
  - apply not_in_Forall in Hout.
    rewrite <- (app_nil_r (rec_phones self)) at 1.
    rewrite edit_phone_loop_skip by exact Hout. exact H.
Qed.

Lemma add_birthday_valid (birthday : str) (self : Record_) :
  phones_valid self -> phones_valid (snd (add_birthday birthday self)).
Proof.
  unfold add_birthday, bind, eval, get, put, phones_valid. intros H.
  destruct (Birthday_init birthday); simpl; exact H.
Qed.

(** ** Claim C10.

    Every phone of a Record built by the constructor and changed only
    through [add_phone], [remove_phone], [edit_phone] and [add_birthday],
    whether the calls return or raise, is a value that [Phone._validate]
    accepts: ten digit characters. *)
Theorem reachable_phones_valid (self : Record_) :
  reachable self -> phones_valid self.
Proof.
  induction 1 as [name birthday | name value phone birthday Hp | self m _ IH].
  - constructor.
  - apply Phone_init_ok in Hp. destruct Hp as [-> V].
    constructor; [exact V|constructor].
  - destruct m; simpl.
    + apply add_phone_valid, IH.
    + apply remove_phone_valid, IH.
    + apply edit_phone_valid, IH.
    + apply add_birthday_valid, IH.
Qed.

Lemma reachable_phones_valid_witness :
  phones_valid
    (snd (call (Edit_phone (lit "1111111111") (lit "2222222222"))
               (snd (call (Add_phone (lit "1111111111"))
                          (Record_init (mkName (lit "Bob")) None None))))).
Proof.
  apply reachable_phones_valid.
  apply reach_call, reach_call, reach_new.
Defined.

(** ** Dicts *)

Section Dict.
Context {V : Type}.
Implicit Types (d : dict V) (k key : str) (v : V).

Lemma dict_get_setitem_same key v d :
  dict_get key (dict_setitem key v d) = Some v.
Proof.
  induction d as [|[k w] d IH]; simpl.
  - rewrite str_eqb_refl. reflexivity.
  - destruct (str_eqb k key) eqn:E; simpl; rewrite E; auto.
Qed.

Lemma dict_get_setitem_other key k v d :
  k <> key -> dict_get k (dict_setitem key v d) = dict_get k d.
Proof.
  intros Hk. induction d as [|[k' w] d IH]; simpl.
  - replace (str_eqb key k) with false; [reflexivity|].
    symmetry. apply str_eqb_neq. congruence.
  - destruct (str_eqb k' key) eqn:E; simpl.
    + apply str_eqb_eq in E. subst k'.
      replace (str_eqb key k) with false; [reflexivity|].
      symmetry. apply str_eqb_neq. congruence.
    + rewrite IH. reflexivity.
Qed.

Lemma dict_setitem_present key v w d :
  dict_get key d = Some w ->
  dict_keys (dict_setitem key v d) = dict_keys d.
Proof.
  induction d as [|[k u] d IH]; simpl; [discriminate|].
  destruct (str_eqb k key) eqn:E; simpl; [reflexivity|].
  intros H. rewrite IH by exact H. reflexivity.
Qed.

Lemma dict_setitem_absent key v d :
  dict_get key d = None -> dict_setitem key v d = d ++ [(key, v)].
Proof.
  induction d as [|[k u] d IH]; simpl; [reflexivity|].
  destruct (str_eqb k key) eqn:E; [discriminate|].
  intros H. rewrite IH by exact H. reflexivity.
Qed.

Lemma dict_get_delitem_same key d :
  dict_get key (dict_delitem key d) = None.
Proof.
  unfold dict_delitem. induction d as [|[k u] d IH]; simpl; [reflexivity|].
  destruct (str_eqb k key) eqn:E; simpl; [exact IH|].
  rewrite E. exact IH.
Qed.

Lemma dict_get_delitem_other key k d :
  k <> key -> dict_get k (dict_delitem key d) = dict_get k d.
Proof.
  intros Hk. unfold dict_delitem.
  induction d as [|[k' u] d IH]; simpl; [reflexivity|].
  destruct (str_eqb k' key) eqn:E; simpl.
  - apply str_eqb_eq in E. subst k'.
    replace (str_eqb key k) with false; [exact IH|].
    symmetry. apply str_eqb_neq. congruence.
  - rewrite IH. reflexivity.
Qed.

Lemma dict_get_In key d :
  dict_contains key d = true -> In key (dict_keys d).
Proof.
  unfold dict_contains. induction d as [|[k u] d IH]; simpl; [discriminate|].
  destruct (str_eqb k key) eqn:E.
  - apply str_eqb_eq in E. auto.
  - intros H. right. apply IH, H.
Qed.

End Dict.

(** ** Claim C6.

    When the book already maps the name of [record] to some record,
    [add_record(record)] puts [record] itself in its place: the book has
    the same keys in the same order, every other key maps to what it did,
    and a lookup of the name gives [record], with its own phone list and
    nothing of the old one. *)
Theorem add_record_overwrites (book : AddressBook) (record old : Record_) :
  let key := name_value (rec_name record) in
  dict_get key (data book) = Some old ->
  exists book',
    add_record record book = (Ok tt, book')
    /\ dict_get key (data book') = Some record
    /\ dict_keys (data book') = dict_keys (data book)
    /\ (forall k, k <> key -> dict_get k (data book') = dict_get k (data book))
    /\ (forall name, strip name = key ->
                     find name book' = (Ok (Some record), book')).
Proof.
  intros key Hold. eexists. split; [reflexivity|]. simpl. fold key.
  repeat split.
  - apply dict_get_setitem_same.
  - eapply dict_setitem_present, Hold.
  - intros k Hk. apply dict_get_setitem_other, Hk.
  - intros name Hn. unfold find, bind, get, ret. simpl. rewrite Hn.
    fold key. rewrite dict_get_setitem_same. reflexivity.
Qed.

Lemma add_record_overwrites_witness :
  let old := mkRecord (mkName (lit "Bob")) [mkPhone (lit "1111111111")] None in
  let new := mkRecord (mkName (lit "Bob")) [mkPhone (lit "2222222222")] None in
  let book := mkAddressBook [(lit "Al", Record_init (mkName (lit "Al")) None None);
                             (lit "Bob", old)] in
  exists book',
    add_record new book = (Ok tt, book')
    /\ dict_get (lit "Bob") (data book') = Some new
    /\ dict_keys (data book') = dict_keys (data book)
    /\ (forall k, k <> lit "Bob" ->
                  dict_get k (data book') = dict_get k (data book))
    /\ (forall name, strip name = lit "Bob" ->
                     find name book' = (Ok (Some new), book')).
Proof.
  intros old new book.
  exact (add_record_overwrites book new old eq_refl).
Defined.

(** ** Claim C7.

    [delete(name)] looks [name] up as it is, without trimming.  When it is
    not a key, the call raises the KeyError and the book is unchanged.
    When it is a key, the entry is removed, the other entries stay, and, in
    a book whose keys are trimmed names, [find(name)] then finds nothing. *)
Theorem delete_spec (book : AddressBook) (name : str) :
  keys_trimmed book ->
  (dict_contains name (data book) = false ->
   delete name book
   = (Raise (KeyError (lit "Contact " ++ name ++ lit " not found.")), book))
  /\ (dict_contains name (data book) = true ->
      exists book',
        delete name book = (Ok tt, book')
        /\ dict_contains name (data book') = false
        /\ (forall k, k <> name ->
                      dict_get k (data book') = dict_get k (data book))
        /\ find name book' = (Ok None, book')).
Proof.
  intros Ht. unfold delete, bind, get, put, raise. split; intros H; rewrite H.
  - reflexivity.
  - eexists. split; [reflexivity|]. simpl. repeat split.
    + unfold dict_contains. rewrite dict_get_delitem_same. reflexivity.
    + intros k Hk. apply dict_get_delitem_other, Hk.
    + unfold find, bind, get, ret. simpl.
      apply dict_get_In in H. unfold keys_trimmed in Ht.
      rewrite Forall_forall in Ht. rewrite (Ht _ H).
      rewrite dict_get_delitem_same. reflexivity.
Qed.

Lemma delete_spec_witness :
  let book := mkAddressBook [(lit "Al", Record_init (mkName (lit "Al")) None None);
                             (lit "Bob", Record_init (mkName (lit "Bob")) None None)] in
  delete (lit " Bob") book
  = (Raise (KeyError (lit "Contact " ++ lit " Bob" ++ lit " not found.")), book)
  /\ exists book',
      delete (lit "Bob") book = (Ok tt, book')
      /\ dict_contains (lit "Bob") (data book') = false
      /\ (forall k, k <> lit "Bob" ->
                    dict_get k (data book') = dict_get k (data book))
      /\ find (lit "Bob") book' = (Ok None, book').
Proof.
  intros book.
  assert (keys_trimmed book) as Ht
      by (repeat constructor).
  split.
  - exact (proj1 (delete_spec book (lit " Bob") Ht) eq_refl).
  - exact (proj2 (delete_spec book (lit "Bob") Ht) eq_refl).
Defined.

(** ** The [add] command *)

Lemma dict_get_last {V} (key : str) (v : V) (d : dict V) :
  dict_get key d = None -> dict_get key (d ++ [(key, v)]) = Some v.
Proof.
  induction d as [|[k u] d IH]; simpl.
  - rewrite str_eqb_refl. reflexivity.
  - destruct (str_eqb k key); [discriminate|exact IH].
Qed.

Lemma dict_setitem_last {V} (key : str) (v w : V) (d : dict V) :
  dict_get key d = None ->
  dict_setitem key w (d ++ [(key, v)]) = d ++ [(key, w)].
Proof.
  induction d as [|[k u] d IH]; simpl.
  - rewrite str_eqb_refl. reflexivity.
  - destruct (str_eqb k key); [discriminate|].
    intros H. rewrite IH by exact H. reflexivity.
Qed.

Lemma Name_init_ok (name : str) :
  strip name <> [] -> Name_init name = Ok (mkName (strip name)).
Proof.
  unfold Name_init. destruct (strip name); [congruence|reflexivity].
Qed.

(** Run the command as far as the next lookup or validation. *)
Ltac run_command :=
  cbv beta iota zeta delta
      [add_contact input_error add_contact_func bind find get ret on_record
       add_phone eval put add_record Record_init
       List.length Nat.ltb Nat.leb nth];
  cbn [data rec_name name_value rec_phones].

(** What [add_contact] does once the record for [name] is in the book as
    its last entry. *)
Lemma add_contact_existing_last (d : dict Record_) (name phone : str)
      (rest : list str) (record : Record_) :
  dict_get (strip name) d = None ->
  add_contact (name :: phone :: rest)
              (mkAddressBook (d ++ [(strip name, record)]))
  = match Phone_init phone with
    | Ok p =>
        (Ok (Text (lit "Contact '" ++ name ++ lit "' added or updated.")),
         mkAddressBook
           (d ++ [(strip name,
                   set_phones record (rec_phones record ++ [p]))]))
    | Raise (ValueError msg) =>
        (Ok (Text (lit "Error: " ++ msg)),
         mkAddressBook (d ++ [(strip name, record)]))
    | Raise e =>
        (Ok (Error_str e), mkAddressBook (d ++ [(strip name, record)]))
    end.
Proof.
  intros Hd.
  run_command. rewrite (dict_get_last _ _ _ Hd). run_command.
  rewrite (dict_get_last _ _ _ Hd).
  destruct (Phone_init phone) as [p|e]; run_command.
  - rewrite dict_setitem_last by exact Hd. reflexivity.
  - rewrite dict_setitem_last by exact Hd. destruct e; reflexivity.
Qed.

(** ** Claim C9.

    When [find(name)] finds nothing, [name] is not blank and [phone] is not
    a valid phone, [add_contact] answers with the validation error and
    leaves in the book a new Record for the name, with no phone.  The
    Record is then found under the name; a later [add_contact] for the name
    works on it and adds no entry, and with a valid phone it leaves that
    Record with this one phone. *)
Theorem add_contact_invalid_phone_keeps_record
        (book : AddressBook) (name phone : str) (rest : list str) :
  fst (find name book) = Ok None ->
  strip name <> [] ->
  Phone__validate phone = false ->
  let fresh := Record_init (mkName (strip name)) None None in
  let book' := mkAddressBook (data book ++ [(strip name, fresh)]) in
  add_contact (name :: phone :: rest) book
  = (Ok (Text (lit "Error: Phone number must be exactly 10 digits.")), book')
  /\ find name book' = (Ok (Some fresh), book')
  /\ (forall phone2 rest2,
         dict_keys (data (snd (add_contact (name :: phone2 :: rest2) book')))
         = dict_keys (data book'))
  /\ (forall phone2 rest2,
         Phone__validate phone2 = true ->
         add_contact (name :: phone2 :: rest2) book'
         = (Ok (Text (lit "Contact '" ++ name ++ lit "' added or updated.")),
            mkAddressBook
              (data book
                 ++ [(strip name, set_phones fresh [mkPhone phone2])]))).
Proof.
  intros Hfind Hname Hphone fresh book'.
  assert (dict_get (strip name) (data book) = None) as Hd.
  { unfold find, bind, get, ret in Hfind. simpl in Hfind.
    inversion Hfind. reflexivity. }
  split; [|split; [|split]].
  - run_command. rewrite Hd. run_command.
    rewrite (Name_init_ok _ Hname). run_command.
    rewrite (dict_setitem_absent _ _ _ Hd).
    rewrite (dict_get_last _ _ _ Hd). run_command.
    rewrite (Phone_init_invalid _ Hphone). run_command.
    rewrite dict_setitem_last by exact Hd. reflexivity.
  - unfold find, bind, get, ret, book'. cbn [data].
    rewrite (dict_get_last _ _ _ Hd). reflexivity.
  - intros phone2 rest2. unfold book'.
    rewrite add_contact_existing_last by exact Hd.
    unfold dict_keys.
    destruct (Phone_init phone2) as [p|[]]; cbn [snd data];
      rewrite !map_app; reflexivity.
  - intros phone2 rest2 Hv. unfold book'.
    rewrite add_contact_existing_last by exact Hd.
    rewrite (Phone_init_valid _ Hv). reflexivity.
Qed.

Lemma add_contact_invalid_phone_keeps_record_witness :
  let book := mkAddressBook
                [(lit "Al", Record_init (mkName (lit "Al")) None None)] in
  let fresh := Record_init (mkName (lit "Bob")) None None in
  let book' := mkAddressBook (data book ++ [(lit "Bob", fresh)]) in
  add_contact [lit "Bob"; lit "12-34"] book
  = (Ok (Text (lit "Error: Phone number must be exactly 10 digits.")), book')
  /\ find (lit "Bob") book' = (Ok (Some fresh), book')
  /\ (forall phone2 rest2,
         dict_keys (data (snd (add_contact (lit "Bob" :: phone2 :: rest2)
                                           book')))
         = dict_keys (data book'))
  /\ (forall phone2 rest2,
         Phone__validate phone2 = true ->
         add_contact (lit "Bob" :: phone2 :: rest2) book'
         = (Ok (Text (lit "Contact '" ++ lit "Bob"
                          ++ lit "' added or updated.")),
            mkAddressBook
              (data book
                 ++ [(lit "Bob", set_phones fresh [mkPhone phone2])]))).
Proof.
  intros book fresh book'.
  refine (add_contact_invalid_phone_keeps_record
            book (lit "Bob") (lit "12-34") [] eq_refl _ eq_refl).
  discriminate.
Defined.

(** ** The matcher against what a pattern matches *)

Lemma consumed_app (w rest : str) : consumed (w ++ rest) rest = w.
Proof.
  unfold consumed. rewrite length_app.
  replace (List.length w + List.length rest - List.length rest)%nat
    with (List.length w) by lia.
  rewrite firstn_app, Nat.sub_diag, firstn_all. simpl.
  apply app_nil_r.
Qed.

Section Matcher.
Context {A : Type}.

Lemma step_if_some (p : N -> bool) (s : str) (k : str -> option A) (a : A) :
  step_if p s k = Some a ->
  exists c rest, s = c :: rest /\ p c = true /\ k rest = Some a.
Proof.
  destruct s as [|c rest]; simpl; [discriminate|].
  destruct (p c) eqn:E; [|discriminate]. eauto.
Qed.

(** Whatever the matcher finds is a match of the pattern. *)
Lemma exec_sound (r : re) :
  forall (s : str) (g : groups) (k : str -> groups -> option A) (a : A),
    exec r s g k = Some a ->
    exists w rest g',
      s = w ++ rest /\ rmatch r w g g' /\ k rest g' = Some a.
Proof.
  induction r as [|c|lo hi| |r1 IH1 r2 IH2|r1 IH1 r2 IH2|name r IH];
    intros s g k a H; simpl in H.
  - exists [], s, g. repeat split; [constructor|exact H].
  - apply step_if_some in H. destruct H as (c' & rest & -> & E & H).
    apply N.eqb_eq in E. subst c'.
    exists [c], rest, g. repeat split; [constructor|exact H].
  - apply step_if_some in H. destruct H as (c & rest & -> & E & H).
    apply andb_true_iff in E. destruct E as [E1 E2].
    apply N.leb_le in E1, E2.
    exists [c], rest, g. repeat split; [constructor; assumption|exact H].
  - apply step_if_some in H. destruct H as (c & rest & -> & E & H).
    exists [c], rest, g. repeat split; [constructor; assumption|exact H].
  - apply IH1 in H. destruct H as (w1 & rest1 & g1 & -> & M1 & H).
    apply IH2 in H. destruct H as (w2 & rest & g2 & -> & M2 & H).
    exists (w1 ++ w2), rest, g2. rewrite app_assoc.
    repeat split; [econstructor; eassumption|exact H].
  - destruct (exec r1 s g k) as [a'|] eqn:E.
    + inversion H; subst a'. apply IH1 in E.
      destruct E as (w & rest & g' & -> & M & E).
      exists w, rest, g'. repeat split; [apply rm_alt_l, M|exact E].
    + apply IH2 in H. destruct H as (w & rest & g' & -> & M & H).
      exists w, rest, g'. repeat split; [apply rm_alt_r, M|exact H].
  - apply IH in H. destruct H as (w & rest & g' & -> & M & H).
    rewrite consumed_app in H.
    exists w, rest, ((name, w) :: g'). repeat split; [constructor; exact M|exact H].
Qed.

(** A match of the pattern that the continuation accepts makes the matcher
    find something: that match or one it tried before. *)
Lemma exec_complete (r : re) (w : str) (g g' : groups) :
  rmatch r w g g' ->
  forall (rest : str) (k : str -> groups -> option A),
    k rest g' <> None -> exec r (w ++ rest) g k <> None.
Proof.
  induction 1 as [g|c g|lo hi c g Hlo Hhi|c g Hc
                  |r1 r2 w1 w2 g g1 g2 _ IH1 _ IH2
                  |r1 r2 w g g' _ IH|r1 r2 w g g' _ IH|name r w g g' _ IH];
    intros rest k Hk; simpl.
  - exact Hk.
  - rewrite N.eqb_refl. exact Hk.
  - apply N.leb_le in Hlo, Hhi. rewrite Hlo, Hhi. exact Hk.
  - rewrite Hc. exact Hk.
  - rewrite <- app_assoc. apply IH1. apply IH2. exact Hk.
  - specialize (IH rest k Hk).
    destruct (exec r1 (w ++ rest) g k); [discriminate|contradiction].
  - destruct (exec r1 (w ++ rest) g k); [discriminate|].
    apply IH, Hk.
  - apply IH. rewrite consumed_app. exact Hk.
Qed.

End Matcher.

(** ** Characters: digits, spaces and the dot *)

Ltac norm_ch :=
  change (ch "0") with 48%N in *; change (ch "1") with 49%N in *;
  change (ch "2") with 50%N in *; change (ch "3") with 51%N in *;
  change (ch "9") with 57%N in *; change (ch ".") with 46%N in *;
  change (ch " ") with 32%N in *.

Lemma todecimal_run (c v : N) :
  Py_UNICODE_TODECIMAL c = Some v ->
  exists r, In r decimal_runs /\ in_run c r = true
            /\ v = ((c - fst r) mod 10)%N.
Proof.
  unfold Py_UNICODE_TODECIMAL.
  destruct (List.find (in_run c) decimal_runs) as [r|] eqn:F; [|discriminate].
  intros E. inversion E. apply find_some in F. exists r. tauto.
Qed.

Lemma todecimal_lt_10 (c v : N) :
  Py_UNICODE_TODECIMAL c = Some v -> (v < 10)%N.
Proof.
  intros H. apply todecimal_run in H. destruct H as (r & _ & _ & ->).
  apply N.mod_lt. discriminate.
Qed.

Lemma ascii_digit_todecimal (c : N) :
  (48 <= c <= 57)%N -> Py_UNICODE_TODECIMAL c = Some (c - 48)%N.
Proof.
  intros Hc. unfold Py_UNICODE_TODECIMAL.
  change (List.find (in_run c) decimal_runs)
    with (if in_run c (48, 10)%N then Some (48, 10)%N
          else List.find (in_run c) (tl decimal_runs)).
  unfold in_run. cbn [fst snd].
  replace (48 <=? c)%N with true by (symmetry; apply N.leb_le; lia).
  replace (c <? 48 + 10)%N with true by (symmetry; apply N.ltb_lt; lia).
  cbn [andb fst]. f_equal. apply N.mod_small. lia.
Qed.

Lemma space_cases (c : N) :
  Py_UNICODE_ISSPACE c = true ->
  (9 <= c <= 13 \/ 28 <= c <= 32 \/ c = 0x85 \/ c = 0xA0 \/ c = 0x1680
   \/ 0x2000 <= c <= 0x200A \/ c = 0x2028 \/ c = 0x2029 \/ c = 0x202F
   \/ c = 0x205F \/ c = 0x3000)%N.
Proof.
  unfold Py_UNICODE_ISSPACE.
  rewrite !orb_true_iff, !andb_true_iff, !N.leb_le, !N.eqb_eq. tauto.
Qed.

(** No decimal digit is white space. *)
Lemma decimal_not_space (c v : N) :
  Py_UNICODE_TODECIMAL c = Some v -> Py_UNICODE_ISSPACE c = false.
Proof.
  intros H. apply todecimal_run in H. destruct H as (r & Hr & Hc & _).
  apply not_true_iff_false. intros Hs. apply space_cases in Hs.
  unfold in_run in Hc. apply andb_true_iff in Hc.
  rewrite N.leb_le, N.ltb_lt in Hc.
  assert (Forall (fun r => forall c,
                      (fst r <= c < fst r + snd r)%N ->
                      ~ (9 <= c <= 13 \/ 28 <= c <= 32 \/ c = 0x85
                         \/ c = 0xA0 \/ c = 0x1680 \/ 0x2000 <= c <= 0x200A
                         \/ c = 0x2028 \/ c = 0x2029 \/ c = 0x202F
                         \/ c = 0x205F \/ c = 0x3000)%N)
                 decimal_runs) as Hall.
  { unfold decimal_runs.
    repeat (constructor; [cbn [fst snd]; intros; lia|]). constructor. }
  rewrite Forall_forall in Hall. exact (Hall r Hr c Hc Hs).
Qed.

Lemma dot_not_decimal : Py_UNICODE_TODECIMAL 46 = None.
Proof. reflexivity. Qed.

Lemma ascii_digit_not_space (c : N) :
  (48 <= c <= 57)%N -> Py_UNICODE_ISSPACE c = false.
Proof.
  intros H. eapply decimal_not_space, ascii_digit_todecimal, H.
Qed.

(** ** The three parts of a date: what [int] makes of them *)

Lemma strip_id (s : str) (a : N) (t : str) (z : N) (u : str) :
  s = a :: t -> rev s = z :: u ->
  Py_UNICODE_ISSPACE a = false -> Py_UNICODE_ISSPACE z = false ->
  strip s = s.
Proof.
  intros Hs Hr Ha Hz. unfold strip, rstrip.
  assert (lstrip s = s) as -> by (rewrite Hs; simpl; rewrite Ha; reflexivity).
  assert (lstrip (rev s) = rev s) as ->
      by (rewrite Hr; simpl; rewrite Hz; reflexivity).
  apply rev_involutive.
Qed.

Lemma py_int_digits (s : str) (n : Z) (a : N) (t : str) (z : N) (u : str) :
  s = a :: t -> rev s = z :: u ->
  Py_UNICODE_ISSPACE a = false -> Py_UNICODE_ISSPACE z = false ->
  int_of_digits s = Some n ->
  py_int s = Ok n.
Proof.
  intros Hs Hr Ha Hz Hn. unfold py_int.
  rewrite (strip_id s a t z u Hs Hr Ha Hz).
  rewrite Hs in *. rewrite Hn. reflexivity.
Qed.

Lemma int_of_digits_1 (a va : N) :
  Py_UNICODE_TODECIMAL a = Some va -> int_of_digits [a] = Some (Z.of_N va).
Proof. intros Ha. unfold int_of_digits. simpl. rewrite Ha. reflexivity. Qed.

Lemma int_of_digits_2 (a b va vb : N) :
  Py_UNICODE_TODECIMAL a = Some va -> Py_UNICODE_TODECIMAL b = Some vb ->
  int_of_digits [a; b] = Some (Z.of_N va * 10 + Z.of_N vb).
Proof.
  intros Ha Hb. unfold int_of_digits. simpl. rewrite Ha, Hb. reflexivity.
Qed.

Lemma int_of_digits_4 (a b c d va vb vc vd : N) :
  Py_UNICODE_TODECIMAL a = Some va -> Py_UNICODE_TODECIMAL b = Some vb ->
  Py_UNICODE_TODECIMAL c = Some vc -> Py_UNICODE_TODECIMAL d = Some vd ->
  int_of_digits [a; b; c; d]
  = Some (((Z.of_N va * 10 + Z.of_N vb) * 10 + Z.of_N vc) * 10 + Z.of_N vd).
Proof.
  intros Ha Hb Hc Hd. unfold int_of_digits. simpl.
  rewrite Ha, Hb, Hc, Hd. reflexivity.
Qed.

(** One or two digit characters, read by [int]. *)
Lemma py_int_1 (a va : N) :
  Py_UNICODE_TODECIMAL a = Some va -> py_int [a] = Ok (Z.of_N va).
Proof.
  intros Ha. pose proof (decimal_not_space _ _ Ha) as Sa.
  eapply py_int_digits; try reflexivity; try assumption.
  apply int_of_digits_1, Ha.
Qed.

Lemma py_int_2 (a b va vb : N) :
  Py_UNICODE_TODECIMAL a = Some va -> Py_UNICODE_TODECIMAL b = Some vb ->
  py_int [a; b] = Ok (Z.of_N va * 10 + Z.of_N vb).
Proof.
  intros Ha Hb. pose proof (decimal_not_space _ _ Ha) as Sa.
  pose proof (decimal_not_space _ _ Hb) as Sb.
  eapply py_int_digits; try reflexivity; try assumption.
  apply int_of_digits_2; assumption.
Qed.

Lemma py_int_4 (a b c d va vb vc vd : N) :
  Py_UNICODE_TODECIMAL a = Some va -> Py_UNICODE_TODECIMAL b = Some vb ->
  Py_UNICODE_TODECIMAL c = Some vc -> Py_UNICODE_TODECIMAL d = Some vd ->
  py_int [a; b; c; d]
  = Ok (((Z.of_N va * 10 + Z.of_N vb) * 10 + Z.of_N vc) * 10 + Z.of_N vd).
Proof.
  intros Ha Hb Hc Hd. pose proof (decimal_not_space _ _ Ha) as Sa.
  pose proof (decimal_not_space _ _ Hd) as Sd.
  eapply py_int_digits; try reflexivity; try assumption.
  apply int_of_digits_4; assumption.
Qed.

(** A space and a digit: [int] strips the space. *)
Lemma py_int_spaced (b vb : N) :
  Py_UNICODE_TODECIMAL b = Some vb -> py_int [32%N; b] = Ok (Z.of_N vb).
Proof.
  intros Hb. pose proof (decimal_not_space _ _ Hb) as Sb.
  unfold py_int, strip, rstrip.
  change (lstrip [32%N; b]) with (lstrip [b]).
  assert (lstrip [b] = [b]) as -> by (simpl; rewrite Sb; reflexivity).
  change (rev [b]) with [b].
  assert (lstrip [b] = [b]) as -> by (simpl; rewrite Sb; reflexivity).
  change (rev [b]) with [b]. cbv beta iota.
  rewrite (int_of_digits_1 _ _ Hb). reflexivity.
Qed.

Lemma not_dot_decimal (c v : N) :
  Py_UNICODE_TODECIMAL c = Some v -> c <> 46%N.
Proof. intros H ->. rewrite dot_not_decimal in H. discriminate. Qed.

Lemma day_text_int (ds : str) (d : Z) :
  day_text ds d -> py_int ds = Ok d /\ 1 <= d <= 31 /\ ~ In 46%N ds.
Proof.
  destruct 1 as [b Hb|a b v Ha Hb|b Hb|b Hb|b Hb]; unfold digit; norm_ch.
  - assert (Py_UNICODE_TODECIMAL b = Some (b - 48)%N) as Tb
        by (apply ascii_digit_todecimal; lia).
    split; [|split; [lia|]].
    + rewrite (py_int_2 51 b 3 (b - 48) eq_refl Tb). f_equal.
    + simpl. intros [H|[H|[]]]; [discriminate|lia].
  - assert (Py_UNICODE_TODECIMAL a = Some (a - 48)%N) as Ta
        by (apply ascii_digit_todecimal; lia).
    pose proof (todecimal_lt_10 _ _ Hb). pose proof (not_dot_decimal _ _ Hb).
    split; [|split; [lia|]].
    + rewrite (py_int_2 a b _ _ Ta Hb). f_equal. lia.
    + simpl. intros [H'|[H'|[]]]; [lia|congruence].
  - assert (Py_UNICODE_TODECIMAL b = Some (b - 48)%N) as Tb
        by (apply ascii_digit_todecimal; lia).
    split; [|split; [lia|]].
    + rewrite (py_int_2 48 b 0 (b - 48) eq_refl Tb). f_equal.
    + simpl. intros [H|[H|[]]]; [discriminate|lia].
  - assert (Py_UNICODE_TODECIMAL b = Some (b - 48)%N) as Tb
        by (apply ascii_digit_todecimal; lia).
    split; [|split; [lia|]].
    + rewrite (py_int_1 b _ Tb). reflexivity.
    + simpl. intros [H|[]]. lia.
  - assert (Py_UNICODE_TODECIMAL b = Some (b - 48)%N) as Tb
        by (apply ascii_digit_todecimal; lia).
    split; [|split; [lia|]].
    + rewrite (py_int_spaced b _ Tb). reflexivity.
    + simpl. intros [H|[H|[]]]; [discriminate|lia].
Qed.

Lemma month_text_int (ms : str) (m : Z) :
  month_text ms m -> py_int ms = Ok m /\ 1 <= m <= 12 /\ ~ In 46%N ms.
Proof.
  destruct 1 as [b Hb|b Hb|b Hb]; unfold digit; norm_ch;
    assert (Py_UNICODE_TODECIMAL b = Some (b - 48)%N) as Tb
      by (apply ascii_digit_todecimal; lia);
    (split; [|split; [lia|]]).
  - rewrite (py_int_2 49 b 1 (b - 48) eq_refl Tb). f_equal.
  - simpl. intros [H|[H|[]]]; [discriminate|lia].
  - rewrite (py_int_2 48 b 0 (b - 48) eq_refl Tb). f_equal.
  - simpl. intros [H|[H|[]]]; [discriminate|lia].
  - rewrite (py_int_1 b _ Tb). reflexivity.
  - simpl. intros [H|[]]. lia.
Qed.

Lemma year_text_int (ys : str) (y : Z) :
  year_text ys y ->
  py_int ys = Ok y /\ 0 <= y <= 9999 /\ List.length ys = 4%nat.
Proof.
  destruct 1 as [a b c d va vb vc vd Ha Hb Hc Hd].
  pose proof (todecimal_lt_10 _ _ Ha). pose proof (todecimal_lt_10 _ _ Hb).
  pose proof (todecimal_lt_10 _ _ Hc). pose proof (todecimal_lt_10 _ _ Hd).
  split; [|split; [lia|reflexivity]].
  rewrite (py_int_4 a b c d _ _ _ _ Ha Hb Hc Hd). f_equal. lia.
Qed.

(** ** The pattern of ['%d.%m.%Y'] and the three parts *)

Ltac inv_rmatch :=
  repeat match goal with
         | H : rmatch (Cat _ _) _ _ _ |- _ => inversion H; subst; clear H
         | H : rmatch (Alt _ _) _ _ _ |- _ => inversion H; subst; clear H
         | H : rmatch (Grp _ _) _ _ _ |- _ => inversion H; subst; clear H
         | H : rmatch (Chr _) _ _ _ |- _ => inversion H; subst; clear H
         | H : rmatch (Rng _ _) _ _ _ |- _ => inversion H; subst; clear H
         | H : rmatch Dig _ _ _ |- _ => inversion H; subst; clear H
         | H : rmatch Eps _ _ _ |- _ => inversion H; subst; clear H
         end.

Lemma isdecimal_todecimal (c : N) :
  Py_UNICODE_ISDECIMAL c = true -> exists v, Py_UNICODE_TODECIMAL c = Some v.
Proof.
  unfold Py_UNICODE_ISDECIMAL.
  destruct (Py_UNICODE_TODECIMAL c) as [v|]; [eauto|discriminate].
Qed.

Lemma todecimal_isdecimal (c v : N) :
  Py_UNICODE_TODECIMAL c = Some v -> Py_UNICODE_ISDECIMAL c = true.
Proof. unfold Py_UNICODE_ISDECIMAL. intros ->. reflexivity. Qed.

Lemma rmatch_re_d (w : str) (g g' : groups) :
  rmatch re_d w g g' ->
  (exists d, day_text w d) /\ g' = ("d"%string, w) :: g.
Proof.
  unfold re_d. intros H. inv_rmatch; (split; [|reflexivity]); simpl.
  - eexists. apply day_30. split; assumption.
  - match goal with H : Py_UNICODE_ISDECIMAL _ = true |- _ =>
      apply isdecimal_todecimal in H; destruct H as [v Hv] end.
    eexists. eapply day_10; [split; eassumption|exact Hv].
  - eexists. apply day_padded. split; assumption.
  - eexists. apply day_single. split; assumption.
  - eexists. apply day_spaced. split; assumption.
Qed.

Lemma day_text_rmatch (ds : str) (d : Z) (g : groups) :
  day_text ds d -> rmatch re_d ds g (("d"%string, ds) :: g).
Proof.
  unfold re_d.
  destruct 1 as [b [Hb1 Hb2]|a b v [Ha1 Ha2] Hb|b [Hb1 Hb2]|b [Hb1 Hb2]
                 |b [Hb1 Hb2]];
    constructor.
  - apply rm_alt_l.
    eapply (@rm_cat _ _ [ch "3"] [b]); constructor; assumption.
  - apply rm_alt_r, rm_alt_l.
    eapply (@rm_cat _ _ [a] [b]); constructor;
      [assumption|assumption|eapply todecimal_isdecimal, Hb].
  - apply rm_alt_r, rm_alt_r, rm_alt_l.
    eapply (@rm_cat _ _ [ch "0"] [b]); constructor; assumption.
  - apply rm_alt_r, rm_alt_r, rm_alt_r, rm_alt_l. constructor; assumption.
  - apply rm_alt_r, rm_alt_r, rm_alt_r, rm_alt_r.
    eapply (@rm_cat _ _ [ch " "] [b]); constructor; assumption.
Qed.

Lemma rmatch_re_m (w : str) (g g' : groups) :
  rmatch re_m w g g' ->
  (exists m, month_text w m) /\ g' = ("m"%string, w) :: g.
Proof.
  unfold re_m. intros H. inv_rmatch; (split; [|reflexivity]); simpl.
  - eexists. apply month_10. split; assumption.
  - eexists. apply month_padded. split; assumption.
  - eexists. apply month_single. split; assumption.
Qed.

Lemma month_text_rmatch (ms : str) (m : Z) (g : groups) :
  month_text ms m -> rmatch re_m ms g (("m"%string, ms) :: g).
Proof.
  unfold re_m.
  destruct 1 as [b [Hb1 Hb2]|b [Hb1 Hb2]|b [Hb1 Hb2]]; constructor.
  - apply rm_alt_l.
    eapply (@rm_cat _ _ [ch "1"] [b]); constructor; assumption.
  - apply rm_alt_r, rm_alt_l.
    eapply (@rm_cat _ _ [ch "0"] [b]); constructor; assumption.
  - apply rm_alt_r, rm_alt_r. constructor; assumption.
Qed.

Lemma rmatch_re_Y (w : str) (g g' : groups) :
  rmatch re_Y w g g' ->
  (exists y, year_text w y) /\ g' = ("Y"%string, w) :: g.
Proof.
  unfold re_Y. intros H. inv_rmatch; (split; [|reflexivity]); simpl.
  repeat match goal with H : Py_UNICODE_ISDECIMAL _ = true |- _ =>
           apply isdecimal_todecimal in H; destruct H as [? ?] end.
  eexists. eapply year_4; eassumption.
Qed.

Lemma year_text_rmatch (ys : str) (y : Z) (g : groups) :
  year_text ys y -> rmatch re_Y ys g (("Y"%string, ys) :: g).
Proof.
  unfold re_Y. destruct 1 as [a b c d va vb vc vd Ha Hb Hc Hd].
  constructor.
  eapply (@rm_cat _ _ [a] [b; c; d]);
    [constructor; eapply todecimal_isdecimal, Ha|].
  eapply (@rm_cat _ _ [b] [c; d]);
    [constructor; eapply todecimal_isdecimal, Hb|].
  eapply (@rm_cat _ _ [c] [d]);
    constructor; eapply todecimal_isdecimal; eassumption.
Qed.

Lemma rmatch_format_regex (w : str) (g : groups) :
  rmatch format_regex w [] g ->
  exists ds ms ys d m y,
    date_form w ds ms ys d m y
    /\ g = [("Y"%string, ys); ("m"%string, ms); ("d"%string, ds)].
Proof.
  unfold format_regex. intros H.
  inversion H as [| | | |? ? wd w1 ? g1 ? Hd H1| | |]; subst; clear H.
  inversion H1 as [| | | |? ? wdot1 w2 ? g2 ? Hdot1 H2| | |]; subst; clear H1.
  inversion H2 as [| | | |? ? wm w3 ? g3 ? Hm H3| | |]; subst; clear H2.
  inversion H3 as [| | | |? ? wdot2 wy ? g4 ? Hdot2 HY| | |]; subst; clear H3.
  inversion Hdot1; subst; clear Hdot1. inversion Hdot2; subst; clear Hdot2.
  apply rmatch_re_d in Hd. destruct Hd as [[d Hd] ->].
  apply rmatch_re_m in Hm. destruct Hm as [[m Hm] ->].
  apply rmatch_re_Y in HY. destruct HY as [[y Hy] ->].
  exists wd, wm, wy, d, m, y. repeat split; assumption.
Qed.

Lemma date_form_rmatch (w ds ms ys : str) (d m y : Z) :
  date_form w ds ms ys d m y ->
  rmatch format_regex w []
         [("Y"%string, ys); ("m"%string, ms); ("d"%string, ds)].
Proof.
  intros (-> & Hd & Hm & Hy). unfold format_regex.
  apply rm_cat with (g1 := [("d"%string, ds)]);
    [apply day_text_rmatch with (d := d), Hd|].
  apply rm_cat with (g1 := [("d"%string, ds)]); [constructor|].
  apply rm_cat with (g1 := [("m"%string, ms); ("d"%string, ds)]);
    [apply month_text_rmatch with (m := m), Hm|].
  apply rm_cat with (g1 := [("m"%string, ms); ("d"%string, ds)]);
    [constructor|].
  apply year_text_rmatch with (y := y), Hy.
Qed.

(** Two texts without a dot, each followed by a dot: the same start means
    the same text. *)
Lemma split_at_dot (a a' x x' : str) :
  ~ In 46%N a -> ~ In 46%N a' ->
  a ++ 46%N :: x = a' ++ 46%N :: x' -> a = a' /\ x = x'.
Proof.
  revert a'. induction a as [|c a IH]; intros [|c' a'] Ha Ha' E; simpl in *.
  - inversion E. auto.
  - inversion E. subst c'. tauto.
  - inversion E. subst c. tauto.
  - inversion E. subst c'.
    destruct (IH a') as [-> ->]; auto.
Qed.

(** A text of the right form has no proper start of the right form. *)
Lemma date_form_unique (w ds ms ys : str) (d m y : Z)
      (w' rest ds' ms' ys' : str) (d' m' y' : Z) :
  date_form w ds ms ys d m y ->
  date_form w' ds' ms' ys' d' m' y' ->
  w = w' ++ rest ->
  rest = [] /\ ds' = ds /\ ms' = ms /\ ys' = ys.
Proof.
  intros (-> & Hd & Hm & Hy) (-> & Hd' & Hm' & Hy') E. norm_ch.
  apply day_text_int in Hd, Hd'. apply month_text_int in Hm, Hm'.
  apply year_text_int in Hy, Hy'.
  repeat rewrite <- app_assoc in E. simpl in E.
  apply split_at_dot in E; [|tauto|tauto]. destruct E as [-> E].
  apply split_at_dot in E; [|tauto|tauto]. destruct E as [-> E].
  assert (List.length ys = List.length (ys' ++ rest)) as L by (rewrite E; auto).
  rewrite length_app in L.
  destruct rest as [|c rest]; [|simpl in L; lia].
  rewrite app_nil_r in E. auto.
Qed.

(** ** [strptime] on texts of the right form and on the others *)

Lemma re_match_format_sound (raw rest : str) (g : groups) :
  re_match format_regex raw = Some (rest, g) ->
  exists w ds ms ys d m y,
    raw = w ++ rest /\ date_form w ds ms ys d m y
    /\ g = [("Y"%string, ys); ("m"%string, ms); ("d"%string, ds)].
Proof.
  unfold re_match. intros H. apply exec_sound in H.
  destruct H as (w & rest' & g' & -> & M & E). inversion E; subst.
  apply rmatch_format_regex in M.
  destruct M as (ds & ms & ys & d & m & y & F & ->).
  exists w, ds, ms, ys, d, m, y. auto.
Qed.

Lemma re_match_format_complete (raw ds ms ys : str) (d m y : Z) :
  date_form raw ds ms ys d m y ->
  re_match format_regex raw
  = Some ([], [("Y"%string, ys); ("m"%string, ms); ("d"%string, ds)]).
Proof.
  intros F. pose proof (date_form_rmatch _ _ _ _ _ _ _ F) as M.
  destruct (re_match format_regex raw) as [[rest g]|] eqn:E.
  - apply re_match_format_sound in E.
    destruct E as (w' & ds' & ms' & ys' & d' & m' & y' & Hw & F' & ->).
    destruct (date_form_unique _ _ _ _ _ _ _ _ _ _ _ _ _ _ _ F F' Hw)
      as (-> & -> & -> & ->).
    reflexivity.
  - exfalso. unfold re_match in E.
    refine (exec_complete _ _ _ _ M [] (fun rest g => Some (rest, g)) _ _).
    + discriminate.
    + rewrite app_nil_r. exact E.
Qed.

Lemma strptime_form (raw ds ms ys : str) (d m y : Z) :
  date_form raw ds ms ys d m y -> strptime raw = date_checked y m d.
Proof.
  intros F. unfold strptime. rewrite (re_match_format_complete _ _ _ _ _ _ _ F).
  destruct F as (_ & Hd & Hm & Hy).
  apply day_text_int in Hd. apply month_text_int in Hm.
  apply year_text_int in Hy.
  destruct Hd as [Hd _], Hm as [Hm _], Hy as [Hy _].
  change (found_dict "d" [("Y"%string, ys); ("m"%string, ms);
                          ("d"%string, ds)]) with (Ok ds).
  change (found_dict "m" [("Y"%string, ys); ("m"%string, ms);
                          ("d"%string, ds)]) with (Ok ms).
  change (found_dict "Y" [("Y"%string, ys); ("m"%string, ms);
                          ("d"%string, ds)]) with (Ok ys).
  cbn [str_bool rbind]. rewrite Hd. cbn [rbind]. rewrite Hm. cbn [rbind].
  rewrite Hy. reflexivity.
Qed.

Lemma days_in_month_bounds (y m : Z) :
  1 <= m <= 12 -> 28 <= _days_in_month y m <= 31.
Proof.
  intros Hm. unfold _days_in_month.
  assert (m = 1 \/ m = 2 \/ m = 3 \/ m = 4 \/ m = 5 \/ m = 6 \/ m = 7
          \/ m = 8 \/ m = 9 \/ m = 10 \/ m = 11 \/ m = 12) as C by lia.
  destruct (_is_leap y);
    repeat (destruct C as [->|C]; [simpl; lia|]); subst; simpl; lia.
Qed.

Lemma date_checked_cases (y m d : Z) :
  0 <= y <= 9999 -> 1 <= m <= 12 -> 1 <= d ->
  (1 <= y /\ d <= _days_in_month y m ->
   date_checked y m d = Ok (mkdatetime y m d 0 0 0 0))
  /\ (~ (1 <= y /\ d <= _days_in_month y m) ->
      exists msg, date_checked y m d = Raise (ValueError msg)).
Proof.
  intros Hy Hm Hd. unfold date_checked, check_date_args, MINYEAR, MAXYEAR.
  destruct (1 <=? y) eqn:Y1; [apply Z.leb_le in Y1|apply Z.leb_gt in Y1].
  - replace (y <=? 9999) with true by (symmetry; apply Z.leb_le; lia).
    replace (1 <=? m) with true by (symmetry; apply Z.leb_le; lia).
    replace (m <=? 12) with true by (symmetry; apply Z.leb_le; lia).
    replace (1 <=? d) with true by (symmetry; apply Z.leb_le; lia).
    cbn [andb negb].
    destruct (d <=? _days_in_month y m) eqn:D;
      [apply Z.leb_le in D|apply Z.leb_gt in D]; cbn [negb rbind].
    + split; [reflexivity|]. intros H. exfalso. apply H. auto.
    + split; [intros [_ H]; lia|]. intros _. eexists. reflexivity.
  - cbn [andb negb rbind]. split; [intros [H _]; lia|].
    intros _. eexists. reflexivity.
Qed.

(** [strptime] succeeds exactly on the accepted dates. *)
Lemma strptime_accepted (raw : str) :
  accepted_date raw -> exists dt, strptime raw = Ok dt.
Proof.
  intros (ds & ms & ys & d & m & y & F & Hy & Hd).
  rewrite (strptime_form _ _ _ _ _ _ _ F).
  destruct F as (_ & Fd & Fm & Fy).
  apply day_text_int in Fd. apply month_text_int in Fm.
  apply year_text_int in Fy.
  destruct (date_checked_cases y m d) as [H _]; [tauto|tauto|lia|].
  rewrite H by auto. eauto.
Qed.

Lemma strptime_rejected (raw : str) :
  ~ accepted_date raw ->
  exists e, strptime raw = Raise e /\ is_ValueError e = true.
Proof.
  intros Hn. destruct (re_match format_regex raw) as [[rest g]|] eqn:E.
  - pose proof E as E'. apply re_match_format_sound in E'.
    destruct E' as (w & ds & ms & ys & d & m & y & -> & F & ->).
    destruct rest as [|c rest].
    + rewrite app_nil_r in *. rewrite (strptime_form _ _ _ _ _ _ _ F).
      pose proof F as (_ & Fd & Fm & Fy).
      apply day_text_int in Fd. apply month_text_int in Fm.
      apply year_text_int in Fy.
      destruct (date_checked_cases y m d) as [_ H]; [tauto|tauto|lia|].
      destruct H as [msg ->].
      * intros Hok. apply Hn. exists ds, ms, ys, d, m, y. tauto.
      * eexists. split; reflexivity.
    + unfold strptime. rewrite E. eexists. split; reflexivity.
  - unfold strptime. rewrite E. eexists. split; reflexivity.
Qed.

(** A date in the strict format is one of the accepted dates. *)
Lemma strict_accepted (raw : str) :
  strict_DD_MM_YYYY raw -> accepted_date raw.
Proof.
  intros (d1 & d2 & m1 & m2 & y1 & y2 & y3 & y4 & -> & Hdig & Hdate).
  cbv zeta in Hdate. destruct Hdate as (Hy & Hm & Hd).
  repeat match goal with
         | H : Forall _ (_ :: _) |- _ => inversion H; subst; clear H
         | H : is_ascii_digit _ = true |- _ =>
             unfold is_ascii_digit in H; apply andb_true_iff in H;
             rewrite !N.leb_le in H
         end.
  pose proof (days_in_month_bounds
                (1000 * digit y1 + 100 * digit y2 + 10 * digit y3 + digit y4)
                (10 * digit m1 + digit m2) Hm) as Hdim.
  assert (exists d, day_text [d1; d2] d /\ d = 10 * digit d1 + digit d2)
    as (d & Td & Ed).
  { unfold digit in *. norm_ch.
    assert (d1 = 48 \/ d1 = 49 \/ d1 = 50 \/ d1 = 51 \/ 52 <= d1)%N
      as [->|[->|[->|[->|C]]]] by lia.
    - eexists. split; [apply day_padded; norm_ch; lia|].
      unfold digit; norm_ch; lia.
    - eexists. split;
        [apply day_10 with (v := (d2 - 48)%N);
         [norm_ch; lia|apply ascii_digit_todecimal; lia]|].
      unfold digit; norm_ch; lia.
    - eexists. split;
        [apply day_10 with (v := (d2 - 48)%N);
         [norm_ch; lia|apply ascii_digit_todecimal; lia]|].
      unfold digit; norm_ch; lia.
    - eexists. split; [apply day_30; norm_ch; lia|].
      unfold digit; norm_ch; lia.
    - lia. }
  assert (exists m, month_text [m1; m2] m /\ m = 10 * digit m1 + digit m2)
    as (m & Tm & Em).
  { unfold digit in *. norm_ch.
    assert (m1 = 48 \/ m1 = 49 \/ 50 <= m1)%N as [->|[->|C]] by lia.
    - eexists. split; [apply month_padded; norm_ch; lia|].
      unfold digit; norm_ch; lia.
    - eexists. split; [apply month_10; norm_ch; lia|].
      unfold digit; norm_ch; lia.
    - lia. }
  assert (exists y, year_text [y1; y2; y3; y4] y
                    /\ y = 1000 * digit y1 + 100 * digit y2 + 10 * digit y3
                           + digit y4) as (y & Ty & Ey).
  { eexists. split.
    - apply year_4 with (va := (y1 - 48)%N) (vb := (y2 - 48)%N)
                        (vc := (y3 - 48)%N) (vd := (y4 - 48)%N);
        apply ascii_digit_todecimal; lia.
    - unfold digit; norm_ch; lia. }
  exists [d1; d2], [m1; m2], [y1; y2; y3; y4], d, m, y.
  split; [|subst; split; [lia|tauto]].
  split; [reflexivity|]. auto.
Qed.

(** ** Claim C3, as the code has it.

    [Birthday(raw)] succeeds, and stores [raw], exactly when [raw] is a
    day, a dot, a month, a dot and a year as ['%d.%m.%Y'] reads them, for a
    day that exists in that month of that year, the year being at least 1:
    the day is 01 to 31, or 1 to 9 without the zero or after one space; the
    month is 01 to 12, or 1 to 9 without the zero; the year is four decimal
    digits.  Any other string raises the ValueError of the class; so do an
    out-of-range day or month, another separator and a two-digit year.
    Every date in the strict zero-padded format is accepted. *)
Theorem Birthday_init_spec (raw : str) :
  (accepted_date raw -> Birthday_init raw = Ok (mkBirthday raw))
  /\ (~ accepted_date raw ->
      Birthday_init raw
      = Raise (ValueError (lit "Date must be in format DD.MM.YYYY.")))
  /\ (strict_DD_MM_YYYY raw -> accepted_date raw).
Proof.
  unfold Birthday_init, Birthday_validate_birthday. split; [|split].
  - intros H. apply strptime_accepted in H. destruct H as [dt ->].
    reflexivity.
  - intros H. apply strptime_rejected in H. destruct H as (e & -> & ->).
    reflexivity.
  - apply strict_accepted.
Qed.

Lemma Birthday_init_spec_witness :
  Birthday_init (lit "10.06.1990") = Ok (mkBirthday (lit "10.06.1990"))
  /\ Birthday_init (lit "32.01.1990")
     = Raise (ValueError (lit "Date must be in format DD.MM.YYYY."))
  /\ accepted_date (lit "29.02.2024").
Proof.
  pose proof (Birthday_init_spec (lit "10.06.1990")) as (Hok & _ & _).
  pose proof (Birthday_init_spec (lit "32.01.1990")) as (Hno & Hbad & _).
  pose proof (Birthday_init_spec (lit "29.02.2024")) as (_ & _ & Hstrict).
  split; [|split].
  - apply Hok.
    exists (lit "10"), (lit "06"), (lit "1990"), 10, 6, 1990.
    split; [|split; [lia|vm_compute; discriminate]].
    split; [reflexivity|]. split; [|split].
    + apply (@day_10 (ch "1") (ch "0") 0%N); [split; discriminate|reflexivity].
    + apply (@month_padded (ch "6")). split; discriminate.
    + apply (@year_4 (ch "1") (ch "9") (ch "9") (ch "0") 1%N 9%N 9%N 0%N);
        reflexivity.
  - apply Hbad. intros Hacc. apply Hno in Hacc. discriminate Hacc.
  - apply Hstrict.
    exists (ch "2"), (ch "9"), (ch "0"), (ch "2"),
           (ch "2"), (ch "0"), (ch "2"), (ch "4").
    split; [reflexivity|]. split; [repeat constructor|].
    vm_compute. repeat split; discriminate.
Defined.

(** The claim C3 as the specification words it fails on a date written
    without the zeros: [Birthday] takes it, and it is not in the strict
    format. *)
Lemma Birthday_init_accepts_unpadded :
  let raw := lit "1.6.1990" in
  Birthday_init raw = Ok (mkBirthday raw) /\ ~ strict_DD_MM_YYYY raw.
Proof.
  split; [reflexivity|].
  intros (d1 & d2 & m1 & m2 & y1 & y2 & y3 & y4 & E & _). discriminate E.
Qed.

(** The texts of the specification: a day 32, a month 13, dashes, a
    two-digit year, and the last day of February in a common year. *)
Lemma Birthday_init_rejects :
  Forall (fun raw =>
            Birthday_init (lit raw)
            = Raise (ValueError (lit "Date must be in format DD.MM.YYYY.")))
         ["32.01.1990"; "10.13.1990"; "10-06-1990"; "10.06.90";
          "29.02.2001"; "10.06.1990 "; ""]%string.
Proof. repeat constructor. Qed.

(** ** Day counts *)

(** The day count of a date at midnight, seen from [now]: the difference
    of the calendar days at midnight, and one less at any later time. *)
Lemma datetime_sub_days (bday now : datetime) :
  time_of_day bday = 0 -> dt_microsecond bday = 0 ->
  0 <= since_midnight now < 86400000000 ->
  td_days (datetime_sub bday now)
  = toordinal bday - toordinal now
    - (if since_midnight now =? 0 then 0 else 1).
Proof.
  unfold since_midnight, datetime_sub, timedelta_new, td_days.
  intros -> -> H.
  set (x := time_of_day now * 1000000 + dt_microsecond now) in *.
  set (n := toordinal bday - toordinal now).
  replace ((n * 86400 + (0 - time_of_day now)) * 1000000
           + (0 - dt_microsecond now))
    with (n * 86400000000 - x) by (unfold x; ring).
  destruct (x =? 0) eqn:E; [apply Z.eqb_eq in E|apply Z.eqb_neq in E].
  - symmetry. apply Z.div_unique with (r := 0); lia.
  - symmetry. apply Z.div_unique with (r := 86400000000 - x); lia.
Qed.

(** [upcoming_birthdays] keeps, in the order of the book, the records
    whose day count is in the window, when every birthday of the book can
    be moved to the year it falls in. *)
Lemma upcoming_loop_filter (today : datetime) (days : Z)
      (records : list Record_) :
  Forall (fun r => exists o, days_to_birthday today r = Ok o) records ->
  forall upcoming,
    upcoming_loop today days records upcoming
    = Ok (upcoming ++ filter (in_window today days) records).
Proof.
  induction 1 as [|r records [o Ho] _ IH]; intros upcoming;
    cbn [upcoming_loop filter].
  - rewrite app_nil_r. reflexivity.
  - unfold in_window at 1. unfold days_to_birthday in *.
    destruct (rec_birthday r) as [b|].
    + destruct (next_bday (birthday_value b) today) as [bday|e];
        cbn [rbind] in *; [|discriminate].
      destruct ((0 <=? td_days (datetime_sub bday today))
                && (td_days (datetime_sub bday today) <? days)).
      * rewrite IH, <- app_assoc. reflexivity.
      * apply IH.
    + apply IH.
Qed.

(** ** Claim C2, at the failing input.

    At noon of 10.06.2024 the day count of a birthday on 10.06 is 364 and
    not 0, and that of a birthday on 12.06 is 1 and not 2; the counts are 0
    and 2 only when [now] is midnight sharp.  A record without a birthday
    gives None at any time. *)
Theorem days_to_birthday_counts_from_the_clock :
  let ann := fun value : string =>
               mkRecord (mkName (lit "Ann")) []
                        (Some (mkBirthday (lit value))) in
  let noon := mkdatetime 2024 6 10 12 0 0 0 in
  let midnight := mkdatetime 2024 6 10 0 0 0 0 in
  days_to_birthday noon (ann "10.06.1990"%string) = Ok (Some 364)
  /\ days_to_birthday noon (ann "12.06.1990"%string) = Ok (Some 1)
  /\ days_to_birthday midnight (ann "10.06.1990"%string) = Ok (Some 0)
  /\ days_to_birthday midnight (ann "12.06.1990"%string) = Ok (Some 2)
  /\ days_to_birthday noon (mkRecord (mkName (lit "Ann")) [] None) = Ok None.
Proof. vm_compute. repeat split; reflexivity. Qed.

(** ** Claim C1, at the failing input.

    With the window left out (7 days), at noon of 10.06.2024 the contact
    whose birthday is that day is not returned; the one two days ahead is,
    and the one ten days ahead is not.  At midnight sharp all three are
    treated as the specification says. *)
Theorem upcoming_birthdays_misses_today :
  let contact := fun name value : string =>
                   mkRecord (mkName (lit name)) []
                            (Some (mkBirthday (lit value))) in
  let today := contact "Ann"%string "10.06.1990"%string in
  let soon := contact "Bob"%string "12.06.1990"%string in
  let later := contact "Cy"%string "20.06.1990"%string in
  let book := mkAddressBook
                [(lit "Ann", today); (lit "Bob", soon); (lit "Cy", later)] in
  upcoming_birthdays None (mkdatetime 2024 6 10 12 0 0 0) book = Ok [soon]
  /\ upcoming_birthdays None (mkdatetime 2024 6 10 0 0 0 0) book
     = Ok [today; soon].
Proof. vm_compute. split; reflexivity. Qed.

(** ** Pickling: batches *)

Section Batches.
Context {A B : Type}.

Lemma concat_batches_fuel (n : nat) :
  (0 < n)%nat ->
  forall (fuel : nat) (l : list A),
    (List.length l <= fuel)%nat -> List.concat (batches_fuel fuel n l) = l.
Proof.
  intros Hn. induction fuel as [|fuel IH]; intros l Hl.
  - destruct l; [reflexivity|simpl in Hl; lia].
  - destruct l as [|x l]; [reflexivity|].
    cbn [batches_fuel List.concat]. rewrite IH.
    + apply firstn_skipn.
    + rewrite length_skipn. cbn [List.length] in *. lia.
Qed.

Lemma concat_batches (n : nat) (l : list A) :
  (0 < n)%nat -> List.concat (batches n l) = l.
Proof. intros Hn. apply concat_batches_fuel; auto. Qed.

Lemma batches_fuel_map (f : A -> B) (n : nat) :
  forall (fuel : nat) (l : list A),
    batches_fuel fuel n (map f l) = map (map f) (batches_fuel fuel n l).
Proof.
  induction fuel as [|fuel IH]; intros l; [reflexivity|].
  destruct l as [|x l]; [reflexivity|].
  change (batches_fuel (S fuel) n (map f (x :: l)))
    with (firstn n (map f (x :: l))
            :: batches_fuel fuel n (skipn n (map f (x :: l)))).
  rewrite firstn_map, skipn_map, IH. reflexivity.
Qed.

Lemma batches_map (f : A -> B) (n : nat) (l : list A) :
  batches n (map f l) = map (map f) (batches n l).
Proof. unfold batches. rewrite length_map. apply batches_fuel_map. Qed.

End Batches.

(** ** Pickling: the virtual machine on what the pickler writes *)

Lemma pyobj_ind' (P : pyobj -> Prop) :
  P PNone ->
  (forall s, P (PStr s)) ->
  (forall items, Forall P items -> P (PList items)) ->
  (forall items, Forall (fun kv => P (snd kv)) items -> P (PDict items)) ->
  P PTuple0 ->
  (forall module name, P (PGlobal module name)) ->
  (forall module name attrs,
      Forall (fun kv => P (snd kv)) attrs -> P (PInst module name attrs)) ->
  forall o, P o.
Proof.
  intros HN HS HL HD HT HG HI.
  fix IH 1. intros [|s|items|items| |module name|module name attrs].
  - exact HN.
  - apply HS.
  - apply HL. induction items as [|x items IHl]; constructor; auto.
  - apply HD. induction items as [|[k v] items IHl]; constructor; auto.
  - exact HT.
  - apply HG.
  - apply HI. induction attrs as [|[k v] attrs IHl]; constructor; auto.
Qed.

Lemma loads_to_nil : loads_to [] [].
Proof. intros ops st. reflexivity. Qed.

Lemma loads_to_app (c1 c2 : list opcode) (o1 o2 : list pyobj) :
  loads_to c1 o1 -> loads_to c2 o2 -> loads_to (c1 ++ c2) (o1 ++ o2).
Proof.
  intros H1 H2 ops st. rewrite <- app_assoc, H1, H2.
  rewrite map_app, rev_app_distr, <- app_assoc. reflexivity.
Qed.

Lemma loads_to_values (vs : list pyobj) :
  Forall (fun v => loads_to (save v) [v]) vs ->
  loads_to (List.concat (map save vs)) vs.
Proof.
  induction 1 as [|v vs Hv _ IH]; [apply loads_to_nil|].
  apply (loads_to_app _ _ [v] vs Hv IH).
Qed.

Lemma loads_to_item (kv : str * pyobj) :
  loads_to (save (snd kv)) [snd kv] -> loads_to (save_item kv) (item_objs kv).
Proof.
  intros H ops st. unfold save_item, item_objs.
  cbn [app load load_op]. rewrite H. reflexivity.
Qed.

Lemma loads_to_items (kvs : list (str * pyobj)) :
  Forall (fun kv => loads_to (save (snd kv)) [snd kv]) kvs ->
  loads_to (List.concat (map save_item kvs)) (flat_map item_objs kvs).
Proof.
  induction 1 as [|kv kvs Hkv _ IH]; [apply loads_to_nil|].
  apply (loads_to_app _ _ (item_objs kv) _ (loads_to_item kv Hkv) IH).
Qed.

Lemma pop_mark_pushed (xs : list pyobj) (st : list slot) :
  forall acc,
    pop_mark (rev (map Obj xs) ++ Mark :: st) acc = Some (xs ++ acc, st).
Proof.
  induction xs as [|x xs IH] using rev_ind; intros acc; [reflexivity|].
  rewrite map_app, rev_app_distr. cbn [map rev app pop_mark].
  rewrite IH, <- app_assoc. reflexivity.
Qed.

Lemma setitems_items (kvs : list (str * pyobj)) :
  forall d, setitems (flat_map item_objs kvs) d = Some (update d kvs).
Proof.
  induction kvs as [|[k v] kvs IH]; intros d; [reflexivity|].
  cbn [flat_map item_objs app setitems fst snd]. rewrite IH. reflexivity.
Qed.

(** One batch of a list. *)
Lemma load_batch_appends (vs : list pyobj) (l : list pyobj) :
  Forall (fun v => loads_to (save v) [v]) vs ->
  forall ops st,
    load (write_batch APPEND APPENDS (map save vs) ++ ops)
         (Obj (PList l) :: st)
    = load ops (Obj (PList (l ++ vs)) :: st).
Proof.
  intros Hvs ops st. destruct vs as [|v [|v' vs]].
  - rewrite app_nil_r. reflexivity.
  - inversion Hvs as [|? ? Hv _]; subst.
    cbn [map write_batch]. rewrite <- app_assoc, Hv. reflexivity.
  - apply loads_to_values in Hvs.
    change (write_batch APPEND APPENDS (map save (v :: v' :: vs)))
      with (MARK :: List.concat (map save (v :: v' :: vs)) ++ [APPENDS]).
    cbn [app load load_op]. rewrite <- app_assoc, Hvs.
    cbn [app load load_op]. rewrite pop_mark_pushed, app_nil_r.
    reflexivity.
Qed.

(** One batch of a dict. *)
Lemma load_batch_setitems (kvs d : list (str * pyobj)) :
  Forall (fun kv => loads_to (save (snd kv)) [snd kv]) kvs ->
  forall ops st,
    load (write_batch SETITEM SETITEMS (map save_item kvs) ++ ops)
         (Obj (PDict d) :: st)
    = load ops (Obj (PDict (update d kvs)) :: st).
Proof.
  intros Hkvs ops st. destruct kvs as [|kv [|kv' kvs]].
  - reflexivity.
  - inversion Hkvs as [|? ? Hkv _]; subst. apply loads_to_item in Hkv.
    cbn [map write_batch]. rewrite <- app_assoc, Hkv. reflexivity.
  - apply loads_to_items in Hkvs.
    change (write_batch SETITEM SETITEMS (map save_item (kv :: kv' :: kvs)))
      with (MARK :: List.concat (map save_item (kv :: kv' :: kvs))
                 ++ [SETITEMS]).
    cbn [app load load_op]. rewrite <- app_assoc, Hkvs.
    cbn [app load load_op]. rewrite pop_mark_pushed, app_nil_r.
    rewrite setitems_items. reflexivity.
Qed.

Lemma update_app {V} (d a b : dict V) :
  update d (a ++ b) = update (update d a) b.
Proof. unfold update. apply fold_left_app. Qed.

Lemma load_batches_appends (bs : list (list pyobj)) :
  Forall (Forall (fun v => loads_to (save v) [v])) bs ->
  forall l ops st,
    load (flat_map (write_batch APPEND APPENDS) (map (map save) bs) ++ ops)
         (Obj (PList l) :: st)
    = load ops (Obj (PList (l ++ List.concat bs)) :: st).
Proof.
  induction 1 as [|b bs Hb _ IH]; intros l ops st.
  - simpl. rewrite app_nil_r. reflexivity.
  - cbn [map flat_map List.concat].
    rewrite <- app_assoc, (load_batch_appends b l Hb), IH, app_assoc.
    reflexivity.
Qed.

Lemma load_batches_setitems (bs : list (list (str * pyobj))) :
  Forall (Forall (fun kv => loads_to (save (snd kv)) [snd kv])) bs ->
  forall d ops st,
    load (flat_map (write_batch SETITEM SETITEMS) (map (map save_item) bs)
            ++ ops)
         (Obj (PDict d) :: st)
    = load ops (Obj (PDict (update d (List.concat bs))) :: st).
Proof.
  induction 1 as [|b bs Hb _ IH]; intros d ops st.
  - reflexivity.
  - cbn [map flat_map List.concat].
    rewrite <- app_assoc, (load_batch_setitems b d Hb), IH, update_app.
    reflexivity.
Qed.

Lemma batch_size_positive : (0 < _BATCHSIZE)%nat.
Proof. unfold _BATCHSIZE. lia. Qed.

(** The body of a list and of a dict, whatever the number of batches. *)
Lemma load_appends (items l : list pyobj) :
  Forall (fun v => loads_to (save v) [v]) items ->
  forall ops st,
    load (_batch_appends (map save items) ++ ops) (Obj (PList l) :: st)
    = load ops (Obj (PList (l ++ items)) :: st).
Proof.
  intros H ops st. unfold _batch_appends. rewrite batches_map.
  rewrite load_batches_appends.
  - rewrite concat_batches by apply batch_size_positive. reflexivity.
  - apply Forall_concat.
    rewrite concat_batches by apply batch_size_positive. exact H.
Qed.

Lemma load_setitems (items d : list (str * pyobj)) :
  Forall (fun kv => loads_to (save (snd kv)) [snd kv]) items ->
  forall ops st,
    load (_batch_setitems (map save_item items) ++ ops)
         (Obj (PDict d) :: st)
    = load ops (Obj (PDict (update d items)) :: st).
Proof.
  intros H ops st. unfold _batch_setitems. rewrite batches_map.
  rewrite load_batches_setitems.
  - rewrite concat_batches by apply batch_size_positive. reflexivity.
  - apply Forall_concat.
    rewrite concat_batches by apply batch_size_positive. exact H.
Qed.

Lemma dict_get_notin {V} (k : str) (d : dict V) :
  ~ In k (dict_keys d) -> dict_get k d = None.
Proof.
  induction d as [|[k' v] d IH]; simpl; [reflexivity|].
  intros H. destruct (str_eqb k' k) eqn:E.
  - apply str_eqb_eq in E. tauto.
  - apply IH. tauto.
Qed.

(** Items with keys that are new and all different are put at the end. *)
Lemma update_nodup {V} (items : dict V) :
  forall d, NoDup (dict_keys (d ++ items)) -> update d items = d ++ items.
Proof.
  induction items as [|[k v] items IH]; intros d H.
  - rewrite app_nil_r. reflexivity.
  - change (update d ((k, v) :: items))
      with (update (dict_setitem k v d) items).
    assert (dict_get k d = None) as Hk.
    { apply dict_get_notin. unfold dict_keys in *. rewrite map_app in H.
      apply NoDup_remove_2 in H. intros Hin. apply H.
      apply in_or_app. auto. }
    rewrite (dict_setitem_absent _ _ _ Hk).
    replace (d ++ (k, v) :: items) with ((d ++ [(k, v)]) ++ items) in *
      by (rewrite <- app_assoc; reflexivity).
    apply IH, H.
Qed.

Lemma wf_values (items : list pyobj) :
  fold_right (fun x acc => pyobj_wf x /\ acc) True items ->
  Forall pyobj_wf items.
Proof.
  induction items as [|x items IH]; simpl; [constructor|].
  intros [Hx H]. constructor; auto.
Qed.

Lemma wf_items (items : list (str * pyobj)) :
  fold_right (fun kv acc => pyobj_wf (snd kv) /\ acc) True items ->
  Forall (fun kv => pyobj_wf (snd kv)) items.
Proof.
  induction items as [|x items IH]; simpl; [constructor|].
  intros [Hx H]. constructor; auto.
Qed.

Lemma Forall_mp {A} (P Q : A -> Prop) (l : list A) :
  Forall (fun x => P x -> Q x) l -> Forall P l -> Forall Q l.
Proof.
  induction 1 as [|x l Hx _ IH]; intros H; inversion H; subst;
    constructor; auto.
Qed.

(** What the pickler writes for an object, the unpickler reads back as the
    same object. *)
Lemma load_save (o : pyobj) : pyobj_wf o -> loads_to (save o) [o].
Proof.
  induction o as [|s|items IH|items IH| |module name|module name attrs IH]
    using pyobj_ind'; intros Hwf ops st.
  - reflexivity.
  - reflexivity.
  - change (save (PList items))
      with (EMPTY_LIST :: _batch_appends (map save items)).
    cbn [app load load_op]. rewrite load_appends; [reflexivity|].
    apply (Forall_mp _ _ _ IH), wf_values, Hwf.
  - change (save (PDict items))
      with (EMPTY_DICT :: _batch_setitems (map save_item items)).
    destruct Hwf as [Hnd Hwf].
    cbn [app load load_op]. rewrite load_setitems.
    + rewrite (update_nodup items [] Hnd). reflexivity.
    + apply (Forall_mp _ _ _ IH), wf_items, Hwf.
  - reflexivity.
  - reflexivity.
  - change (save (PInst module name attrs))
      with ([BINUNICODE module; BINUNICODE name; STACK_GLOBAL; EMPTY_TUPLE;
             NEWOBJ]
              ++ (EMPTY_DICT :: _batch_setitems (map save_item attrs))
              ++ [BUILD]).
    destruct Hwf as [Hnd Hwf].
    cbn [app load load_op]. rewrite <- app_assoc, load_setitems.
    + rewrite (update_nodup attrs [] Hnd).
      cbn [app load load_op].
      change (fold_left (fun d kv => dict_setitem (fst kv) (snd kv) d)
                        attrs [])
        with (update [] attrs).
      rewrite (update_nodup attrs [] Hnd). reflexivity.
    + apply (Forall_mp _ _ _ IH), wf_items, Hwf.
Qed.

Lemma loads_dumps (o : pyobj) : pyobj_wf o -> loads (dumps o) = Ok o.
Proof.
  intros H. unfold loads, dumps. cbn [load load_op].
  rewrite (load_save o H). reflexivity.
Qed.

(** ** Pickling: the objects of the program *)

Lemma all_some_map {A B} (f : A -> option B) (l : list A) (g : A -> B) :
  (forall x, f x = Some (g x)) -> all_some (map f l) = Some (map g l).
Proof.
  intros H. induction l as [|x l IH]; simpl; [reflexivity|].
  rewrite H, IH. reflexivity.
Qed.

Lemma Record_of_to_py (r : Record_) : Record_of_py (Record_to_py r) = Some r.
Proof.
  destruct r as [[n] ps b]. unfold Record_to_py, Record_of_py.
  cbn [rec_name rec_phones rec_birthday name_value].
  change (is_class "Record" __main__ (lit "Record")
          && str_eqb (lit "name") (lit "name")
          && str_eqb (lit "phones") (lit "phones")
          && str_eqb (lit "birthday") (lit "birthday")) with true.
  cbv iota.
  change (Field_of_py "Name" (Field_to_py "Name" n)) with (Some n).
  rewrite map_map.
  rewrite (all_some_map _ ps phone_value) by reflexivity.
  assert (map mkPhone (map phone_value ps) = ps) as Hps.
  { rewrite map_map. rewrite <- (map_id ps) at 2.
    apply map_ext. intros []. reflexivity. }
  destruct b as [[bv]|]; cbn; rewrite Hps; reflexivity.
Qed.

Lemma AddressBook_of_to_py (book : AddressBook) :
  AddressBook_of_py (AddressBook_to_py book) = Some book.
Proof.
  destruct book as [d]. unfold AddressBook_to_py, AddressBook_of_py.
  cbn [data].
  change (is_class "AddressBook" __main__ (lit "AddressBook")
          && str_eqb (lit "data") (lit "data")) with true.
  cbv iota. rewrite !map_map. cbn [fst snd].
  rewrite (all_some_map _ d snd) by (intros x; apply Record_of_to_py).
  cbn [option_map]. do 2 f_equal.
  induction d as [|[k r] d IH]; simpl; [reflexivity|].
  rewrite IH. reflexivity.
Qed.

Lemma Record_to_py_wf (r : Record_) : pyobj_wf (Record_to_py r).
Proof.
  unfold Record_to_py. cbn [pyobj_wf fold_right map fst snd].
  split.
  - repeat constructor; simpl; intuition discriminate.
  - split; [|split; [|split; [|exact I]]].
    + unfold Field_to_py. simpl. repeat constructor. intros [].
    + induction (rec_phones r) as [|p ps IH]; simpl; [exact I|].
      split; [|exact IH]. repeat constructor. intros [].
    + destruct (rec_birthday r); simpl; [|exact I].
      repeat constructor. intros [].
Qed.

Lemma AddressBook_to_py_wf (book : AddressBook) :
  dict_wf (data book) -> pyobj_wf (AddressBook_to_py book).
Proof.
  intros H. unfold AddressBook_to_py. cbn [pyobj_wf fold_right map fst snd].
  split; [repeat constructor; intros []|]. split; [|exact I].
  split.
  - rewrite map_map. exact H.
  - induction (data book) as [|[k r] d IH]; simpl; [exact I|].
    split; [apply Record_to_py_wf|].
    apply IH. inversion H. assumption.
Qed.

(** ** Claim C8.

    What [save_data] writes, [load_data] reads back as the same book: the
    same names in the same order, and for each of them the same name
    field, the same phones in the same order and the same birthday, or
    none.  The file written is the one read and no other file changes. *)
Theorem load_save_roundtrip (book : AddressBook) (filename : option str)
        (fs : files) :
  dict_wf (data book) ->
  exists fs',
    save_data book filename fs = (Ok tt, fs')
    /\ load_data filename fs' = (Ok book, fs')
    /\ (forall other, other <> default_filename filename ->
                      dict_get other fs' = dict_get other fs).
Proof.
  intros Hwf. eexists. split; [reflexivity|]. split.
  - unfold load_data, bind, get, eval, ret.
    rewrite dict_get_setitem_same.
    rewrite (loads_dumps _ (AddressBook_to_py_wf book Hwf)).
    rewrite AddressBook_of_to_py. reflexivity.
  - intros other Ho. apply dict_get_setitem_other, Ho.
Qed.

Lemma load_save_roundtrip_witness :
  let bob := mkRecord (mkName (lit "Bob"))
                      [mkPhone (lit "1111111111"); mkPhone (lit "2222222222")]
                      None in
  let al := mkRecord (mkName (lit "Al")) []
                     (Some (mkBirthday (lit "10.06.1990"))) in
  let book := mkAddressBook [(lit "Bob", bob); (lit "Al", al)] in
  exists fs',
    save_data book None [] = (Ok tt, fs')
    /\ load_data None fs' = (Ok book, fs')
    /\ (forall other, other <> default_filename None ->
                      dict_get other fs' = dict_get other []).
Proof.
  intros bob al book. apply (load_save_roundtrip book None []).
  unfold dict_wf. simpl.
  repeat constructor; simpl; intuition discriminate.
Defined.

(** A file that is not there is read as the empty book. *)
Lemma load_data_missing (filename : option str) (fs : files) :
  dict_get (default_filename filename) fs = None ->
  load_data filename fs = (Ok AddressBook_init, fs).
Proof.
  intros H. unfold load_data, bind, get, ret. rewrite H. reflexivity.
Qed.

(** ** The keys of a book stay trimmed *)

Lemma lstrip_cases (s : str) :
  lstrip s = []
  \/ exists a t, lstrip s = a :: t /\ Py_UNICODE_ISSPACE a = false.
Proof.
  induction s as [|c s IH]; simpl; [auto|].
  destruct (Py_UNICODE_ISSPACE c) eqn:E; [exact IH|].
  right. exists c, s. auto.
Qed.

Lemma lstrip_suffix (s : str) : exists p, s = p ++ lstrip s.
Proof.
  induction s as [|c s [p IH]]; simpl; [exists []; reflexivity|].
  destruct (Py_UNICODE_ISSPACE c).
  - exists (c :: p). simpl. rewrite <- IH. reflexivity.
  - exists []. reflexivity.
Qed.

(** Trimming twice is trimming once. *)
Lemma strip_idempotent (s : str) : strip (strip s) = strip s.
Proof.
  unfold strip at 2 3, rstrip.
  destruct (lstrip_cases (rev (lstrip s))) as [E|(z & u & E & Hz)];
    rewrite E; [reflexivity|].
  destruct (lstrip_suffix (rev (lstrip s))) as [p Hp]. rewrite E in Hp.
  assert (lstrip s = rev (z :: u) ++ rev p) as Ht.
  { rewrite <- rev_app_distr, <- Hp, rev_involutive. reflexivity. }
  destruct (lstrip_cases s) as [E0|(a & t & E0 & Ha)].
  - rewrite E0 in Ht. symmetry in Ht. apply app_eq_nil in Ht.
    destruct Ht as [Ht _]. simpl in Ht. apply app_eq_nil in Ht.
    destruct Ht as [_ Ht]. discriminate.
  - destruct (rev (z :: u)) as [|a' r'] eqn:Er.
    + simpl in Er. apply app_eq_nil in Er. destruct Er as [_ Er].
      discriminate.
    + rewrite E0 in Ht. simpl in Ht. inversion Ht; subst a'.
      apply (strip_id (a :: r') a r' z u); auto.
      rewrite <- Er. apply rev_involutive.
Qed.

Lemma input_error_state {S} (func : M S str) (s : S) :
  snd (input_error func s) = snd (func s).
Proof.
  unfold input_error. destruct (func s) as [[text|[]] s']; reflexivity.
Qed.

Lemma on_record_keys {A} (key : str) (m : M Record_ A) (book : AddressBook) :
  dict_keys (data (snd (on_record key m book))) = dict_keys (data book).
Proof.
  unfold on_record. destruct (dict_get key (data book)) as [r|] eqn:E;
    [|reflexivity].
  destruct (m r) as [res r']. cbn [snd data].
  apply (dict_setitem_present key r' r), E.
Qed.

(** [add_contact] keeps the keys of the book trimmed. *)
Lemma add_contact_keys_trimmed (args : list str) (book : AddressBook) :
  keys_trimmed book -> keys_trimmed (snd (add_contact args book)).
Proof.
  intros H. unfold add_contact. rewrite input_error_state.
  unfold add_contact_func.
  destruct (List.length args <? 2)%nat; [exact H|].
  set (name := nth 0 args []). set (phone := nth 1 args []).
  unfold bind at 1. unfold find, bind at 1, get, ret.
  destruct (dict_get (strip name) (data book)) as [r|] eqn:E.
  - unfold bind.
    destruct (on_record (strip name) (add_phone phone) book) as [res b'] eqn:R.
    assert (dict_keys (data b') = dict_keys (data book)) as K.
    { pose proof (on_record_keys (strip name) (add_phone phone) book) as K.
      rewrite R in K. exact K. }
    assert (keys_trimmed b') as H' by (unfold keys_trimmed; rewrite K; exact H).
    destruct res; exact H'.
  - unfold bind, eval, add_record, get, put.
    unfold Name_init. destruct (strip name) as [|c t] eqn:S; [exact H|].
    cbn [str_bool negb]. rewrite <- S in *.
    cbv beta iota zeta delta [bind Record_init].
    cbn [rec_name name_value].
    set (b1 := {| data := _ |}).
    assert (keys_trimmed b1) as H1.
    { unfold keys_trimmed, b1. cbn [data].
      rewrite (dict_setitem_absent _ _ _ E). unfold dict_keys.
      rewrite map_app. apply Forall_app. split; [exact H|].
      constructor; [apply strip_idempotent|constructor]. }
    destruct (on_record (strip name) (add_phone phone) b1) as [res b'] eqn:R.
    assert (dict_keys (data b') = dict_keys (data b1)) as K.
    { pose proof (on_record_keys (strip name) (add_phone phone) b1) as K.
      rewrite R in K. exact K. }
    assert (keys_trimmed b') as H' by (unfold keys_trimmed; rewrite K; exact H1).
    destruct res; exact H'.
Qed.

(** * Further properties of the program *)

(** ** Trimming *)

Lemma lstrip_blank (a s : str) : blank a -> lstrip (a ++ s) = lstrip s.
Proof.
  induction 1 as [|c a Hc _ IH]; simpl; [reflexivity|].
  rewrite Hc. exact IH.
Qed.

Lemma lstrip_nil_iff (s : str) : lstrip s = [] <-> blank s.
Proof.
  split.
  - induction s as [|c s IH]; simpl; [constructor|].
    destruct (Py_UNICODE_ISSPACE c) eqn:E; [|discriminate].
    intros H. constructor; [exact E|apply IH, H].
  - intros H. rewrite <- (app_nil_r s). rewrite lstrip_blank by exact H.
    reflexivity.
Qed.

Lemma blank_rev (s : str) : blank (rev s) <-> blank s.
Proof.
  unfold blank. rewrite !Forall_forall.
  split; intros H c Hc; apply H; [apply -> in_rev|apply <- in_rev]; exact Hc.
Qed.

Lemma blank_app (a b : str) : blank (a ++ b) <-> blank a /\ blank b.
Proof. apply Forall_app. Qed.

Lemma lstrip_split (s : str) : exists p, s = p ++ lstrip s /\ blank p.
Proof.
  induction s as [|c s (p & Hp & Bp)]; simpl.
  - exists []. split; [reflexivity|constructor].
  - destruct (Py_UNICODE_ISSPACE c) eqn:E.
    + exists (c :: p). split; [simpl; rewrite <- Hp; reflexivity|].
      constructor; assumption.
    + exists []. split; [reflexivity|constructor].
Qed.

Lemma strip_nil_iff (s : str) : strip s = [] <-> blank s.
Proof.
  unfold strip, rstrip. split.
  - intros H. apply (f_equal (@rev N)) in H. rewrite rev_involutive in H.
    simpl in H. apply lstrip_nil_iff in H.
    apply (proj1 (blank_rev (lstrip s))) in H.
    destruct (lstrip_cases s) as [E|(a & t & E & Ha)].
    + apply lstrip_nil_iff, E.
    + rewrite E in H. unfold blank in H. inversion H; congruence.
  - intros H. apply lstrip_nil_iff in H. rewrite H. reflexivity.
Qed.

(** White space around a text does not change what [strip] gives. *)
Lemma strip_padding (a s b : str) :
  blank a -> blank b -> strip (a ++ s ++ b) = strip s.
Proof.
  intros Ha Hb. unfold strip, rstrip. rewrite lstrip_blank by exact Ha.
  destruct (lstrip_cases s) as [E|(c & t & E & Hc)].
  - rewrite E. apply lstrip_nil_iff in E.
    assert (lstrip (s ++ b) = []) as ->
        by (apply lstrip_nil_iff, blank_app; auto).
    reflexivity.
  - destruct (lstrip_split s) as (p & Hp & Bp). rewrite E in Hp.
    assert (lstrip (s ++ b) = (c :: t) ++ b) as ->.
    { rewrite Hp at 1. rewrite <- app_assoc, lstrip_blank by exact Bp.
      simpl. rewrite Hc. reflexivity. }
    rewrite E. rewrite rev_app_distr.
    rewrite lstrip_blank by (apply blank_rev, Hb). reflexivity.
Qed.

(** ** Name *)

(** [Name(value)] fails exactly on a text of white space only (the empty
    text too).  Otherwise it stores the trimmed text, which is not empty,
    and building a Name from the stored text gives the same Name. *)
Theorem Name_init_spec (value : str) :
  (blank value ->
   Name_init value = Raise (ValueError (lit "Name cannot be empty.")))
  /\ (~ blank value ->
      exists n,
        Name_init value = Ok n
        /\ name_value n = strip value
        /\ name_value n <> []
        /\ strip (name_value n) = name_value n
        /\ Name_init (name_value n) = Ok n).
Proof.
  split; intros H.
  - apply strip_nil_iff in H. unfold Name_init. rewrite H. reflexivity.
  - assert (strip value <> []) as Hs by (rewrite strip_nil_iff; exact H).
    exists (mkName (strip value)). cbn [name_value].
    rewrite (Name_init_ok _ Hs).
    repeat split; auto using strip_idempotent.
    unfold Name_init. rewrite strip_idempotent.
    destruct (strip value); [congruence|reflexivity].
Qed.

Lemma Name_init_spec_witness :
  Name_init (lit "   ") = Raise (ValueError (lit "Name cannot be empty."))
  /\ exists n,
      Name_init (lit "  Bob  ") = Ok n
      /\ name_value n = strip (lit "  Bob  ")
      /\ name_value n <> []
      /\ strip (name_value n) = name_value n
      /\ Name_init (name_value n) = Ok n.
Proof.
  split.
  - apply (proj1 (Name_init_spec (lit "   "))). repeat constructor.
  - apply (proj2 (Name_init_spec (lit "  Bob  "))).
    intros H. inversion H as [|c l _ H']. inversion H' as [|c' l' _ H''].
    inversion H'' as [|c'' l'' Hb _]. discriminate Hb.
Defined.

(** ** Record: adding and removing phones *)

Lemma add_phone_ok (phone : str) (self : Record_) :
  Phone__validate phone = true ->
  add_phone phone self
  = (Ok tt, set_phones self (rec_phones self ++ [mkPhone phone])).
Proof.
  intros H. unfold add_phone, bind, eval, get, put.
  rewrite (Phone_init_valid _ H). reflexivity.
Qed.

Lemma add_phone_raises (phone : str) (self : Record_) :
  Phone__validate phone = false ->
  add_phone phone self
  = (Raise (ValueError (lit "Phone number must be exactly 10 digits.")), self).
Proof.
  intros H. unfold add_phone, bind, eval, get, put.
  rewrite (Phone_init_invalid _ H). reflexivity.
Qed.

(** [add_phone] with ten decimal digits puts them after the phones the
    record has, whether they are among them already or not; with any other
    text it raises and the record is as before. *)
Theorem add_phone_spec (phone : str) (self : Record_) :
  (ten_digits phone ->
   add_phone phone self
   = (Ok tt, set_phones self (rec_phones self ++ [mkPhone phone])))
  /\ (~ ten_digits phone ->
      add_phone phone self
      = (Raise (ValueError (lit "Phone number must be exactly 10 digits.")),
         self)).
Proof.
  split; intros H.
  - apply add_phone_ok, Phone__validate_true, H.
  - apply add_phone_raises. destruct (Phone__validate phone) eqn:V; auto.
    apply Phone__validate_true in V. contradiction.
Qed.

Lemma add_phone_spec_witness :
  let self := mkRecord (mkName (lit "Bob")) [mkPhone (lit "1111111111")] None in
  add_phone (lit "1111111111") self
  = (Ok tt, set_phones self [mkPhone (lit "1111111111");
                             mkPhone (lit "1111111111")])
  /\ add_phone (lit "111") self
     = (Raise (ValueError (lit "Phone number must be exactly 10 digits.")),
        self).
Proof.
  intros self. split.
  - apply (proj1 (add_phone_spec (lit "1111111111") self)).
    split; [reflexivity|repeat constructor].
  - apply (proj2 (add_phone_spec (lit "111") self)).
    intros [L _]. discriminate L.
Defined.

Lemma filter_none {A} (f : A -> bool) (l : list A) :
  Forall (fun x => f x = true) l -> filter f l = l.
Proof.
  induction 1 as [|x l Hx _ IH]; simpl; [reflexivity|].
  rewrite Hx, IH. reflexivity.
Qed.


(** Adding a valid phone that the record does not have and removing it
    again gives the record back. *)
Theorem add_then_remove_phone (phone : str) (self : Record_) :
  Phone__validate phone = true ->
  ~ In phone (map phone_value (rec_phones self)) ->
  exists self',
    add_phone phone self = (Ok tt, self')
    /\ remove_phone phone self' = (Ok tt, self).
Proof.
  intros Hv Hn. eexists. split; [apply add_phone_ok, Hv|].
  unfold remove_phone, bind, get, put. cbn [set_phones rec_phones rec_name
                                            rec_birthday].
  rewrite filter_app. cbn [filter phone_value]. rewrite str_eqb_refl.
  cbn [negb]. rewrite app_nil_r, filter_none; [destruct self; reflexivity|].
  apply Forall_forall. intros p Hp. apply negb_true_iff, str_eqb_neq.
  intros E. apply Hn. rewrite <- E. apply in_map, Hp.
Qed.

Lemma add_then_remove_phone_witness :
  let self := mkRecord (mkName (lit "Bob")) [mkPhone (lit "1111111111")] None in
  exists self',
    add_phone (lit "2222222222") self = (Ok tt, self')
    /\ remove_phone (lit "2222222222") self' = (Ok tt, self).
Proof.
  intros self. apply (add_then_remove_phone (lit "2222222222") self eq_refl).
  simpl. intros [H|[]]. discriminate H.
Defined.

(** ** Record: the birthday *)

Lemma Birthday_init_accepted (raw : str) :
  accepted_date raw -> Birthday_init raw = Ok (mkBirthday raw).
Proof.
  intros H. apply strptime_accepted in H. destruct H as [dt H].
  unfold Birthday_init, Birthday_validate_birthday. rewrite H. reflexivity.
Qed.

Lemma Birthday_init_rejected (raw : str) :
  ~ accepted_date raw ->
  Birthday_init raw
  = Raise (ValueError (lit "Date must be in format DD.MM.YYYY.")).
Proof.
  intros H. apply strptime_rejected in H. destruct H as (e & H & He).
  unfold Birthday_init, Birthday_validate_birthday. rewrite H, He.
  reflexivity.
Qed.

Lemma add_birthday_ok (birthday : str) (self : Record_) :
  accepted_date birthday ->
  add_birthday birthday self
  = (Ok tt, mkRecord (rec_name self) (rec_phones self)
                     (Some (mkBirthday birthday))).
Proof.
  intros H. unfold add_birthday, bind, eval, get, put.
  rewrite (Birthday_init_accepted _ H). reflexivity.
Qed.

Lemma add_birthday_raises (birthday : str) (self : Record_) :
  ~ accepted_date birthday ->
  add_birthday birthday self
  = (Raise (ValueError (lit "Date must be in format DD.MM.YYYY.")), self).
Proof.
  intros H. unfold add_birthday, bind, eval, get, put.
  rewrite (Birthday_init_rejected _ H). reflexivity.
Qed.

(** [add_birthday] with an accepted date sets the birthday, in the place of
    the one the record had, and leaves name and phones; with any other
    text it raises and the record, with its old birthday, is as before. *)
Theorem add_birthday_spec (birthday : str) (self : Record_) :
  (accepted_date birthday ->
   add_birthday birthday self
   = (Ok tt, mkRecord (rec_name self) (rec_phones self)
                      (Some (mkBirthday birthday))))
  /\ (~ accepted_date birthday ->
      add_birthday birthday self
      = (Raise (ValueError (lit "Date must be in format DD.MM.YYYY.")),
         self)).
Proof.
  split; [apply add_birthday_ok|apply add_birthday_raises].
Qed.

Lemma add_birthday_spec_witness :
  let self := mkRecord (mkName (lit "Bob")) []
                       (Some (mkBirthday (lit "01.01.1990"))) in
  add_birthday (lit "29.02.2024") self
  = (Ok tt, mkRecord (mkName (lit "Bob")) []
                     (Some (mkBirthday (lit "29.02.2024"))))
  /\ add_birthday (lit "29.02.2023") self
     = (Raise (ValueError (lit "Date must be in format DD.MM.YYYY.")), self).
Proof.
  intros self. split.
  - apply (proj1 (add_birthday_spec (lit "29.02.2024") self)).
    apply strict_accepted.
    exists (ch "2"), (ch "9"), (ch "0"), (ch "2"),
           (ch "2"), (ch "0"), (ch "2"), (ch "4").
    split; [reflexivity|]. split; [repeat constructor|].
    vm_compute. repeat split; discriminate.
  - apply (proj2 (add_birthday_spec (lit "29.02.2023") self)).
    intros H. apply Birthday_init_accepted in H. vm_compute in H.
    discriminate H.
Defined.

(** ** AddressBook: a new name, and looking names up *)

Lemma dict_get_none_keys {V} (key : str) (d : dict V) :
  dict_get key d = None ->
  Forall (fun kv => negb (str_eqb (fst kv) key) = true) d.
Proof.
  induction d as [|[k v] d IH]; simpl; [constructor|].
  destruct (str_eqb k key) eqn:E; [discriminate|].
  intros H. constructor; [simpl; rewrite E; reflexivity|apply IH, H].
Qed.

(** A record under a name that the book does not have goes after the
    entries of the book, and [find] then finds it; deleting the name again
    gives the book back. *)
Theorem add_record_new_then_delete (book : AddressBook) (record : Record_) :
  let key := name_value (rec_name record) in
  dict_get key (data book) = None ->
  exists book',
    add_record record book = (Ok tt, book')
    /\ data book' = data book ++ [(key, record)]
    /\ (forall name, strip name = key ->
                     find name book' = (Ok (Some record), book'))
    /\ delete key book' = (Ok tt, book).
Proof.
  intros key H. exists (mkAddressBook (data book ++ [(key, record)])).
  split; [|split; [reflexivity|split]].
  - unfold add_record, bind, get, put. fold key.
    rewrite (dict_setitem_absent _ _ _ H). reflexivity.
  - intros name Hn. unfold find, bind, get, ret. cbn [data]. rewrite Hn.
    rewrite (dict_get_last _ _ _ H). reflexivity.
  - unfold delete, bind, get, put, dict_contains. cbn [data].
    rewrite (dict_get_last _ _ _ H). unfold dict_delitem.
    rewrite filter_app. cbn [filter fst]. rewrite str_eqb_refl. cbn [negb].
    rewrite app_nil_r, (filter_none _ _ (dict_get_none_keys _ _ H)).
    destruct book; reflexivity.
Qed.

Lemma add_record_new_then_delete_witness :
  let book := mkAddressBook
                [(lit "Al", Record_init (mkName (lit "Al")) None None)] in
  let record := Record_init (mkName (lit "Bob")) None None in
  exists book',
    add_record record book = (Ok tt, book')
    /\ data book' = data book ++ [(lit "Bob", record)]
    /\ (forall name, strip name = lit "Bob" ->
                     find name book' = (Ok (Some record), book'))
    /\ delete (lit "Bob") book' = (Ok tt, book).
Proof.
  intros book record.
  exact (add_record_new_then_delete book record eq_refl).
Defined.

Lemma length_lstrip (s : str) : (List.length (lstrip s) <= List.length s)%nat.
Proof.
  destruct (lstrip_split s) as (p & Hp & _). rewrite Hp at 2.
  rewrite length_app. lia.
Qed.

Lemma length_strip (s : str) : (List.length (strip s) <= List.length s)%nat.
Proof.
  unfold strip, rstrip. rewrite length_rev.
  pose proof (length_lstrip (rev (lstrip s))) as H. rewrite length_rev in H.
  pose proof (length_lstrip s). lia.
Qed.

(** [find] does not mind white space around the name; [delete] does: in a
    book whose keys are trimmed names, a name with white space around it
    is found as the name itself is, and deleting it raises the KeyError
    and leaves the book as it is. *)
Theorem find_trims_delete_does_not (book : AddressBook) (a name b : str) :
  keys_trimmed book -> blank a -> blank b -> a ++ b <> [] ->
  find (a ++ name ++ b) book = find name book
  /\ delete (a ++ name ++ b) book
     = (Raise (KeyError (lit "Contact " ++ (a ++ name ++ b)
                             ++ lit " not found.")), book).
Proof.
  intros Hk Ha Hb Hab. split.
  - unfold find, bind, get, ret. rewrite (strip_padding a name b Ha Hb).
    reflexivity.
  - unfold delete, bind, get, raise.
    destruct (dict_contains (a ++ name ++ b) (data book)) eqn:E;
      [|reflexivity].
    exfalso. apply dict_get_In in E. unfold keys_trimmed in Hk.
    rewrite Forall_forall in Hk. apply Hk in E.
    rewrite (strip_padding a name b Ha Hb) in E.
    pose proof (length_strip name) as L. rewrite E in L.
    rewrite !length_app in L.
    destruct a, b; simpl in *; try congruence; lia.
Qed.

Lemma find_trims_delete_does_not_witness :
  let bob := Record_init (mkName (lit "Bob")) None None in
  let book := mkAddressBook [(lit "Bob", bob)] in
  find (lit " " ++ lit "Bob" ++ lit "  ") book = find (lit "Bob") book
  /\ delete (lit " " ++ lit "Bob" ++ lit "  ") book
     = (Raise (KeyError (lit "Contact " ++ (lit " " ++ lit "Bob" ++ lit "  ")
                             ++ lit " not found.")), book).
Proof.
  intros bob book.
  apply (find_trims_delete_does_not book (lit " ") (lit "Bob") (lit "  "));
    try (repeat constructor); discriminate.
Defined.

(** ** Dates: what [strptime] returns *)

Lemma strptime_ok (raw : str) (dt : datetime) :
  strptime raw = Ok dt ->
  exists y m d,
    dt = mkdatetime y m d 0 0 0 0
    /\ 1 <= y <= 9999 /\ 1 <= m <= 12 /\ 1 <= d <= _days_in_month y m.
Proof.
  intros H. destruct (re_match format_regex raw) as [[rest g]|] eqn:E.
  - pose proof E as E'. apply re_match_format_sound in E'.
    destruct E' as (w & ds & ms & ys & d & m & y & -> & F & ->).
    destruct rest as [|c rest].
    + rewrite app_nil_r in *. rewrite (strptime_form _ _ _ _ _ _ _ F) in H.
      destruct F as (_ & Fd & Fm & Fy).
      apply day_text_int in Fd. apply month_text_int in Fm.
      apply year_text_int in Fy.
      destruct (date_checked_cases y m d) as [Hok Hbad]; [tauto|tauto|lia|].
      assert (1 <= y /\ d <= _days_in_month y m) as Hv.
      { destruct (Z_le_dec 1 y) as [Hy|Hy];
          [destruct (Z_le_dec d (_days_in_month y m)) as [Hd|Hd]|]; auto;
          (destruct Hbad as [msg Hm]; [lia|rewrite Hm in H; discriminate]). }
      rewrite (Hok Hv) in H. inversion H; subst.
      exists y, m, d. repeat split; try tauto; lia.
    + unfold strptime in H. rewrite E in H. discriminate.
  - unfold strptime in H. rewrite E in H. discriminate.
Qed.

(** ** Dates: the last day of February *)

Lemma upcoming_loop_raises (today : datetime) (days : Z)
      (records : list Record_) (r : Record_) :
  In r records ->
  (exists e, days_to_birthday today r = Raise e) ->
  forall upcoming,
    exists e, upcoming_loop today days records upcoming = Raise e.
Proof.
  intros Hin [e He]. induction records as [|x records IH]; [contradiction|].
  intros upcoming. cbn [upcoming_loop].
  destruct Hin as [->|Hin].
  - unfold days_to_birthday in He. destruct (rec_birthday r) as [b|];
      [|discriminate].
    destruct (next_bday (birthday_value b) today) as [bday|e'];
      [discriminate|]. eexists. reflexivity.
  - destruct (rec_birthday x) as [b|]; [|apply IH, Hin].
    destruct (next_bday (birthday_value b) today) as [bday|e'];
      [|eexists; reflexivity].
    cbn [rbind].
    destruct ((0 <=? td_days (datetime_sub bday today))
              && (td_days (datetime_sub bday today) <? days));
      apply IH, Hin.
Qed.

(** A birthday on 29 February, in a year that is not a leap year:
    [days_to_birthday] raises the ValueError of [replace], and
    [upcoming_birthdays] raises for every book that holds such a record,
    whatever the other records are. *)
Theorem leap_day_birthday_raises (now : datetime) (self : Record_)
        (b : Birthday) (parsed : datetime) :
  rec_birthday self = Some b ->
  strptime (birthday_value b) = Ok parsed ->
  dt_month parsed = 2 -> dt_day parsed = 29 ->
  MINYEAR <= dt_year now <= MAXYEAR ->
  _is_leap (dt_year now) = false ->
  days_to_birthday now self
  = Raise (ValueError (lit "day is out of range for month"))
  /\ forall book days,
      In self (dict_values (data book)) ->
      exists e, upcoming_birthdays days now book = Raise e.
Proof.
  intros Hb Hp Hm Hd Hy Hl.
  assert (days_to_birthday now self
          = Raise (ValueError (lit "day is out of range for month"))) as H.
  { unfold days_to_birthday, next_bday. rewrite Hb, Hp. cbn [rbind].
    unfold replace_year, check_date_args, _days_in_month.
    rewrite Hm, Hd, Hl. unfold MINYEAR, MAXYEAR in *.
    replace (1 <=? dt_year now) with true by (symmetry; apply Z.leb_le; lia).
    replace (dt_year now <=? 9999) with true
      by (symmetry; apply Z.leb_le; lia).
    reflexivity. }
  split; [exact H|].
  intros book days Hin. unfold upcoming_birthdays.
  apply (upcoming_loop_raises now _ _ self Hin). eauto.
Qed.

Lemma leap_day_birthday_raises_witness :
  let self := mkRecord (mkName (lit "Leap")) []
                       (Some (mkBirthday (lit "29.02.2000"))) in
  let now := mkdatetime 2023 3 1 9 30 0 0 in
  days_to_birthday now self
  = Raise (ValueError (lit "day is out of range for month"))
  /\ forall book days,
      In self (dict_values (data book)) ->
      exists e, upcoming_birthdays days now book = Raise e.
Proof.
  intros self now.
  apply (leap_day_birthday_raises now self (mkBirthday (lit "29.02.2000"))
                                  (mkdatetime 2000 2 29 0 0 0 0));
    try reflexivity.
  unfold MINYEAR, MAXYEAR. simpl. lia.
Defined.

(** ** The records that [upcoming_birthdays] returns *)

Lemma upcoming_loop_ok (today : datetime) (days : Z)
      (records : list Record_) :
  forall upcoming result,
    upcoming_loop today days records upcoming = Ok result ->
    result = upcoming ++ filter (in_window today days) records.
Proof.
  induction records as [|r records IH]; intros upcoming result H;
    cbn [upcoming_loop filter] in *.
  - inversion H. rewrite app_nil_r. reflexivity.
  - unfold in_window at 1. unfold days_to_birthday.
    destruct (rec_birthday r) as [b|]; [|apply IH, H].
    destruct (next_bday (birthday_value b) today) as [bday|e];
      cbn [rbind] in *; [|discriminate].
    destruct ((0 <=? td_days (datetime_sub bday today))
              && (td_days (datetime_sub bday today) <? days)).
    + apply IH in H. rewrite H, <- app_assoc. reflexivity.
    + apply IH, H.
Qed.

(** When [upcoming_birthdays] returns, it returns the records of the book
    that have a birthday with a day count from 0 to below the window, in
    the order of the book and each once per entry; a window of 0 days or
    less gives no record, and a record returned for one window is returned
    for every larger one. *)
Theorem upcoming_birthdays_result (days : option Z) (now : datetime)
        (book : AddressBook) (result : list Record_) :
  upcoming_birthdays days now book = Ok result ->
  let window := match days with Some d => d | None => 7 end in
  result = filter (in_window now window) (dict_values (data book))
  /\ (forall r, In r result ->
                exists b n, rec_birthday r = Some b
                            /\ days_to_birthday now r = Ok (Some n)
                            /\ 0 <= n < window)
  /\ (window <= 0 -> result = [])
  /\ (forall larger result',
         window <= larger ->
         upcoming_birthdays (Some larger) now book = Ok result' ->
         incl result result').
Proof.
  intros H window. unfold upcoming_birthdays in H. fold window in H.
  apply upcoming_loop_ok in H. cbn [app] in H.
  assert (forall w r, In r (filter (in_window now w)
                                   (dict_values (data book))) ->
                      exists b n, rec_birthday r = Some b
                                  /\ days_to_birthday now r = Ok (Some n)
                                  /\ 0 <= n < w) as Hin.
  { intros w r Hr. apply filter_In in Hr. destruct Hr as [_ Hr].
    unfold in_window in Hr.
    destruct (days_to_birthday now r) as [[n|]|e] eqn:E; try discriminate.
    apply andb_true_iff in Hr. rewrite Z.leb_le, Z.ltb_lt in Hr.
    unfold days_to_birthday in E.
    destruct (rec_birthday r) as [b|] eqn:B; [|discriminate].
    exists b, n. repeat split; try tauto. }
  split; [exact H|]. split; [|split].
  - intros r Hr. rewrite H in Hr. apply (Hin window r Hr).
  - intros Hw. destruct result as [|r result]; [reflexivity|].
    destruct (Hin window r) as (b & n & _ & _ & Hn);
      [rewrite <- H; left; reflexivity|lia].
  - intros larger result' Hl H'. unfold upcoming_birthdays in H'.
    apply upcoming_loop_ok in H'. cbn [app] in H'. subst result result'.
    intros r Hr. pose proof (Hin window r Hr) as (b & n & _ & E & Hn).
    apply filter_In in Hr. apply filter_In. split; [tauto|].
    unfold in_window. rewrite E.
    apply andb_true_iff. rewrite Z.leb_le, Z.ltb_lt. lia.
Qed.

Lemma upcoming_birthdays_result_witness :
  let contact := fun name value : string =>
                   mkRecord (mkName (lit name)) []
                            (Some (mkBirthday (lit value))) in
  let book := mkAddressBook
                [(lit "Ann", contact "Ann"%string "10.06.1990"%string);
                 (lit "Bob", contact "Bob"%string "12.06.1990"%string)] in
  let now := mkdatetime 2024 6 10 12 0 0 0 in
  let result := [contact "Bob"%string "12.06.1990"%string] in
  result = filter (in_window now 7) (dict_values (data book))
  /\ (forall r, In r result ->
                exists b n, rec_birthday r = Some b
                            /\ days_to_birthday now r = Ok (Some n)
                            /\ 0 <= n < 7)
  /\ (7 <= 0 -> result = [])
  /\ (forall larger result',
         7 <= larger ->
         upcoming_birthdays (Some larger) now book = Ok result' ->
         incl result result').
Proof.
  intros contact book now result.
  exact (upcoming_birthdays_result None now book result eq_refl).
Defined.

(** ** Dates: the range of the day count *)

Lemma days_before_year_succ (y : Z) :
  _days_before_year (y + 1)
  = _days_before_year y + 365 + (if _is_leap y then 1 else 0).
Proof.
  unfold _days_before_year, _is_leap. replace (y + 1 - 1) with y by lia.
  destruct (y mod 4 =? 0) eqn:E4; destruct (y mod 100 =? 0) eqn:E100;
    destruct (y mod 400 =? 0) eqn:E400; cbn [andb orb negb];
    rewrite ?Z.eqb_eq, ?Z.eqb_neq in *;
    Z.div_mod_to_equations; lia.
Qed.

Lemma month_cases (m : Z) :
  1 <= m <= 12 ->
  m = 1 \/ m = 2 \/ m = 3 \/ m = 4 \/ m = 5 \/ m = 6 \/ m = 7 \/ m = 8
  \/ m = 9 \/ m = 10 \/ m = 11 \/ m = 12.
Proof. lia. Qed.

Ltac each_month H :=
  apply month_cases in H;
  repeat (destruct H as [H|H]; [subst|]); subst.

Lemma days_before_month_bounds (y m : Z) :
  1 <= m <= 12 ->
  0 <= _days_before_month y m
  /\ _days_before_month y m + _days_in_month y m
     <= 365 + (if _is_leap y then 1 else 0).
Proof.
  intros Hm. unfold _days_before_month, _days_in_month.
  each_month Hm; destruct (_is_leap y); simpl; lia.
Qed.

Lemma days_before_month_mono (y m m' : Z) :
  1 <= m <= 12 -> 1 <= m' <= 12 -> m < m' ->
  _days_before_month y m + _days_in_month y m <= _days_before_month y m'.
Proof.
  intros Hm Hm' Hlt. unfold _days_before_month, _days_in_month.
  each_month Hm; each_month Hm'; try lia; destruct (_is_leap y); simpl; lia.
Qed.

Lemma days_before_month_after_february (y m : Z) :
  1 <= m <= 12 -> 2 < m -> 59 <= _days_before_month y m.
Proof.
  intros Hm H2. unfold _days_before_month.
  each_month Hm; try lia; destruct (_is_leap y); simpl; lia.
Qed.

Lemma days_before_month_next_year (y m : Z) :
  _days_before_month (y + 1) m
  = _days_before_month y m
    + (if 2 <? m
       then (if _is_leap (y + 1) then 1 else 0)
            - (if _is_leap y then 1 else 0)
       else 0).
Proof.
  unfold _days_before_month.
  destruct (2 <? m), (_is_leap (y + 1)), (_is_leap y); simpl; lia.
Qed.

Lemma replace_year_ok (dt : datetime) (year : Z) (dt' : datetime) :
  replace_year dt year = Ok dt' ->
  dt' = mkdatetime year (dt_month dt) (dt_day dt) (dt_hour dt)
                   (dt_minute dt) (dt_second dt) (dt_microsecond dt)
  /\ MINYEAR <= year <= MAXYEAR
  /\ 1 <= dt_day dt <= _days_in_month year (dt_month dt).
Proof.
  unfold replace_year, check_date_args.
  destruct ((MINYEAR <=? year) && (year <=? MAXYEAR)) eqn:Y;
    cbn [negb]; [|discriminate].
  destruct ((1 <=? dt_month dt) && (dt_month dt <=? 12)) eqn:Mo;
    cbn [negb]; [|discriminate].
  destruct ((1 <=? dt_day dt)
            && (dt_day dt <=? _days_in_month year (dt_month dt))) eqn:D;
    cbn [negb rbind]; [|discriminate].
  intros H. inversion H.
  apply andb_true_iff in Y, D. rewrite !Z.leb_le in Y, D. tauto.
Qed.

Lemma since_midnight_range (now : datetime) :
  valid_datetime now -> 0 <= since_midnight now < 86400000000.
Proof.
  unfold valid_datetime, since_midnight, time_of_day. lia.
Qed.

(** Midnight of a day of this year is before [now] when the day is before
    today, or is today and the time is past midnight. *)
Lemma midnight_lt_now (m d : Z) (now : datetime) :
  valid_datetime now ->
  datetime_lt (mkdatetime (dt_year now) m d 0 0 0 0) now = true
  <-> m < dt_month now
      \/ (m = dt_month now
          /\ (d < dt_day now
              \/ (d = dt_day now /\ 0 < since_midnight now))).
Proof.
  intros Hv. unfold valid_datetime, since_midnight, time_of_day in *.
  unfold datetime_lt, datetime_fields, tuple_lt.
  cbn [dt_year dt_month dt_day dt_hour dt_minute dt_second dt_microsecond].
  rewrite !orb_true_iff, !andb_true_iff, !Z.ltb_lt, !Z.eqb_eq.
  split; intros H; [|assert (dt_year now < dt_year now -> False) by lia];
    intuition (try discriminate; try lia).
Qed.

(** When [days_to_birthday] returns a number, the number is from 0 to 365. *)
Theorem days_to_birthday_range (now : datetime) (self : Record_) (n : Z) :
  valid_datetime now ->
  days_to_birthday now self = Ok (Some n) ->
  0 <= n <= 365.
Proof.
  intros Hv H. unfold days_to_birthday in H.
  destruct (rec_birthday self) as [b|]; [|discriminate].
  destruct (next_bday (birthday_value b) now) as [bday|e] eqn:N;
    cbn [rbind] in H; [|discriminate].
  assert (n = td_days (datetime_sub bday now)) as -> by congruence.
  clear H. unfold next_bday in N.
  destruct (strptime (birthday_value b)) as [parsed|e] eqn:S;
    cbn [rbind] in N; [|discriminate].
  apply strptime_ok in S. destruct S as (y & m & d & -> & _ & Hm & _).
  destruct (replace_year (mkdatetime y m d 0 0 0 0) (dt_year now))
    as [bday0|e] eqn:R0; cbn [rbind] in N; [|discriminate].
  apply replace_year_ok in R0. cbn [dt_month dt_day dt_hour dt_minute
                                     dt_second dt_microsecond] in R0.
  destruct R0 as (-> & _ & Hd).
  pose proof (since_midnight_range now Hv) as Hx.
  pose proof (midnight_lt_now m d now Hv) as Hlt.
  pose proof Hv as (Hy & Htm & Htd & _).
  set (Y := dt_year now) in *. set (tm := dt_month now) in *.
  set (td := dt_day now) in *. set (x := since_midnight now) in *.
  pose proof (days_before_month_bounds Y m Hm) as (Bm0 & Bm1).
  pose proof (days_before_month_bounds Y tm Htm) as (Bt0 & Bt1).
  destruct (datetime_lt (mkdatetime Y m d 0 0 0 0) now) eqn:L.
  - apply replace_year_ok in N. cbn [dt_month dt_day dt_hour dt_minute
                                     dt_second dt_microsecond] in N.
    destruct N as (-> & _ & Hd1).
    rewrite datetime_sub_days by (try reflexivity; exact Hx).
    fold x. unfold toordinal, _ymd2ord. cbn [dt_year dt_month dt_day].
    fold Y tm td.
    rewrite days_before_year_succ, days_before_month_next_year.
    apply proj1 in Hlt. specialize (Hlt eq_refl).
    assert (m < tm -> _days_before_month Y m + _days_in_month Y m
                     <= _days_before_month Y tm) as Hmono
        by (intros; apply days_before_month_mono; auto).
    pose proof (days_before_month_after_february Y m Hm) as Hfeb.
    clearbody Y tm td x.
    destruct Hlt as [Hlt|[<- Hlt]];
      (destruct (x =? 0) eqn:X; [apply Z.eqb_eq in X|apply Z.eqb_neq in X]);
      (destruct (2 <? m) eqn:M2;
       [apply Z.ltb_lt in M2|apply Z.ltb_ge in M2]);
      destruct (_is_leap (Y + 1)), (_is_leap Y); lia.
  - inversion N; subst bday.
    rewrite datetime_sub_days by (try reflexivity; exact Hx).
    fold x. unfold toordinal, _ymd2ord. cbn [dt_year dt_month dt_day].
    fold Y tm td.
    assert (~ (m < tm \/ (m = tm /\ (d < td \/ (d = td /\ 0 < x)))))
      as Hge by (intros C; apply Hlt in C; discriminate).
    assert (tm < m -> _days_before_month Y tm + _days_in_month Y tm
                     <= _days_before_month Y m) as Hmono
        by (intros; apply days_before_month_mono; auto).
    clearbody Y tm td x.
    assert (tm < m \/ (m = tm /\ td <= d /\ (td = d -> x = 0)))
      as [Hgt|(-> & Hge1 & Hge2)] by lia;
      (destruct (x =? 0) eqn:X; [apply Z.eqb_eq in X|apply Z.eqb_neq in X]);
      destruct (_is_leap Y); lia.
Qed.

Lemma days_to_birthday_range_witness :
  0 <= 364 <= 365.
Proof.
  apply (days_to_birthday_range
           (mkdatetime 2024 6 10 12 0 0 0)
           (mkRecord (mkName (lit "Ann")) []
                     (Some (mkBirthday (lit "10.06.1990"))))).
  - vm_compute. repeat split; try reflexivity; discriminate.
  - reflexivity.
Defined.

(** ** The commands *)

Lemma dict_setitem_same {V} (key : str) (v : V) (d : dict V) :
  dict_get key d = Some v -> dict_setitem key v d = d.
Proof.
  induction d as [|[k u] d IH]; simpl; [discriminate|].
  destruct (str_eqb k key) eqn:E.
  - intros H. inversion H. reflexivity.
  - intros H. rewrite IH by exact H. reflexivity.
Qed.

(** A method that raises without changing the record leaves the book as it
    is. *)
Lemma on_record_unchanged {A} (key : str) (m : M Record_ A)
      (book : AddressBook) (r : Record_) (res : res A) :
  dict_get key (data book) = Some r -> m r = (res, r) ->
  on_record key m book = (res, book).
Proof.
  intros Hg Hm. unfold on_record. rewrite Hg, Hm.
  rewrite (dict_setitem_same _ _ _ Hg). destruct book; reflexivity.
Qed.

Lemma on_record_changed {A} (key : str) (m : M Record_ A)
      (book : AddressBook) (r r' : Record_) (res : res A) :
  dict_get key (data book) = Some r -> m r = (res, r') ->
  on_record key m book
  = (res, mkAddressBook (dict_setitem key r' (data book))).
Proof. intros Hg Hm. unfold on_record. rewrite Hg, Hm. reflexivity. Qed.

Lemma find_get (name : str) (book : AddressBook) (o : option Record_) :
  fst (find name book) = Ok o -> dict_get (strip name) (data book) = o.
Proof. unfold find, bind, get, ret. simpl. congruence. Qed.

(** What [edit_phone] does, case by case. *)
Lemma edit_phone_outcome (self : Record_) (old new : str) :
  (In old (map phone_value (rec_phones self)) ->
   exists before p after,
     rec_phones self = before ++ p :: after
     /\ phone_value p = old
     /\ Forall (fun q => phone_value q <> old) before
     /\ edit_phone old new self
        = match Phone_init new with
          | Ok q => (Ok tt, set_phones self (before ++ q :: after))
          | Raise e => (Raise e, self)
          end)
  /\ (~ In old (map phone_value (rec_phones self)) ->
      edit_phone old new self
      = (Raise (ValueError (lit "Phone number " ++ old ++ lit " not found.")),
         self)).
Proof.
  unfold edit_phone, bind, get. split.
  - intros Hin.
    destruct (first_occurrence _ _ Hin) as (before & p & after & Hs & Hp & Hb).
    exists before, p, after. repeat split; auto.
    rewrite Hs at 1. rewrite edit_phone_loop_skip by exact Hb.
    cbn [Nat.add]. apply (edit_phone_loop_found old new self _ _ _ Hs Hp).
  - intros Hn. apply not_in_Forall in Hn.
    rewrite <- (app_nil_r (rec_phones self)).
    rewrite edit_phone_loop_skip by exact Hn. reflexivity.
Qed.

Ltac run_cmd :=
  cbv beta iota zeta delta
      [change_contact change_contact_func show_phone show_phone_func
       cmd_add_birthday cmd_add_birthday_func add_contact add_contact_func
       input_error bind find get ret raise eval put
       List.length Nat.ltb Nat.leb nth].

(** [change] for a contact of the book: the first phone equal to the old
    one is replaced and the other entries of the book stay; when the old
    phone is not there, or the new one is not valid, the answer is the
    error and the book is as before. *)
Theorem change_contact_found (book : AddressBook) (name old new : str)
        (r : Record_) :
  fst (find name book) = Ok (Some r) ->
  (In old (map phone_value (rec_phones r)) ->
   Phone__validate new = true ->
   exists before p after,
     rec_phones r = before ++ p :: after
     /\ phone_value p = old
     /\ Forall (fun q => phone_value q <> old) before
     /\ change_contact [name; old; new] book
        = (Ok (Text (lit "Phone for '" ++ name ++ lit "' updated.")),
           mkAddressBook
             (dict_setitem (strip name)
                           (set_phones r (before ++ mkPhone new :: after))
                           (data book))))
  /\ (~ In old (map phone_value (rec_phones r)) ->
      change_contact [name; old; new] book
      = (Ok (Text (lit "Error: " ++ lit "Phone number " ++ old
                       ++ lit " not found.")), book))
  /\ (In old (map phone_value (rec_phones r)) ->
      Phone__validate new = false ->
      change_contact [name; old; new] book
      = (Ok (Text (lit "Error: Phone number must be exactly 10 digits.")),
         book)).
Proof.
  intros Hf. apply find_get in Hf.
  destruct (edit_phone_outcome r old new) as [Hin Hout].
  split; [|split].
  - intros Hi Hv. destruct (Hin Hi) as (before & p & after & Hs & Hp & Hb & E).
    exists before, p, after. repeat split; auto.
    rewrite (Phone_init_valid _ Hv) in E.
    run_cmd. rewrite Hf. run_cmd.
    rewrite (on_record_changed _ _ _ _ _ _ Hf E). reflexivity.
  - intros Hn. run_cmd. rewrite Hf. run_cmd.
    rewrite (on_record_unchanged _ _ _ _ _ Hf (Hout Hn)). reflexivity.
  - intros Hi Hv. destruct (Hin Hi) as (before & p & after & _ & _ & _ & E).
    rewrite (Phone_init_invalid _ Hv) in E.
    run_cmd. rewrite Hf. run_cmd.
    rewrite (on_record_unchanged _ _ _ _ _ Hf E). reflexivity.
Qed.

Lemma change_contact_found_witness :
  let bob := mkRecord (mkName (lit "Bob"))
                      [mkPhone (lit "1111111111"); mkPhone (lit "2222222222")]
                      None in
  let book := mkAddressBook [(lit "Bob", bob)] in
  change_contact [lit "Bob"; lit "9999999999"; lit "3333333333"] book
  = (Ok (Text (lit "Error: " ++ lit "Phone number " ++ lit "9999999999"
                   ++ lit " not found.")), book)
  /\ change_contact [lit "Bob"; lit "2222222222"; lit "33"] book
     = (Ok (Text (lit "Error: Phone number must be exactly 10 digits.")),
        book).
Proof.
  intros bob book.
  pose proof (change_contact_found book (lit "Bob") (lit "9999999999")
                                   (lit "3333333333") bob eq_refl)
    as (_ & H1 & _).
  pose proof (change_contact_found book (lit "Bob") (lit "2222222222")
                                   (lit "33") bob eq_refl)
    as (_ & _ & H2).
  split.
  - apply H1. simpl. intros [H|[H|[]]]; discriminate H.
  - apply H2; [right; left; reflexivity|reflexivity].
Defined.

(** [change] with fewer than three arguments, with more than three, and
    for a name that [find] does not find: the answer says so (for more
    than three it is the error of the unpacking), and the book is as
    before. *)
Theorem change_contact_edges (book : AddressBook) (args : list str) :
  ((List.length args < 3)%nat ->
   change_contact args book
   = (Ok (Text (lit "Error: Provide name, old phone, and new phone.")), book))
  /\ ((3 < List.length args)%nat ->
      change_contact args book
      = (Ok (Text (lit "Error: too many values to unpack (expected 3)")),
         book))
  /\ (forall name old new,
         args = [name; old; new] -> fst (find name book) = Ok None ->
         change_contact args book
         = (Ok (Text (lit "Contact '" ++ name ++ lit "' not found.")), book)).
Proof.
  split; [|split].
  - intros H. unfold change_contact, change_contact_func, input_error.
    replace (List.length args <? 3)%nat with true
      by (symmetry; apply Nat.ltb_lt; exact H).
    reflexivity.
  - intros H. destruct args as [|a [|b [|c [|d args]]]]; simpl in H; try lia.
    reflexivity.
  - intros name old new -> Hf. apply find_get in Hf.
    run_cmd. rewrite Hf. reflexivity.
Qed.

Lemma change_contact_edges_witness :
  let book := mkAddressBook
                [(lit "Bob", Record_init (mkName (lit "Bob")) None None)] in
  change_contact [lit "Bob"; lit "1111111111"] book
  = (Ok (Text (lit "Error: Provide name, old phone, and new phone.")), book)
  /\ change_contact [lit "Bob"; lit "1"; lit "2"; lit "3"] book
     = (Ok (Text (lit "Error: too many values to unpack (expected 3)")), book)
  /\ change_contact [lit "Al"; lit "1"; lit "2"] book
     = (Ok (Text (lit "Contact '" ++ lit "Al" ++ lit "' not found.")), book).
Proof.
  intros book. split; [|split].
  - apply (proj1 (change_contact_edges book _)). simpl. lia.
  - apply (proj1 (proj2 (change_contact_edges book _))). simpl. lia.
  - apply (proj2 (proj2 (change_contact_edges book _)) (lit "Al") (lit "1")
                 (lit "2") eq_refl eq_refl).
Defined.

(** [add-birthday] for a contact of the book: an accepted date becomes the
    birthday of the contact, in the place of the old one, and nothing else
    of the book changes; any other text is answered with the error and the
    book is as before.  For a name that [find] does not find the answer
    says so, and the book is as before. *)
Theorem cmd_add_birthday_spec (book : AddressBook) (name birthday : str)
        (rest : list str) :
  (forall r,
      fst (find name book) = Ok (Some r) ->
      (accepted_date birthday ->
       cmd_add_birthday (name :: birthday :: rest) book
       = (Ok (Text (lit "Birthday for '" ++ name ++ lit "' added.")),
          mkAddressBook
            (dict_setitem (strip name)
                          (mkRecord (rec_name r) (rec_phones r)
                                    (Some (mkBirthday birthday)))
                          (data book))))
      /\ (~ accepted_date birthday ->
          cmd_add_birthday (name :: birthday :: rest) book
          = (Ok (Text (lit "Error: Date must be in format DD.MM.YYYY.")),
             book)))
  /\ (fst (find name book) = Ok None ->
      cmd_add_birthday (name :: birthday :: rest) book
      = (Ok (Text (lit "Contact '" ++ name ++ lit "' not found.")), book)).
Proof.
  split.
  - intros r Hf. apply find_get in Hf. split; intros H.
    + run_cmd. rewrite Hf. run_cmd.
      rewrite (on_record_changed _ _ _ _ _ _ Hf
                 (add_birthday_ok birthday r H)).
      reflexivity.
    + run_cmd. rewrite Hf. run_cmd.
      rewrite (on_record_unchanged _ _ _ _ _ Hf
                 (add_birthday_raises birthday r H)).
      reflexivity.
  - intros Hf. apply find_get in Hf. run_cmd. rewrite Hf. reflexivity.
Qed.

Lemma cmd_add_birthday_spec_witness :
  let bob := Record_init (mkName (lit "Bob")) None None in
  let book := mkAddressBook [(lit "Bob", bob)] in
  cmd_add_birthday [lit "Bob"; lit "29.02.2024"] book
  = (Ok (Text (lit "Birthday for '" ++ lit "Bob" ++ lit "' added.")),
     mkAddressBook
       [(lit "Bob",
         mkRecord (mkName (lit "Bob")) []
                  (Some (mkBirthday (lit "29.02.2024"))))])
  /\ cmd_add_birthday [lit "Al"; lit "29.02.2024"] book
     = (Ok (Text (lit "Contact '" ++ lit "Al" ++ lit "' not found.")), book).
Proof.
  intros bob book.
  pose proof (cmd_add_birthday_spec book (lit "Bob") (lit "29.02.2024") [])
    as [Hfound _].
  pose proof (cmd_add_birthday_spec book (lit "Al") (lit "29.02.2024") [])
    as [_ Hnone].
  split; [|exact (Hnone eq_refl)].
  apply (proj1 (Hfound bob eq_refl)).
  apply strict_accepted.
  exists (ch "2"), (ch "9"), (ch "0"), (ch "2"),
         (ch "2"), (ch "0"), (ch "2"), (ch "4").
  split; [reflexivity|]. split; [repeat constructor|].
  vm_compute. repeat split; discriminate.
Defined.

(** [add] with a valid phone.  For a name that [find] finds, the phone is
    put after the phones of the contact; for a new name that is not blank,
    a contact with this one phone is put after the entries of the book.
    For a new name that is blank the answer is the error of [Name] and the
    book is as before.  Arguments after the phone are not looked at. *)
Theorem add_contact_valid (book : AddressBook) (name phone : str)
        (rest : list str) :
  Phone__validate phone = true ->
  (forall r,
      fst (find name book) = Ok (Some r) ->
      add_contact (name :: phone :: rest) book
      = (Ok (Text (lit "Contact '" ++ name ++ lit "' added or updated.")),
         mkAddressBook
           (dict_setitem (strip name)
                         (set_phones r (rec_phones r ++ [mkPhone phone]))
                         (data book))))
  /\ (fst (find name book) = Ok None -> ~ blank name ->
      add_contact (name :: phone :: rest) book
      = (Ok (Text (lit "Contact '" ++ name ++ lit "' added or updated.")),
         mkAddressBook
           (data book
              ++ [(strip name,
                   mkRecord (mkName (strip name)) [mkPhone phone] None)])))
  /\ (fst (find name book) = Ok None -> blank name ->
      add_contact (name :: phone :: rest) book
      = (Ok (Text (lit "Error: Name cannot be empty.")), book)).
Proof.
  intros Hv. split; [|split].
  - intros r Hf. apply find_get in Hf. run_cmd. rewrite Hf. run_cmd.
    rewrite (on_record_changed _ _ _ _ _ _ Hf
               (add_phone_ok phone r Hv)).
    reflexivity.
  - intros Hf Hn. apply find_get in Hf.
    assert (strip name <> []) as Hs by (rewrite strip_nil_iff; exact Hn).
    run_cmd. rewrite Hf. run_cmd. rewrite (Name_init_ok _ Hs). run_cmd.
    unfold add_record, bind, get, put. cbn [data].
    cbn [Record_init rec_name name_value].
    rewrite (dict_setitem_absent _ _ _ Hf).
    unfold on_record. cbn [data].
    rewrite (dict_get_last _ _ _ Hf).
    rewrite (add_phone_ok phone _ Hv).
    rewrite (dict_setitem_last _ _ _ _ Hf). reflexivity.
  - intros Hf Hb. apply find_get in Hf. apply strip_nil_iff in Hb.
    run_cmd. rewrite Hf. run_cmd. unfold Name_init. rewrite Hb.
    reflexivity.
Qed.

Lemma add_contact_valid_witness :
  let bob := mkRecord (mkName (lit "Bob")) [mkPhone (lit "1111111111")] None in
  let book := mkAddressBook [(lit "Bob", bob)] in
  add_contact [lit "Bob"; lit "2222222222"] book
  = (Ok (Text (lit "Contact '" ++ lit "Bob" ++ lit "' added or updated.")),
     mkAddressBook
       [(lit "Bob",
         mkRecord (mkName (lit "Bob"))
                  [mkPhone (lit "1111111111"); mkPhone (lit "2222222222")]
                  None)])
  /\ add_contact [lit "Al"; lit "2222222222"] book
     = (Ok (Text (lit "Contact '" ++ lit "Al" ++ lit "' added or updated.")),
        mkAddressBook
          [(lit "Bob", bob);
           (lit "Al",
            mkRecord (mkName (lit "Al")) [mkPhone (lit "2222222222")] None)]).
Proof.
  intros bob book.
  pose proof (add_contact_valid book (lit "Bob") (lit "2222222222") []
                                eq_refl) as (H1 & _ & _).
  pose proof (add_contact_valid book (lit "Al") (lit "2222222222") []
                                eq_refl) as (_ & H2 & _).
  split.
  - exact (H1 bob eq_refl).
  - apply (H2 eq_refl). intros H. inversion H as [|c l Hc _]. discriminate Hc.
Defined.

(** ** The commands that only show *)

(** [phone], [all] and [birthdays] never change the book.  [phone] answers
    with the name as it was typed and the phones of the contact, separated
    by commas, or says that the contact is not found; [all] on a book
    without contacts says so. *)
Theorem show_commands (book : AddressBook) :
  (forall args, snd (show_phone args book) = book)
  /\ snd (show_all book) = book
  /\ (forall days now, snd (show_birthdays days now book) = book)
  /\ (forall name rest r,
         fst (find name book) = Ok (Some r) ->
         fst (show_phone (name :: rest) book)
         = Ok (Text (name ++ lit ": "
                          ++ join (lit ", ")
                                  (map phone_value (rec_phones r)))))
  /\ (forall name rest,
         fst (find name book) = Ok None ->
         fst (show_phone (name :: rest) book)
         = Ok (Text (lit "Contact '" ++ name ++ lit "' not found.")))
  /\ (data book = [] -> fst (show_all book) = Ok (lit "No contacts found.")).
Proof.
  split; [|split; [|split; [|split; [|split]]]].
  - intros args. unfold show_phone. rewrite input_error_state.
    unfold show_phone_func.
    destruct (List.length args <? 1)%nat; [reflexivity|].
    cbv beta iota zeta delta [bind find get ret].
    destruct (dict_get (strip (nth 0 args [])) (data book)); reflexivity.
  - unfold show_all, bind, get, ret. destruct (data book); reflexivity.
  - intros days now. unfold show_birthdays.
    destruct (upcoming_birthdays days now book) as [[|r l]|[]];
      try reflexivity.
    destruct (all_some (map birthday_line (r :: l))); reflexivity.
  - intros name rest r Hf. apply find_get in Hf. run_cmd. rewrite Hf.
    reflexivity.
  - intros name rest Hf. apply find_get in Hf. run_cmd. rewrite Hf.
    reflexivity.
  - intros H. unfold show_all, bind, get, ret. rewrite H. reflexivity.
Qed.

Lemma show_commands_witness :
  let bob := mkRecord (mkName (lit "Bob"))
                      [mkPhone (lit "1111111111"); mkPhone (lit "2222222222")]
                      None in
  let book := mkAddressBook [(lit "Bob", bob)] in
  fst (show_phone [lit " Bob"] book)
  = Ok (Text (lit " Bob: 1111111111, 2222222222"))
  /\ fst (show_phone [lit "Al"] book)
     = Ok (Text (lit "Contact 'Al' not found."))
  /\ fst (show_all AddressBook_init) = Ok (lit "No contacts found.").
Proof.
  intros bob book.
  pose proof (show_commands book) as (_ & _ & _ & Hfound & Hnone & _).
  pose proof (show_commands AddressBook_init) as (_ & _ & _ & _ & _ & Hall).
  split; [|split].
  - exact (Hfound (lit " Bob") [] bob eq_refl).
  - exact (Hnone (lit "Al") [] eq_refl).
  - exact (Hall eq_refl).
Defined.

Lemma in_window_birthday (now : datetime) (w : Z) (r : Record_) :
  in_window now w r = true -> exists b, rec_birthday r = Some b.
Proof.
  unfold in_window, days_to_birthday.
  destruct (rec_birthday r) as [b|]; [eauto|discriminate].
Qed.

Lemma birthday_lines (l : list Record_) :
  Forall (fun r => exists b, rec_birthday r = Some b) l ->
  exists lines,
    all_some (map birthday_line l) = Some lines
    /\ lines = map (fun r => name_value (rec_name r) ++ lit ": "
                               ++ match rec_birthday r with
                                  | Some b => birthday_value b
                                  | None => []
                                  end) l.
Proof.
  induction 1 as [|r l [b Hb] _ (lines & Hl & El)]; simpl.
  - exists []. auto.
  - unfold birthday_line at 1. rewrite Hb, Hl. eexists. split; [reflexivity|].
    rewrite El. reflexivity.
Qed.

(** [birthdays]: when [upcoming_birthdays] returns no record the answer is
    "No upcoming birthdays."; when it returns records the answer has a line
    "name: birthday" for each, in their order, and is never the error of a
    missing birthday; when it raises a ValueError, as for a birthday on 29
    February in a common year, the answer is "Error: " and its message. *)
Theorem show_birthdays_spec (days : option Z) (now : datetime)
        (book : AddressBook) :
  (upcoming_birthdays days now book = Ok [] ->
   fst (show_birthdays days now book)
   = Ok (Text (lit "No upcoming birthdays.")))
  /\ (forall r result,
         upcoming_birthdays days now book = Ok (r :: result) ->
         fst (show_birthdays days now book)
         = Ok (Text (join newline
                          (map (fun r => name_value (rec_name r) ++ lit ": "
                                           ++ match rec_birthday r with
                                              | Some b => birthday_value b
                                              | None => []
                                              end) (r :: result))))
           /\ Forall (fun r => rec_birthday r <> None) (r :: result))
  /\ (forall msg,
         upcoming_birthdays days now book = Raise (ValueError msg) ->
         fst (show_birthdays days now book)
         = Ok (Text (lit "Error: " ++ msg))).
Proof.
  split; [|split].
  - intros H. unfold show_birthdays. rewrite H. reflexivity.
  - intros r result H.
    assert (Forall (fun r => exists b, rec_birthday r = Some b) (r :: result))
      as Hb.
    { unfold upcoming_birthdays in H. apply upcoming_loop_ok in H.
      cbn [app] in H. rewrite H. apply Forall_forall. intros x Hx.
      apply filter_In in Hx. eapply in_window_birthday, Hx. }
    split.
    + destruct (birthday_lines _ Hb) as (lines & Hl & El).
      unfold show_birthdays. rewrite H, Hl, El. reflexivity.
    + eapply Forall_impl; [|exact Hb]. cbn beta. intros x [b ->].
      discriminate.
  - intros msg H. unfold show_birthdays. rewrite H. reflexivity.
Qed.

Lemma show_birthdays_spec_witness :
  let ann := mkRecord (mkName (lit "Ann")) []
                      (Some (mkBirthday (lit "12.06.1990"))) in
  let leap := mkRecord (mkName (lit "Leap")) []
                       (Some (mkBirthday (lit "29.02.2000"))) in
  fst (show_birthdays None (mkdatetime 2024 6 10 12 0 0 0)
                      (mkAddressBook [(lit "Ann", ann)]))
  = Ok (Text (lit "Ann: 12.06.1990"))
  /\ fst (show_birthdays None (mkdatetime 2023 6 10 12 0 0 0)
                         (mkAddressBook [(lit "Ann", ann);
                                         (lit "Leap", leap)]))
     = Ok (Text (lit "Error: day is out of range for month")).
Proof.
  intros ann leap. split.
  - exact (proj1 (proj1 (proj2 (show_birthdays_spec
                                  None (mkdatetime 2024 6 10 12 0 0 0)
                                  (mkAddressBook [(lit "Ann", ann)])))
                        ann [] eq_refl)).
  - exact (proj2 (proj2 (show_birthdays_spec
                           None (mkdatetime 2023 6 10 12 0 0 0)
                           (mkAddressBook [(lit "Ann", ann);
                                           (lit "Leap", leap)])))
                 (lit "day is out of range for month") eq_refl).
Defined.

(** ** Reading a line *)

Lemma split_words_words (s : str) :
  forall w,
    Forall (fun c => Py_UNICODE_ISSPACE c = false) w ->
    Forall word (split_words s w).
Proof.
  assert (forall c w, Forall (fun c => Py_UNICODE_ISSPACE c = false) (c :: w)
                      -> word (rev (c :: w))) as Hrev.
  { intros c w H. split.
    - simpl. intros E. apply app_eq_nil in E. destruct E as [_ E].
      discriminate.
    - apply Forall_rev, H. }
  induction s as [|c s IH]; intros w Hw; cbn [split_words].
  - destruct w as [|x w]; [constructor|].
    constructor; [apply Hrev, Hw|constructor].
  - destruct (Py_UNICODE_ISSPACE c) eqn:E.
    + destruct w as [|x w]; [apply IH; constructor|].
      constructor; [apply Hrev, Hw|apply IH; constructor].
    + apply IH. constructor; assumption.
Qed.

Lemma word_strip (a : str) : word a -> strip a = a /\ ~ blank a.
Proof.
  intros [Hn Ha]. destruct a as [|c t]; [congruence|].
  destruct (rev (c :: t)) as [|z u] eqn:R.
  - apply (f_equal (@rev N)) in R. rewrite rev_involutive in R.
    discriminate.
  - assert (In z (c :: t)) as Hz by (apply in_rev; rewrite R; left; auto).
    rewrite Forall_forall in Ha. split.
    + apply (strip_id (c :: t) c t z u); auto. apply Ha. left. auto.
    + intros B. inversion B as [|? ? Hc _]. rewrite Ha in Hc by (left; auto).
      discriminate.
Qed.

(** The arguments that [parse_input] gives to a command are words: none is
    empty and none has white space in it, so each is unchanged by [strip]
    and [Name] accepts each as it is. *)
Theorem parse_input_args (lower : str -> str) (user_input : str) :
  Forall (fun a => word a /\ strip a = a /\ Name_init a = Ok (mkName a))
         (snd (parse_input lower user_input)).
Proof.
  unfold parse_input. cbn [snd].
  destruct (snd (split_space_once (strip user_input))) as [rest|];
    [|constructor].
  eapply Forall_impl; [|apply split_words_words; constructor].
  cbn beta. intros a Ha. destruct (word_strip a Ha) as [Hs Hb].
  repeat split; try apply Ha; auto.
  unfold Name_init. rewrite Hs. destruct a; [destruct Ha; congruence|].
  reflexivity.
Qed.

Lemma split_words_prefix (a s w : str) :
  Forall (fun c => Py_UNICODE_ISSPACE c = false) a ->
  split_words (a ++ s) w = split_words s (rev a ++ w).
Proof.
  intros H. revert w. induction H as [|c a Hc _ IH]; intros w; simpl.
  - reflexivity.
  - rewrite Hc, IH, <- app_assoc. reflexivity.
Qed.

Lemma split_whitespace_join (args : list str) :
  Forall word args -> split_whitespace (join [32%N] args) = args.
Proof.
  unfold split_whitespace.
  induction 1 as [|a args [Hn Ha] Hargs IH]; [reflexivity|].
  assert (forall s, split_words (a ++ s) [] = split_words s (rev a)) as Hp.
  { intros s. rewrite (split_words_prefix a s [] Ha), app_nil_r.
    reflexivity. }
  assert (rev a <> []) as Hr.
  { intros E. apply (f_equal (@rev N)) in E. rewrite rev_involutive in E.
    auto. }
  destruct args as [|b args].
  - cbn [join]. pose proof (Hp []) as Hp0. rewrite app_nil_r in Hp0.
    rewrite Hp0. cbn [split_words].
    destruct (rev a) as [|z u] eqn:R; [congruence|].
    rewrite <- R, rev_involutive. reflexivity.
  - change (join [32%N] (a :: b :: args))
      with (a ++ [32%N] ++ join [32%N] (b :: args)).
    rewrite Hp. cbn [app split_words].
    change (Py_UNICODE_ISSPACE 32) with true. cbv iota.
    destruct (rev a) as [|z u] eqn:R; [congruence|].
    rewrite <- R, rev_involutive, IH. reflexivity.
Qed.

Lemma split_space_once_word (a : str) :
  Forall (fun c => Py_UNICODE_ISSPACE c = false) a ->
  split_space_once a = (a, None)
  /\ forall s, split_space_once (a ++ 32%N :: s) = (a, Some s).
Proof.
  induction 1 as [|c a Hc _ [IH1 IH2]]; [split; reflexivity|].
  assert ((c =? 32)%N = false) as E.
  { apply N.eqb_neq. intros ->. discriminate Hc. }
  split; [|intros s]; simpl; rewrite E; [rewrite IH1|rewrite IH2];
    reflexivity.
Qed.

Lemma join_words_ends (x : str) (l : list str) :
  Forall word (x :: l) ->
  exists c t z u,
    join [32%N] (x :: l) = c :: t /\ rev (join [32%N] (x :: l)) = z :: u
    /\ Py_UNICODE_ISSPACE c = false /\ Py_UNICODE_ISSPACE z = false.
Proof.
  revert x. induction l as [|y l IH]; intros x H.
  - inversion H as [|? ? [Hn Hx] _]; subst. cbn [join].
    destruct x as [|c t]; [congruence|].
    destruct (rev (c :: t)) as [|z u] eqn:R.
    + apply (f_equal (@rev N)) in R. rewrite rev_involutive in R.
      discriminate.
    + exists c, t, z, u. rewrite Forall_forall in Hx.
      repeat split; apply Hx; [left; auto|].
      apply in_rev. rewrite R. left. auto.
  - inversion H as [|? ? [Hn Hx] Hl]; subst.
    destruct (IH y Hl) as (c' & t' & z & u & _ & Hr & _ & Hz).
    change (join [32%N] (x :: y :: l))
      with (x ++ [32%N] ++ join [32%N] (y :: l)).
    destruct x as [|c t]; [congruence|].
    exists c, (t ++ [32%N] ++ join [32%N] (y :: l)), z,
           (u ++ [32%N] ++ rev (c :: t)).
    repeat split; auto.
    + rewrite rev_app_distr, rev_app_distr, Hr, <- app_assoc. reflexivity.
    + inversion Hx; assumption.
Qed.

(** A line made of a command word and argument words with one space
    between them, with any white space before and after the line, is read
    as that command, in lower case, and those arguments. *)
Theorem parse_input_words (lower : str -> str) (command : str)
        (args : list str) (a b : str) :
  word command -> Forall word args -> blank a -> blank b ->
  parse_input lower (a ++ join [32%N] (command :: args) ++ b)
  = (lower command, args).
Proof.
  intros Hc Hargs Ha Hb. unfold parse_input.
  rewrite (strip_padding _ _ _ Ha Hb).
  destruct (join_words_ends command args)
    as (c & t & z & u & E & R & Sc & Sz); [constructor; assumption|].
  rewrite (strip_id _ c t z u E R Sc Sz).
  destruct (split_space_once_word command (proj2 Hc)) as [H1 H2].
  destruct args as [|x args].
  - cbn [join]. rewrite H1. reflexivity.
  - change (join [32%N] (command :: x :: args))
      with (command ++ 32%N :: join [32%N] (x :: args)).
    rewrite H2. cbn [fst snd].
    rewrite (split_whitespace_join _ Hargs). reflexivity.
Qed.

Lemma parse_input_words_witness :
  parse_input (map ascii_lower) (lit "  ADD Bob 0671234567 ")
  = (lit "add", [lit "Bob"; lit "0671234567"]).
Proof.
  apply (parse_input_words (map ascii_lower) (lit "ADD")
                           [lit "Bob"; lit "0671234567"]
                           (lit "  ") (lit " "));
    repeat (constructor || discriminate).
Defined.

(** ** The session: what the commands keep of the book *)

Lemma strptime_ok_accepted (raw : str) (dt : datetime) :
  strptime raw = Ok dt -> accepted_date raw.
Proof.
  intros H. destruct (re_match format_regex raw) as [[rest g]|] eqn:E.
  - pose proof E as E'. apply re_match_format_sound in E'.
    destruct E' as (w & ds & ms & ys & d & m & y & -> & F & ->).
    destruct rest as [|c rest].
    + rewrite app_nil_r in *. rewrite (strptime_form _ _ _ _ _ _ _ F) in H.
      pose proof F as (_ & Fd & Fm & Fy).
      apply day_text_int in Fd. apply month_text_int in Fm.
      apply year_text_int in Fy.
      destruct (date_checked_cases y m d) as [Hok Hbad]; [tauto|tauto|lia|].
      assert (1 <= y /\ d <= _days_in_month y m) as Hv.
      { destruct (Z_le_dec 1 y) as [Hy|Hy];
          [destruct (Z_le_dec d (_days_in_month y m)) as [Hd|Hd]|]; auto;
          (destruct Hbad as [msg Hm]; [lia|rewrite Hm in H; discriminate]). }
      exists ds, ms, ys, d, m, y. tauto.
    + unfold strptime in H. rewrite E in H. discriminate.
  - unfold strptime in H. rewrite E in H. discriminate.
Qed.

Lemma Birthday_init_ok (raw : str) (b : Birthday) :
  Birthday_init raw = Ok b -> b = mkBirthday raw /\ accepted_date raw.
Proof.
  unfold Birthday_init, Birthday_validate_birthday.
  destruct (strptime raw) as [dt|e] eqn:E.
  - cbn. intros H. inversion H. split; [reflexivity|].
    eapply strptime_ok_accepted, E.
  - destruct (is_ValueError e); cbn; discriminate.
Qed.

Lemma call_record_ok (key : str) (m : method) (r : Record_) :
  record_ok key r -> record_ok key (snd (call m r)).
Proof.
  intros (Hn & Hs & He & Hp & Hb).
  assert (phones_valid (snd (call m r))) as Hp'.
  { destruct m; cbn [call];
      [apply add_phone_valid|apply remove_phone_valid
       |apply edit_phone_valid|apply add_birthday_valid]; exact Hp. }
  assert (rec_name (snd (call m r)) = rec_name r
          /\ (rec_birthday (snd (call m r)) = rec_birthday r
              \/ exists raw, accepted_date raw
                             /\ rec_birthday (snd (call m r))
                                = Some (mkBirthday raw))) as [Hn' Hb'].
  { destruct m; cbn [call].
    - unfold add_phone, bind, eval, get, put.
      destruct (Phone_init phone); cbn; auto.
    - cbn. auto.
    - destruct (in_dec (list_eq_dec N.eq_dec) old_phone
                       (map phone_value (rec_phones r))) as [Hin|Hout].
      + destruct (proj1 (edit_phone_outcome r old_phone new_phone) Hin)
          as (before & p & after & _ & _ & _ & ->).
        destruct (Phone_init new_phone); cbn; auto.
      + rewrite (proj2 (edit_phone_outcome r old_phone new_phone) Hout).
        cbn. auto.
    - unfold add_birthday, bind, eval, get, put.
      destruct (Birthday_init birthday) as [b|e] eqn:E; cbn; auto.
      apply Birthday_init_ok in E. destruct E as [-> Ha].
      split; auto. right. eauto. }
  repeat split; try assumption.
  - rewrite Hn'. exact Hn.
  - destruct Hb' as [->|(raw & Ha & ->)]; [exact Hb|exact Ha].
Qed.

Lemma dict_get_Forall {V} (P : str * V -> Prop) (key : str) (v : V)
      (d : dict V) :
  Forall P d -> dict_get key d = Some v -> P (key, v).
Proof.
  induction 1 as [|[k u] d Hk _ IH]; simpl; [discriminate|].
  destruct (str_eqb k key) eqn:E; [|exact IH].
  apply str_eqb_eq in E. subst k. intros H. inversion H; subst. exact Hk.
Qed.

Lemma Forall_setitem {V} (P : str * V -> Prop) (key : str) (v : V)
      (d : dict V) :
  Forall P d -> P (key, v) -> Forall P (dict_setitem key v d).
Proof.
  intros Hd Hv. induction Hd as [|[k u] d Hk Hd IH]; simpl.
  - constructor; [exact Hv|constructor].
  - destruct (str_eqb k key) eqn:E.
    + apply str_eqb_eq in E. subst k. constructor; assumption.
    + constructor; assumption.
Qed.

Lemma in_keys_setitem {V} (key k : str) (v : V) (d : dict V) :
  In k (dict_keys (dict_setitem key v d)) -> k = key \/ In k (dict_keys d).
Proof.
  induction d as [|[k' u] d IH]; simpl.
  - intros [H|[]]. auto.
  - destruct (str_eqb k' key); simpl; [tauto|].
    intros [H|H]; [tauto|]. apply IH in H. tauto.
Qed.

Lemma dict_wf_setitem {V} (key : str) (v : V) (d : dict V) :
  dict_wf d -> dict_wf (dict_setitem key v d).
Proof.
  unfold dict_wf. induction d as [|[k u] d IH]; simpl; intros H.
  - constructor; [intros []|constructor].
  - destruct (str_eqb k key) eqn:E; [exact H|].
    inversion H as [|? ? Hk Hd]; subst. simpl. constructor.
    + intros Hin. apply in_keys_setitem in Hin. destruct Hin as [->|Hin].
      * rewrite str_eqb_refl in E. discriminate.
      * contradiction.
    + apply IH, Hd.
Qed.

Lemma dict_keys_setitem {V} (key : str) (v : V) (d : dict V) :
  exists more, dict_keys (dict_setitem key v d) = dict_keys d ++ more.
Proof.
  induction d as [|[k u] d (more & IH)]; simpl.
  - exists [key]. reflexivity.
  - destruct (str_eqb k key); simpl.
    + exists []. rewrite app_nil_r. reflexivity.
    + exists more. rewrite IH. reflexivity.
Qed.

Lemma evolves_refl (book : AddressBook) : evolves book book.
Proof.
  split; [auto|split; [auto|]]. exists []. rewrite app_nil_r. reflexivity.
Qed.

Lemma evolves_trans (a b c : AddressBook) :
  evolves a b -> evolves b c -> evolves a c.
Proof.
  intros (W1 & R1 & m1 & K1) (W2 & R2 & m2 & K2).
  split; [auto|split; [auto|]].
  exists (m1 ++ m2). rewrite K2, K1, app_assoc. reflexivity.
Qed.

Lemma evolves_setitem (key : str) (r : Record_) (book : AddressBook) :
  record_ok key r ->
  evolves book (mkAddressBook (dict_setitem key r (data book))).
Proof.
  intros Hr. split; [|split]; cbn [data].
  - apply dict_wf_setitem.
  - intros H. apply Forall_setitem; assumption.
  - apply dict_keys_setitem.
Qed.

Lemma evolves_on_record (key : str) (m : method) (book : AddressBook) :
  evolves book (snd (on_record key (call m) book)).
Proof.
  unfold on_record.
  destruct (dict_get key (data book)) as [r|] eqn:E; [|apply evolves_refl].
  destruct (call m r) as [res r'] eqn:C. cbn [snd].
  assert (r' = snd (call m r)) as -> by (rewrite C; reflexivity).
  split; [|split]; cbn [data].
  - apply dict_wf_setitem.
  - intros H. apply Forall_setitem; [exact H|].
    apply call_record_ok.
    exact (dict_get_Forall (fun kr => record_ok (fst kr) (snd kr))
                           key r (data book) H E).
  - apply dict_keys_setitem.
Qed.

Lemma bind_ret_state {S A B} (m : M S A) (b : B) (s : S) :
  snd (bind m (fun _ => ret b) s) = snd (m s).
Proof. unfold bind, ret. destruct (m s) as [[a|e] s']; reflexivity. Qed.

Lemma bind_find {A} (name : str) (k : option Record_ -> M AddressBook A)
      (book : AddressBook) :
  bind (find name) k book = k (dict_get (strip name) (data book)) book.
Proof. reflexivity. Qed.

Lemma change_contact_evolves (args : list str) (book : AddressBook) :
  evolves book (snd (change_contact args book)).
Proof.
  unfold change_contact. rewrite input_error_state.
  unfold change_contact_func.
  destruct (List.length args <? 3)%nat; [apply evolves_refl|].
  destruct args as [|name [|old [|new [|x rest]]]]; try apply evolves_refl.
  rewrite bind_find.
  destruct (dict_get (strip name) (data book)); [|apply evolves_refl].
  rewrite bind_ret_state.
  apply (evolves_on_record (strip name) (Edit_phone old new)).
Qed.

Lemma cmd_add_birthday_evolves (args : list str) (book : AddressBook) :
  evolves book (snd (cmd_add_birthday args book)).
Proof.
  unfold cmd_add_birthday. rewrite input_error_state.
  unfold cmd_add_birthday_func.
  destruct (List.length args <? 2)%nat; [apply evolves_refl|].
  cbv zeta. rewrite bind_find.
  destruct (dict_get (strip (nth 0 args [])) (data book));
    [|apply evolves_refl].
  rewrite bind_ret_state.
  apply (evolves_on_record _ (Add_birthday (nth 1 args []))).
Qed.

Lemma add_contact_evolves (args : list str) (book : AddressBook) :
  evolves book (snd (add_contact args book)).
Proof.
  unfold add_contact. rewrite input_error_state. unfold add_contact_func.
  destruct (List.length args <? 2)%nat; [apply evolves_refl|].
  cbv zeta. set (name := nth 0 args []). set (phone := nth 1 args []).
  rewrite bind_find.
  destruct (dict_get (strip name) (data book)) as [r|] eqn:E.
  - unfold bind at 1. unfold ret at 1. rewrite bind_ret_state.
    apply (evolves_on_record (strip name) (Add_phone phone)).
  - unfold bind at 1. unfold bind at 1. unfold eval at 1.
    unfold Name_init. destruct (strip name) as [|c t] eqn:S.
    + apply evolves_refl.
    + cbn [str_bool negb]. unfold bind at 1, add_record, bind at 1, get, put.
      cbn [Record_init rec_name name_value data]. unfold ret at 1.
      rewrite bind_ret_state.
      eapply evolves_trans;
        [|apply (evolves_on_record (c :: t) (Add_phone phone))].
      apply evolves_setitem. repeat split.
      * rewrite <- S. apply strip_idempotent.
      * discriminate.
      * constructor.
Qed.

Lemma dispatch_evolves (command : str)
      (args : list str) (now : datetime) (book : AddressBook) :
  evolves book (snd (dispatch command args now book)).
Proof.
  unfold dispatch.
  destruct (str_eqb command (lit "hello")); [apply evolves_refl|].
  destruct (str_eqb command (lit "add")); [apply add_contact_evolves|].
  destruct (str_eqb command (lit "change")); [apply change_contact_evolves|].
  destruct (str_eqb command (lit "phone")).
  { unfold show_phone. rewrite input_error_state. unfold show_phone_func.
    destruct (List.length args <? 1)%nat; [apply evolves_refl|].
    cbv zeta. rewrite bind_find.
    destruct (dict_get (strip (nth 0 args [])) (data book));
      apply evolves_refl. }
  destruct (str_eqb command (lit "all")).
  { unfold show_all, bind, get, ret. destruct (data book);
      apply evolves_refl. }
  destruct (str_eqb command (lit "add-birthday"));
    [apply cmd_add_birthday_evolves|].
  destruct (str_eqb command (lit "birthdays")); [|apply evolves_refl].
  unfold show_birthdays.
  destruct (upcoming_birthdays None now book) as [[|r l]|[]];
    try destruct (all_some _); apply evolves_refl.
Qed.

Lemma input_error_ok {S} (func : M S str) (s : S) :
  exists r, fst (input_error func s) = Ok r.
Proof.
  unfold input_error. destruct (func s) as [[text|[]] s']; eexists;
    reflexivity.
Qed.

Lemma dispatch_ok (command : str) (args : list str)
      (now : datetime) (book : AddressBook) :
  exists r, fst (dispatch command args now book) = Ok r.
Proof.
  unfold dispatch.
  destruct (str_eqb command (lit "hello")); [eexists; reflexivity|].
  destruct (str_eqb command (lit "add")); [apply input_error_ok|].
  destruct (str_eqb command (lit "change")); [apply input_error_ok|].
  destruct (str_eqb command (lit "phone")); [apply input_error_ok|].
  destruct (str_eqb command (lit "all")).
  { unfold show_all, bind, get, ret. destruct (data book); eexists;
      reflexivity. }
  destruct (str_eqb command (lit "add-birthday")); [apply input_error_ok|].
  destruct (str_eqb command (lit "birthdays")); [|eexists; reflexivity].
  unfold show_birthdays.
  destruct (upcoming_birthdays None now book) as [[|r l]|[]];
    try destruct (all_some _); eexists; reflexivity.
Qed.

Lemma main_loop_evolves (lower : str -> str) (stdin : list (str * datetime)) :
  forall book w, evolves book (snd (fst (main_loop lower stdin book w))).
Proof.
  induction stdin as [|[user_input now] rest IH]; intros book w;
    cbn [main_loop].
  - apply evolves_refl.
  - destruct (parse_input lower user_input) as [command args].
    destruct (str_in command [lit "close"; lit "exit"]).
    + apply evolves_refl.
    + pose proof (dispatch_evolves command args now book) as D.
      destruct (dispatch command args now book) as [[r|e] book'];
        cbn [snd] in D.
      * eapply evolves_trans; [exact D|apply IH].
      * exact D.
Qed.

(** Whatever the lines of a session are, the loop of [main] keeps the
    book in order: each name once; each record under its own name, which is
    trimmed and not empty; each phone ten digits and each birthday a date
    that [Birthday] accepts.  No command removes or renames a contact: the
    names the book had stay, in their order, and new ones come after
    them. *)
Theorem main_loop_keeps_book (lower : str -> str)
        (stdin : list (str * datetime)) (book : AddressBook) (w : world) :
  dict_wf (data book) -> records_ok book ->
  let book' := snd (fst (main_loop lower stdin book w)) in
  dict_wf (data book') /\ records_ok book' /\ keeps_names book book'.
Proof.
  intros Hw Hr book'.
  destruct (main_loop_evolves lower stdin book w) as (W & R & K). auto.
Qed.

Lemma main_loop_keeps_book_witness :
  let now := mkdatetime 2024 6 10 12 0 0 0 in
  let book' :=
    snd (fst (main_loop (map ascii_lower)
                        [(lit "add Bob 0671234567", now);
                         (lit "add-birthday Bob 12.06.1990", now);
                         (lit "add Bob 12", now);
                         (lit "ADD Al 0507654321", now)]
                        AddressBook_init (mkworld [] []))) in
  dict_wf (data book') /\ records_ok book'
  /\ keeps_names AddressBook_init book'.
Proof.
  intros now.
  apply (main_loop_keeps_book (map ascii_lower)
           [(lit "add Bob 0671234567", now);
            (lit "add-birthday Bob 12.06.1990", now);
            (lit "add Bob 12", now);
            (lit "ADD Al 0507654321", now)]
           AddressBook_init (mkworld [] [])); constructor.
Defined.

(** ** The session: the file *)

Lemma load_data_fs (filename : option str) (fs : files) :
  snd (load_data filename fs) = fs.
Proof.
  unfold load_data, bind, get, eval, ret, raise.
  destruct (dict_get (default_filename filename) fs) as [f|]; [|reflexivity].
  destruct (loads f) as [o|e]; [|reflexivity].
  destruct (AddressBook_of_py o); reflexivity.
Qed.

Lemma run_commands_evolves (lower : str -> str)
      (stdin : list (str * datetime)) :
  forall book, evolves book (run_commands lower stdin book).
Proof.
  induction stdin as [|[user_input now] rest IH]; intros book;
    cbn [run_commands].
  - apply evolves_refl.
  - destruct (parse_input lower user_input) as [command args].
    eapply evolves_trans; [apply dispatch_evolves|apply IH].
Qed.

Lemma save_data_eq (book : AddressBook) (filename : option str)
      (fs : files) :
  save_data book filename fs
  = (Ok tt, dict_setitem (default_filename filename)
                         (dumps (AddressBook_to_py book)) fs).
Proof. reflexivity. Qed.

Lemma main_loop_no_exit (lower : str -> str) (stdin : list (str * datetime)) :
  Forall (fun l => is_exit lower (fst l) = false) stdin ->
  forall book w,
  exists out,
    main_loop lower stdin book w
    = (EOFError, run_commands lower stdin book,
       mkworld (w_fs w) (w_stdout w ++ out)).
Proof.
  induction 1 as [|[user_input now] rest Hx _ IH]; intros book w;
    cbn [main_loop run_commands].
  - eexists. reflexivity.
  - unfold is_exit in Hx. cbn [fst] in Hx.
    destruct (parse_input lower user_input) as [command args].
    cbn [fst] in Hx. rewrite Hx.
    destruct (dispatch_ok command args now book) as [r Hr].
    destruct (dispatch command args now book) as [[r'|e] book'];
      cbn [fst snd] in *; [|discriminate].
    destruct (IH book' (write (Printed r')
                              (write (Prompt (lit "Enter a command: ")) w)))
      as [out ->].
    cbn [write w_fs w_stdout].
    exists (Prompt (lit "Enter a command: ") :: Printed r' :: out).
    rewrite <- !app_assoc. reflexivity.
Qed.

Lemma main_loop_exit (lower : str -> str) (before : list (str * datetime))
      (user_input : str) (now : datetime) (rest : list (str * datetime)) :
  Forall (fun l => is_exit lower (fst l) = false) before ->
  is_exit lower user_input = true ->
  forall book w,
  exists out,
    main_loop lower (before ++ (user_input, now) :: rest) book w
    = (Returned, run_commands lower before book,
       mkworld (dict_setitem FILENAME
                  (dumps (AddressBook_to_py (run_commands lower before book)))
                  (w_fs w))
               (w_stdout w
                  ++ out ++ [Printed (Text (lit "Data saved. Good bye!"))])).
Proof.
  intros Hb Hx.
  induction Hb as [|[line now'] before Hl _ IH]; intros book w;
    cbn [app main_loop run_commands].
  - unfold is_exit in Hx.
    destruct (parse_input lower user_input) as [command args].
    cbn [fst] in Hx. rewrite Hx.
    exists [Prompt (lit "Enter a command: ")].
    rewrite save_data_eq. unfold print, write.
    cbn [w_fs w_stdout default_filename].
    rewrite <- !app_assoc. reflexivity.
  - unfold is_exit in Hl. cbn [fst] in Hl.
    destruct (parse_input lower line) as [command args].
    cbn [fst] in Hl. rewrite Hl.
    destruct (dispatch_ok command args now' book) as [r Hr].
    destruct (dispatch command args now' book) as [[r'|e] book'];
      cbn [fst snd] in *; [|discriminate].
    destruct (IH book' (write (Printed r')
                              (write (Prompt (lit "Enter a command: ")) w)))
      as [out ->].
    cbn [write w_fs w_stdout].
    exists (Prompt (lit "Enter a command: ") :: Printed r' :: out).
    rewrite <- !app_assoc. reflexivity.
Qed.

(** A session whose input ends before a [close] or an [exit] writes no
    file: [main] ends with the EOFError of [input], or, when the file of the
    book cannot be read back, with that error before the first prompt; the
    files are as they were, and what the commands did to the book is
    lost. *)
Theorem main_without_exit (lower : str -> str)
        (stdin : list (str * datetime)) (w : world) :
  Forall (fun l => is_exit lower (fst l) = false) stdin ->
  w_fs (snd (main lower stdin w)) = w_fs w
  /\ fst (main lower stdin w)
     = match fst (load_data (Some FILENAME) (w_fs w)) with
       | Ok _ => EOFError
       | Raise e => Uncaught e
       end.
Proof.
  intros H. unfold main.
  pose proof (load_data_fs (Some FILENAME) (w_fs w)) as Hfs.
  destruct (load_data (Some FILENAME) (w_fs w)) as [[book|e] fs];
    cbn [fst snd] in *; subst fs; [|split; reflexivity].
  destruct (main_loop_no_exit lower stdin H book
              (print (lit "Welcome to the assistant bot!")
                     (mkworld (w_fs w) (w_stdout w)))) as [out ->].
  split; reflexivity.
Qed.

Lemma main_without_exit_witness :
  let now := mkdatetime 2024 6 10 12 0 0 0 in
  let stdin := [(lit "add Bob 0671234567", now); (lit "all", now)] in
  let w := mkworld [] [] in
  w_fs (snd (main (map ascii_lower) stdin w)) = w_fs w
  /\ fst (main (map ascii_lower) stdin w) = EOFError.
Proof.
  intros now stdin w.
  apply (main_without_exit (map ascii_lower) stdin w).
  repeat constructor.
Defined.

(** A session that reaches [close] or [exit] returns, and leaves in the
    file the book as the commands before that line made it: reading the
    file back, as the next session does, gives that book.  The lines after
    it are not read, no other file is touched, and the output is the
    welcome, what the commands printed, and the good-bye. *)
Theorem main_exit_saves (lower : str -> str)
        (before : list (str * datetime)) (user_input : str) (now : datetime)
        (rest : list (str * datetime)) (w : world) (book : AddressBook) :
  fst (load_data (Some FILENAME) (w_fs w)) = Ok book ->
  dict_wf (data book) ->
  Forall (fun l => is_exit lower (fst l) = false) before ->
  is_exit lower user_input = true ->
  exists w',
    main lower (before ++ (user_input, now) :: rest) w = (Returned, w')
    /\ load_data (Some FILENAME) (w_fs w')
       = (Ok (run_commands lower before book), w_fs w')
    /\ (forall other, other <> FILENAME ->
                      dict_get other (w_fs w') = dict_get other (w_fs w))
    /\ exists out,
        w_stdout w'
        = w_stdout w
            ++ Printed (Text (lit "Welcome to the assistant bot!"))
            :: out ++ [Printed (Text (lit "Data saved. Good bye!"))].
Proof.
  intros Hl Hwf Hb Hx. unfold main.
  pose proof (load_data_fs (Some FILENAME) (w_fs w)) as Hfs.
  destruct (load_data (Some FILENAME) (w_fs w)) as [[book0|e] fs];
    cbn [fst snd] in *; [|discriminate].
  assert (book0 = book) as -> by congruence. subst fs.
  destruct (main_loop_exit lower before user_input now rest Hb Hx book
              (print (lit "Welcome to the assistant bot!")
                     (mkworld (w_fs w) (w_stdout w)))) as [out ->].
  set (book' := run_commands lower before book).
  assert (dict_wf (data book')) as Hwf'.
  { apply (run_commands_evolves lower before book), Hwf. }
  rewrite save_data_eq. cbn [w_fs w_stdout default_filename].
  eexists. split; [reflexivity|].
  cbn [w_fs w_stdout]. split; [|split].
  - unfold load_data, bind, get, eval, ret. cbn [default_filename].
    change (lit "addressbook.pkl") with FILENAME.
    rewrite dict_get_setitem_same.
    rewrite (loads_dumps _ (AddressBook_to_py_wf book' Hwf')).
    rewrite AddressBook_of_to_py. reflexivity.
  - intros other Ho. change (lit "addressbook.pkl") with FILENAME.
    rewrite !dict_get_setitem_other by exact Ho. reflexivity.
  - exists out. unfold print, write. cbn [w_stdout].
    rewrite <- app_assoc. reflexivity.
Qed.

Lemma main_exit_saves_witness :
  let now := mkdatetime 2024 6 10 12 0 0 0 in
  let before := [(lit "add Bob 0671234567", now)] in
  exists w',
    main (map ascii_lower)
         (before ++ (lit "  EXIT now", now) :: [(lit "add Al 0507654321", now)])
         (mkworld [] [])
    = (Returned, w')
    /\ load_data (Some FILENAME) (w_fs w')
       = (Ok (run_commands (map ascii_lower) before AddressBook_init),
          w_fs w').
Proof.
  intros now before.
  destruct (main_exit_saves (map ascii_lower) before (lit "  EXIT now") now
              [(lit "add Al 0507654321", now)] (mkworld [] [])
              AddressBook_init)
    as (w' & Hm & Hl & _); [reflexivity|constructor|repeat constructor
                            |reflexivity|].
  exists w'. split; assumption.
Defined.

(** ** The session: no command ends it *)

(** The loop of [main] ends in two ways only: it returns at the first
    [close] or [exit], and without one it ends with the EOFError of
    [input] when the lines are over.  No other line ends it, whatever the
    command and its arguments are: every error of a command is answered
    and the loop goes on. *)
Theorem main_loop_outcome (lower : str -> str)
        (stdin : list (str * datetime)) (book : AddressBook) (w : world) :
  fst (fst (main_loop lower stdin book w))
  = if existsb (fun l => is_exit lower (fst l)) stdin
    then Returned else EOFError.
Proof.
  revert book w.
  induction stdin as [|[user_input now] rest IH]; intros book w;
    cbn [main_loop existsb]; [reflexivity|].
  unfold is_exit at 1. cbn [fst].
  destruct (parse_input lower user_input) as [command args]. cbn [fst].
  destruct (str_in command [lit "close"; lit "exit"]); cbn [orb].
  - rewrite save_data_eq. reflexivity.
  - destruct (dispatch_ok command args now book) as [r Hr].
    destruct (dispatch command args now book) as [[r'|e] book'];
      cbn [fst] in Hr; [apply IH|discriminate].
Qed.
